(** * MacroKeyPad firmware: a shallow embedding of MacroKeyPad.ino

    The sketch runs on an ATmega32U4 (SparkFun Pro Micro): [int] is 16 bits
    wide, [char] and [byte] are 8 bits wide.  All globals of the sketch are
    gathered in one [State] record that every function takes and returns;
    calls into the Arduino core (serial output, pin writes, delays, USB
    keystrokes) are recorded in a trace of [Event]s. *)

From Stdlib Require Import ZArith String Ascii List Lia Bool DecimalString.
From stdpp Require Import base numbers list strings functions.

Open Scope Z_scope.

(** ** Characters and C strings *)

Definition NUL : ascii := ascii_of_nat 0.
Definition CR : ascii := ascii_of_nat 13.
Definition LF : ascii := ascii_of_nat 10.
Definition SPACE : ascii := " "%char.

#[global] Instance ascii_inhabited : Inhabited ascii := populate NUL.

(** The C string held by a [char] array: the characters before the first
    NUL. *)
Fixpoint cstr (mem : list ascii) : string :=
  match mem with
  | [] => EmptyString
  | c :: mem' => if Ascii.eqb c NUL then EmptyString else String c (cstr mem')
  end.

Definition strlen (mem : list ascii) : Z := Z.of_nat (String.length (cstr mem)).

(** [(char) (code & 255)] and [(uint8_t) c]. *)
Definition char_of_int (code : Z) : ascii := ascii_of_N (Z.to_N (Z.land code 255)).
Definition uint8_of_char (c : ascii) : Z := Z.of_N (N_of_ascii c).

(** Decimal rendering of a number, as [Serial.print(int)] and [%d] do. *)
Definition decimal (n : Z) : string := NilZero.string_of_int (Z.to_int n).

(** ** Constants of the sketch *)

Definition ROWS : Z := 2.
Definition COLS : Z := 4.
Definition KEYCOUNT : Z := ROWS * COLS.

(** Led nr is index (0 based), value is controller pin number. *)
Definition ledPin : list Z := [2; 3; 4; 5; 6; 7; 8; 9].

(** Key names of Keyboard.h used by the default key map. *)
Definition KEY_F13 : ascii := ascii_of_nat 240.
Definition KEY_F14 : ascii := ascii_of_nat 241.
Definition KEY_F15 : ascii := ascii_of_nat 242.
Definition KEY_F16 : ascii := ascii_of_nat 243.
Definition KEY_F17 : ascii := ascii_of_nat 244.
Definition KEY_F18 : ascii := ascii_of_nat 245.
Definition KEY_F21 : ascii := ascii_of_nat 248.
Definition KEY_F22 : ascii := ascii_of_nat 249.

(** [struct ConfigData]: four [char[KEYCOUNT]] arrays, in declaration
    order. *)
Record ConfigData : Type := mkConfig {
  keyMap1 : list ascii;
  keyMap2 : list ascii;
  ledConfig1 : list ascii;
  ledConfig2 : list ascii
}.

(** The member initialisers of [struct ConfigData]. *)
Definition defaultConfig : ConfigData := {|
  keyMap1 := [KEY_F13; KEY_F14; KEY_F15; KEY_F16; KEY_F17; KEY_F18; KEY_F21; KEY_F22];
  keyMap2 := ["1"; "2"; "3"; "4"; "5"; "6"; "7"; "8"]%char;
  ledConfig1 := ["t"; "t"; "t"; "t"; "t"; "t"; "t"; "t"]%char;
  ledConfig2 := ["t"; "t"; "t"; "t"; "t"; "t"; "t"; "t"]%char
|}.

(** Startup animation, led numbers to light, 1 based. *)
Definition ledAnimation : list (Z * Z) :=
  [(1, 8); (2, 7); (3, 6); (4, 5); (8, 1); (7, 2); (6, 3); (5, 4); (1, 8)].

(** ** Effects and state *)

Inductive Level : Type := LOW | HIGH.

Inductive Event : Type :=
| SerialBegin (baud : Z)
| KeyboardBegin
| PinModeOutput (pin : Z)
| DigitalWrite (pin : Z) (level : Level)
| Delay (ms : Z)
| SerialPrint (text : string)
| KeyboardWrite (code : ascii).

(** The globals of the sketch.  [readBufferPtr] is kept as the offset of the
    pointer from [readBuffer]; [strtokSave] is the position [strtok] keeps
    between calls, held as the part of the line not scanned yet; [events]
    has the newest event first.  [lastKey] and [startTime] are read only
    under DOUBLE_CLICK_TEST, which is not defined, and are left out. *)
Record State : Type := mkState {
  config : ConfigData;
  useAlternateKeyMap : bool;
  ledState : list Z;
  readBuffer : list ascii;
  readBufferPtr : nat;
  strtokSave : string;
  eeprom : nat -> ascii;
  events : list Event
}.

Definition set_config (c : ConfigData) (st : State) : State :=
  mkState c (useAlternateKeyMap st) (ledState st) (readBuffer st)
          (readBufferPtr st) (strtokSave st) (eeprom st) (events st).
Definition set_useAlternateKeyMap (b : bool) (st : State) : State :=
  mkState (config st) b (ledState st) (readBuffer st)
          (readBufferPtr st) (strtokSave st) (eeprom st) (events st).
Definition set_ledState (l : list Z) (st : State) : State :=
  mkState (config st) (useAlternateKeyMap st) l (readBuffer st)
          (readBufferPtr st) (strtokSave st) (eeprom st) (events st).
Definition set_readBuffer (b : list ascii) (st : State) : State :=
  mkState (config st) (useAlternateKeyMap st) (ledState st) b
          (readBufferPtr st) (strtokSave st) (eeprom st) (events st).
Definition set_readBufferPtr (p : nat) (st : State) : State :=
  mkState (config st) (useAlternateKeyMap st) (ledState st) (readBuffer st)
          p (strtokSave st) (eeprom st) (events st).
Definition set_strtokSave (s : string) (st : State) : State :=
  mkState (config st) (useAlternateKeyMap st) (ledState st) (readBuffer st)
          (readBufferPtr st) s (eeprom st) (events st).
Definition set_eeprom (e : nat -> ascii) (st : State) : State :=
  mkState (config st) (useAlternateKeyMap st) (ledState st) (readBuffer st)
          (readBufferPtr st) (strtokSave st) e (events st).
Definition emit (e : Event) (st : State) : State :=
  mkState (config st) (useAlternateKeyMap st) (ledState st) (readBuffer st)
          (readBufferPtr st) (strtokSave st) (eeprom st) (e :: events st).

(** The trace in chronological order. *)
Definition history (st : State) : list Event := rev (events st).

Definition CRLF : string := String CR (String LF EmptyString).
Definition NL : string := String LF EmptyString.

Definition Serial_print (s : string) (st : State) : State := emit (SerialPrint s) st.
Definition Serial_println (s : string) (st : State) : State :=
  emit (SerialPrint (s +:+ CRLF)) st.
Definition delay (ms : Z) (st : State) : State := emit (Delay ms) st.

(** ** Led controller *)

(** Set (zero based index) led on or off; 1 = on, 0 = off. *)
Definition setLed (nr onOff : Z) (st : State) : State :=
  if (nr <? 0) || (nr >=? KEYCOUNT) || (onOff <? 0) || (onOff >? 1) then st
  else
    let st := set_ledState (<[Z.to_nat nr := onOff]> (ledState st)) st in
    emit (DigitalWrite (ledPin !!! Z.to_nat nr) (if onOff =? 1 then LOW else HIGH)) st.

(** Toggle led (zero based index). *)
Definition toggleLed (nr : Z) (st : State) : State :=
  if (nr <? 0) || (nr >=? KEYCOUNT) then st
  else if (ledState st !!! Z.to_nat nr) =? 0 then setLed nr 1 st
  else setLed nr 0 st.

(** Change led state, on key-press, according to what has been configured
    for it.  The four [if]s are tried in turn, as in the sketch. *)
Definition executeLedConfig (nr : Z) (st : State) : State :=
  if (nr <? 0) || (nr >=? KEYCOUNT) then st
  else
    let setting :=
      if useAlternateKeyMap st then ledConfig2 (config st) !!! Z.to_nat nr
      else ledConfig1 (config st) !!! Z.to_nat nr in
    let st := if Ascii.eqb setting "t" then toggleLed nr st else st in
    let st := if Ascii.eqb setting "e" then setLed nr 1 st else st in
    let st := if Ascii.eqb setting "d" then setLed nr 0 st else st in
    if Ascii.eqb setting "f"
    then delay 150 (setLed nr 0 (delay 150 (setLed nr 1 st)))
    else st.

(** ** Startup animation *)

(** One pass of the frame loop, for loop counter [i]. *)
Definition animationFrame (st : State) (i : nat) : State :=
  let st := setLed (fst (ledAnimation !!! i) - 1) 1 st in
  let st := setLed (snd (ledAnimation !!! i) - 1) 1 st in
  let st :=
    if (0 <? i)%nat then
      let st := setLed (fst (ledAnimation !!! (i - 1)%nat) - 1) 0 st in
      setLed (snd (ledAnimation !!! (i - 1)%nat) - 1) 0 st
    else st in
  delay 250 st.

Definition startupLedAnimation (st : State) : State :=
  (* Backup current led state. *)
  let currentLedState := take (Z.to_nat KEYCOUNT) (ledState st) in
  (* Run through animation frames. *)
  let st := fold_left animationFrame (seq 0 (length ledAnimation)) st in
  (* Turn last ones off. *)
  let st := setLed (fst (ledAnimation !!! (length ledAnimation - 1)%nat) - 1) 0 st in
  let st := setLed (snd (ledAnimation !!! (length ledAnimation - 1)%nat) - 1) 0 st in
  (* Restore led state. *)
  fold_left (fun st i => setLed (Z.of_nat i) (currentLedState !!! i) st)
            (seq 0 (Z.to_nat KEYCOUNT)) st.

(** ** Serial line tokens: [strtok] and [atoi] *)

(** [strtok] is only ever called with the delimiter string [" "].  Skip the
    leading delimiters. *)
Fixpoint skipDelims (s : string) : string :=
  match s with
  | EmptyString => EmptyString
  | String c s' => if Ascii.eqb c SPACE then skipDelims s' else s
  end.

(** Cut a token at the first delimiter; the second component is what follows
    that delimiter. *)
Fixpoint cutToken (s : string) : string * string :=
  match s with
  | EmptyString => (EmptyString, EmptyString)
  | String c s' =>
      if Ascii.eqb c SPACE then (EmptyString, s')
      else let '(tok, rest) := cutToken s' in (String c tok, rest)
  end.

Definition nextToken (s : string) : option (string * string) :=
  match skipDelims s with
  | EmptyString => None
  | s' => Some (cutToken s')
  end.

(** [strtok(NULL, " ")]: continue in the line where the last call stopped. *)
Definition strtok_NULL (st : State) : option string * State :=
  match nextToken (strtokSave st) with
  | None => (None, set_strtokSave EmptyString st)
  | Some (tok, rest) => (Some tok, set_strtokSave rest st)
  end.

(** [strtok(readBuffer, " ")]: start on the C string in [readBuffer]. *)
Definition strtok_readBuffer (st : State) : option string * State :=
  strtok_NULL (set_strtokSave (cstr (readBuffer st)) st).

Definition isspace (c : ascii) : bool :=
  let n := nat_of_ascii c in ((n =? 32) || ((9 <=? n) && (n <=? 13)))%nat.

Definition isdigit (c : ascii) : bool :=
  let n := nat_of_ascii c in ((48 <=? n) && (n <=? 57))%nat.

(** A 16-bit [int] wraps around. *)
Definition wrap16 (z : Z) : Z := (z + 32768) mod 65536 - 32768.

Fixpoint atoiDigits (acc : Z) (s : string) : Z :=
  match s with
  | EmptyString => acc
  | String c s' =>
      if isdigit c
      then atoiDigits (wrap16 (acc * 10 + (Z.of_nat (nat_of_ascii c) - 48))) s'
      else acc
  end.

Fixpoint skipSpaces (s : string) : string :=
  match s with
  | EmptyString => EmptyString
  | String c s' => if isspace c then skipSpaces s' else s
  end.

(** [atoi]: leading white space, an optional sign, then decimal digits up to
    the first other character.  The value is kept in a 16-bit [int]; a
    number that does not fit wraps around, as it does in avr-libc. *)
Definition atoi (s : string) : Z :=
  match skipSpaces s with
  | String "-" s' => wrap16 (- atoiDigits 0 s')
  | String "+" s' => atoiDigits 0 s'
  | s' => atoiDigits 0 s'
  end.

(** [strstr(haystack, needle) != NULL]. *)
Fixpoint strstr (haystack needle : string) : bool :=
  String.prefix needle haystack ||
  match haystack with
  | EmptyString => false
  | String _ h => strstr h needle
  end.

(** [s[0]] of a C string: its first character, or the terminating NUL. *)
Definition firstChar (s : string) : ascii :=
  match s with
  | EmptyString => NUL
  | String c _ => c
  end.

(** Read number from the serial data buffer. *)
Definition parseNumber (minValue maxValue : Z) (st : State) : Z * State :=
  let '(nextword, st) := strtok_NULL st in
  match nextword with
  | None => (-1, Serial_print ("Error, missing number" +:+ NL) st)
  | Some w =>
      let nr := atoi w in
      if (nr <? minValue) || (nr >? maxValue) then
        let st := Serial_print "Error, expected number from " st in
        let st := Serial_print (decimal minValue) st in
        let st := Serial_print " to " st in
        (-1, Serial_println (decimal maxValue) st)
      else (nr, st)
  end.

(** ** Non-volatile storage *)

(** [EEPROM.put] of an object whose byte image is [bytes]. *)
Fixpoint EEPROM_put (addr : nat) (bytes : list ascii) (mem : nat -> ascii) : nat -> ascii :=
  match bytes with
  | [] => mem
  | b :: bytes' => EEPROM_put (S addr) bytes' (<[addr := b]> mem)
  end.

(** [EEPROM.get] of an object of [len] bytes. *)
Definition EEPROM_get (addr len : nat) (mem : nat -> ascii) : list ascii :=
  map (fun i => mem (addr + i)%nat) (seq 0 len).

(** A 16-bit [int] in memory, low byte first. *)
Definition intBytes (v : Z) : list ascii := [char_of_int v; char_of_int (Z.shiftr v 8)].
Definition intOfBytes (b : list ascii) : Z :=
  wrap16 (uint8_of_char (b !!! 0%nat) + 256 * uint8_of_char (b !!! 1%nat)).
Definition sizeof_int : nat := 2.

(** The byte image of [struct ConfigData]. *)
Definition configBytes (c : ConfigData) : list ascii :=
  keyMap1 c ++ keyMap2 c ++ ledConfig1 c ++ ledConfig2 c.
Definition configOfBytes (b : list ascii) : ConfigData := {|
  keyMap1 := take 8 b;
  keyMap2 := take 8 (drop 8 b);
  ledConfig1 := take 8 (drop 16 b);
  ledConfig2 := take 8 (drop 24 b)
|}.
Definition sizeof_config : nat := 32.

Definition VERSION_TAG : Z := 2306.

(** ** Command handlers *)

(** [__DATE__] and [__TIME__] are fixed when the sketch is compiled; these
    stand for them, in the format the C standard gives them. *)
Definition BUILD_DATE : string := "Mmm dd yyyy".
Definition BUILD_TIME : string := "hh:mm:ss".
Definition VERSION : string := "MacroPad-1.0, " +:+ BUILD_DATE +:+ " " +:+ BUILD_TIME.

Definition MSG_HELP_START : string := "Valid commands:" +:+ NL.
Definition MSG_HELP : string := "help                    : [or ?] show this help".
Definition MSG_VERSION : string := "version                 : [or v] show the macropad version".
Definition MSG_GETLED : string := "getled <NR>             : [or g] get led <NR> state (return 0 for off or 1 for on)".
Definition MSG_TOGGLE : string := "toggle <NR>             : [or t] toggle led <NR> state (<NR> is 1..8)".
Definition MSG_ON : string := "on <NR>                 : [or e] turn led <NR> on/enable (<NR> is 1..8)".
Definition MSG_OFF : string := "off <NR>                : [or d] turn led <NR> off/disable (<NR> is 1..8)".
Definition MSG_FLASH : string := "flash <NR> <MS>         : [or f] turn led <NR> on, sleep <MS> milliseconds, turn off, and sleep same time again (<NR> is 1..8, <MS> is 10..500)".
Definition MSG_ANIMATION : string := "animation               : [or a] run startup led animation".
Definition MSG_USEMAP : string := "usemap <NR>             : [or u] enable keymap <NR> (<NR> is 1 or 2)".
Definition MSG_CONFIGTOGGLE : string := "configtoggle <NR> <SET> : [or c] configure key led toggle for key <NR> (1..8), <SET> is one of [t,e,d,f] where flash will be 150ms".
Definition MSG_SHOWSETTINGS : string := "showsettings            : [or s] show settings".
Definition MSG_SETKEYCODE : string := "setkeycode <NR> <CODE>  : [or k] set key code of key <NR> (1..8) to <CODE> 0..255".
Definition MSG_SETKEYCHAR : string := "setkeychar <NR> <CHAR>  : [or h] set key character of key <NR> (1..8) to <CHAR> (a single char)".
Definition MSG_PERSIST : string := "persist                 : [or p] write config to EEPROM (use if you change keys or configtoggles)".
Definition MSG_LOAD : string := "load                    : [or l] load config from EEPROM (automatically done on each startup)".
Definition MSG_HELP_END : string :=
  NL +:+ "You can put multiple commands in one line - up to 79 characters (space separated), example: 'on 1 toggle 7 off 3'" +:+ NL.

(** The [help] column of the handler table, in table order. *)
Definition helpColumn : list string :=
  [MSG_HELP; MSG_VERSION; MSG_GETLED; MSG_TOGGLE; MSG_ON; MSG_OFF; MSG_FLASH;
   MSG_ANIMATION; MSG_USEMAP; MSG_CONFIGTOGGLE; MSG_SHOWSETTINGS; MSG_SETKEYCODE;
   MSG_SETKEYCHAR; MSG_PERSIST; MSG_LOAD].

(** Print a string kept in program memory: at most 199 characters of it. *)
Definition println_P (data_P : string) (st : State) : State :=
  Serial_println (String.substring 0 199 data_P) st.

(** Help command, show list. *)
Definition handleHelp (st : State) : Z * State :=
  let st := println_P MSG_HELP_START st in
  let st := fold_left (fun st msg => println_P msg st) helpColumn st in
  (0, println_P MSG_HELP_END st).

(** Show version number. *)
Definition handleVersion (st : State) : Z * State :=
  (0, println_P VERSION st).

(** Get led state. *)
Definition handleGetLed (st : State) : Z * State :=
  let '(nr, st) := parseNumber 1 KEYCOUNT st in
  if nr =? -1 then (1, st)
  else (0, Serial_println (decimal (ledState st !!! Z.to_nat (nr - 1))) st).

(** Toggle led. *)
Definition handleToggle (st : State) : Z * State :=
  let '(nr, st) := parseNumber 1 KEYCOUNT st in
  if nr =? -1 then (1, st)
  else (0, toggleLed (nr - 1) st).

(** Turn on led. *)
Definition handleOn (st : State) : Z * State :=
  let '(nr, st) := parseNumber 1 KEYCOUNT st in
  if nr =? -1 then (1, st)
  else (0, setLed (nr - 1) 1 st).

(** Turn off led. *)
Definition handleOff (st : State) : Z * State :=
  let '(nr, st) := parseNumber 1 KEYCOUNT st in
  if nr =? -1 then (1, st)
  else (0, setLed (nr - 1) 0 st).

(** Flash led. *)
Definition handleFlash (st : State) : Z * State :=
  let '(nr, st) := parseNumber 1 KEYCOUNT st in
  if nr =? -1 then (1, st)
  else
    let '(ms, st) := parseNumber 10 500 st in
    if ms =? -1 then (1, st)
    else (0, delay ms (setLed (nr - 1) 0 (delay ms (setLed (nr - 1) 1 st)))).

(** Execute led animation. *)
Definition handleAnimation (st : State) : Z * State :=
  (0, startupLedAnimation st).

(** Switch to keymap. *)
Definition handleActivateKeyMap (st : State) : Z * State :=
  let '(nr, st) := parseNumber 1 2 st in
  if nr =? -1 then (1, st)
  else (0, set_useAlternateKeyMap (nr =? 2) st).

(** [config.keyMap1[i] = c] or [config.keyMap2[i] = c], by the active map. *)
Definition storeKey (i : nat) (c : ascii) (st : State) : State :=
  let cfg := config st in
  if useAlternateKeyMap st
  then set_config (mkConfig (keyMap1 cfg) (<[i := c]> (keyMap2 cfg))
                            (ledConfig1 cfg) (ledConfig2 cfg)) st
  else set_config (mkConfig (<[i := c]> (keyMap1 cfg)) (keyMap2 cfg)
                            (ledConfig1 cfg) (ledConfig2 cfg)) st.

(** [config.ledConfig1[i] = c] or [config.ledConfig2[i] = c], by the active
    map. *)
Definition storeLedConfig (i : nat) (c : ascii) (st : State) : State :=
  let cfg := config st in
  if useAlternateKeyMap st
  then set_config (mkConfig (keyMap1 cfg) (keyMap2 cfg)
                            (ledConfig1 cfg) (<[i := c]> (ledConfig2 cfg))) st
  else set_config (mkConfig (keyMap1 cfg) (keyMap2 cfg)
                            (<[i := c]> (ledConfig1 cfg)) (ledConfig2 cfg)) st.

(** Configure led toggle behavior. *)
Definition handleConfigToggle (st : State) : Z * State :=
  let '(nr, st) := parseNumber 1 KEYCOUNT st in
  if nr =? -1 then (1, st)
  else
    let '(setting, st) := strtok_NULL st in
    let rejected :=
      match setting with
      | None => true
      | Some s => negb (strstr "tedf" s) || negb (String.length s =? 1)%nat
      end in
    if rejected then (1, Serial_println "Expected setting flag, one of [t,e,d,f]." st)
    else (0, storeLedConfig (Z.to_nat (nr - 1)) (firstChar (default EmptyString setting)) st).

(** One line of [handleShowSettings], as [sprintf] leaves it in its buffer:
    a NUL written for [%c] ends the C string there. *)
Definition settingsLine (i : nat) (st : State) : string :=
  let cfg := config st in
  let ledcfg := if useAlternateKeyMap st then ledConfig2 cfg !!! i else ledConfig1 cfg !!! i in
  let key := if useAlternateKeyMap st then keyMap2 cfg !!! i else keyMap1 cfg !!! i in
  cstr (list_ascii_of_string
    ("key " +:+ decimal (Z.of_nat i + 1) +:+
     ", led: " +:+ (if (ledState st !!! i) =? 0 then "off" else "on") +:+
     ", ledconfig: " +:+ String ledcfg EmptyString +:+
     ", keycode: " +:+ decimal (uint8_of_char key))).

(** Show configuration (for active keymap). *)
Definition handleShowSettings (st : State) : Z * State :=
  let st := Serial_println (if useAlternateKeyMap st then "map 2 active" else "map 1 active") st in
  (0, fold_left (fun st i => Serial_println (settingsLine i st) st)
                (seq 0 (Z.to_nat KEYCOUNT)) st).

(** Change the function of a macro key, by code, e.g, 65 = A, 240 = F13. *)
Definition handleSetKeyCode (st : State) : Z * State :=
  let '(nr, st) := parseNumber 1 KEYCOUNT st in
  if nr =? -1 then (1, st)
  else
    let '(code, st) := parseNumber 0 255 st in
    if code =? -1 then (1, st)
    else (0, storeKey (Z.to_nat (nr - 1)) (char_of_int code) st).

(** Change the function of a macro key, by char. *)
Definition handleSetKeyChar (st : State) : Z * State :=
  let '(nr, st) := parseNumber 1 KEYCOUNT st in
  if nr =? -1 then (1, st)
  else
    let '(value, st) := strtok_NULL st in
    let rejected :=
      match value with
      | None => true
      | Some s => negb (String.length s =? 1)%nat
      end in
    if rejected then (1, Serial_println "Expected single character." st)
    else (0, storeKey (Z.to_nat (nr - 1)) (firstChar (default EmptyString value)) st).

(** Store config settings in EEPROM. *)
Definition handlePersist (st : State) : Z * State :=
  let eeAddress := 0%nat in
  let version := VERSION_TAG in
  let st := set_eeprom (EEPROM_put eeAddress (intBytes version) (eeprom st)) st in
  let eeAddress := (eeAddress + sizeof_int)%nat in
  let st := set_eeprom (EEPROM_put eeAddress (configBytes (config st)) (eeprom st)) st in
  (0, Serial_println "Config persisted." st).

(** Load config settings from EEPROM, also called on startup. *)
Definition handleLoad (st : State) : Z * State :=
  let eeAddress := 0%nat in
  let version := intOfBytes (EEPROM_get eeAddress sizeof_int (eeprom st)) in
  if version =? VERSION_TAG then
    let st := set_config (configOfBytes (EEPROM_get sizeof_int sizeof_config (eeprom st))) st in
    (0, Serial_println "Config loaded." st)
  else (0, st).

(** ** Command table and dispatch *)

Record HandlerEntry : Type := mkEntry {
  shortcode : string;
  command : string;
  help : string;
  handler : State -> Z * State
}.

(** List of all possible commands. *)
Definition handlers : list HandlerEntry := [
  mkEntry "?" "help" MSG_HELP handleHelp;
  mkEntry "v" "version" MSG_VERSION handleVersion;
  mkEntry "g" "getled" MSG_GETLED handleGetLed;
  mkEntry "t" "toggle" MSG_TOGGLE handleToggle;
  mkEntry "e" "on" MSG_ON handleOn;
  mkEntry "d" "off" MSG_OFF handleOff;
  mkEntry "f" "flash" MSG_FLASH handleFlash;
  mkEntry "a" "animation" MSG_ANIMATION handleAnimation;
  mkEntry "u" "usemap" MSG_USEMAP handleActivateKeyMap;
  mkEntry "c" "configtoggle" MSG_CONFIGTOGGLE handleConfigToggle;
  mkEntry "s" "showsettings" MSG_SHOWSETTINGS handleShowSettings;
  mkEntry "k" "setkeycode" MSG_SETKEYCODE handleSetKeyCode;
  mkEntry "h" "setkeychar" MSG_SETKEYCHAR handleSetKeyChar;
  mkEntry "p" "persist" MSG_PERSIST handlePersist;
  mkEntry "l" "load" MSG_LOAD handleLoad
].

(** The search of the table: the first entry whose command or shortcode is
    the word. *)
Fixpoint findHandler (word : string) (table : list HandlerEntry) : option HandlerEntry :=
  match table with
  | [] => None
  | e :: table' =>
      if String.eqb (command e) word || String.eqb (shortcode e) word then Some e
      else findHandler word table'
  end.

(** The [while (word != NULL)] loop of [executeSerialCommands].  Every pass
    takes at least one character off the line, so [fuel] only has to exceed
    the length of what is left of it (see [commandLoop_fuel]). *)
Fixpoint commandLoop (fuel : nat) (word : option string) (st : State) : State :=
  match word with
  | None => st
  | Some w =>
      match fuel with
      | O => st
      | S fuel' =>
          match findHandler w handlers with
          | Some e =>
              let '(r, st) := handler e st in
              if r =? 0 then
                (* Check if there is a next command. *)
                let '(word', st) := strtok_NULL st in
                commandLoop fuel' word' st
              else st
          | None =>
              (* Ignore the rest of the line. *)
              Serial_print ("Unknown Command Error" +:+ NL) st
          end
      end
  end.

(** Find commands in serial input, and execute them. *)
Definition executeSerialCommands (st : State) : State :=
  let fuel := String.length (cstr (readBuffer st)) in
  let '(word, st) := strtok_readBuffer st in
  commandLoop fuel word st.

(** ** Serial input *)

Definition sizeof_readBuffer : nat := 80.

(** Reset serial data buffer. *)
Definition clearReadBuffer (st : State) : State :=
  set_readBufferPtr 0 (set_readBuffer (<[0%nat := NUL]> (readBuffer st)) st).

(** [*p = c] for [p] at offset [i] from [readBuffer]; a store outside the
    array has no defined result. *)
Definition pokeReadBuffer (i : nat) (c : ascii) (st : State) : option State :=
  if (i <? sizeof_readBuffer)%nat
  then Some (set_readBuffer (<[i := c]> (readBuffer st)) st)
  else None.

(** The body of the [while (Serial.available() > 0)] loop, for the
    character [ser] that [Serial.read()] returns. *)
Definition receiveChar (ser : ascii) (st : State) : option State :=
  st ← (if (strlen (readBuffer st) <? Z.of_nat sizeof_readBuffer - 1)
           && negb (Ascii.eqb ser CR) && negb (Ascii.eqb ser LF)
        then
          (* Add new char to buffer. *)
          st ← pokeReadBuffer (readBufferPtr st) ser st;
          let st := set_readBufferPtr (S (readBufferPtr st)) st in
          pokeReadBuffer (readBufferPtr st) NUL st
        else Some st);
  (* "enter" (cr and or lf) pressed? handle data (if any). *)
  if (Ascii.eqb ser CR || Ascii.eqb ser LF) && (0 <? strlen (readBuffer st))
  then Some (clearReadBuffer (executeSerialCommands st))
  else Some st.

(** Check and store serial data: [incoming] is what the serial port has
    available, in order. *)
Fixpoint handleSerialReceive (incoming : list ascii) (st : State) : option State :=
  match incoming with
  | [] => Some st
  | ser :: incoming' => st ← receiveChar ser st; handleSerialReceive incoming' st
  end.

(** ** Boot and main loop *)

(** The globals as the C runtime leaves them before [setup]: zero, except
    for [config], which has its member initialisers.  [rom] is the content
    of the EEPROM at power-on. *)
Definition powerOn (rom : nat -> ascii) : State := {|
  config := defaultConfig;
  useAlternateKeyMap := false;
  ledState := replicate (Z.to_nat KEYCOUNT) 0;
  readBuffer := replicate sizeof_readBuffer NUL;
  readBufferPtr := 0;
  strtokSave := EmptyString;
  eeprom := rom;
  events := []
|}.

(** Initialize all. *)
Definition setup (st : State) : State :=
  let st := emit (SerialBegin 115200) st in
  (* Load config data from EEPROM. *)
  let st := snd (handleLoad st) in
  (* Initialize readBuffer to blank/empty-string. *)
  let st := clearReadBuffer st in
  (* Set LED pins as output, and turn off. *)
  let st := fold_left (fun st i => setLed (Z.of_nat i) 0 (emit (PinModeOutput (ledPin !!! i)) st))
                      (seq 0 (Z.to_nat KEYCOUNT)) st in
  (* Start USB keyboard. *)
  let st := emit KeyboardBegin st in
  (* Show startup lightshow. *)
  startupLedAnimation st.

(** [useAlternateKeyMap ? config.keyMap2[keyIndex] : config.keyMap1[keyIndex]],
    the code sent for a key. *)
Definition activeKeyCode (keyIndex : Z) (st : State) : ascii :=
  if useAlternateKeyMap st
  then keyMap2 (config st) !!! Z.to_nat keyIndex
  else keyMap1 (config st) !!! Z.to_nat keyIndex.

(** One pass of [loop]: [incoming] is the pending serial input and [key]
    what [keypad.getKey()] returns, the 1 based key index or 0 for none. *)
Definition loop (incoming : list ascii) (key : Z) (st : State) : option State :=
  st ← handleSerialReceive incoming st;
  let st :=
    if key =? 0 then st
    else
      let keyIndex := key - 1 in
      (* Send key press to PC via USB. *)
      executeLedConfig keyIndex (emit (KeyboardWrite (activeKeyCode keyIndex st)) st) in
  Some (delay 20 st).

(** A freshly booted pad whose EEPROM was never written (all cells 0xFF). *)
Definition blankRom : nat -> ascii := fun _ => ascii_of_nat 255.
Definition bootState : State := setup (powerOn blankRom).

(** Feed one line, ended by a carriage return, to the serial port. *)
Definition sendLine (line : string) (st : State) : option State :=
  handleSerialReceive (list_ascii_of_string line ++ [CR]) st.

(** ** Well-formed states *)

(** [ledState] is an array of [KEYCOUNT] bytes, each 0 (off) or 1 (on). *)
Definition ledOk (st : State) : Prop :=
  length (ledState st) = Z.to_nat KEYCOUNT /\
  Forall (fun b => b = 0 \/ b = 1) (ledState st).

(** Each array of [struct ConfigData] has [KEYCOUNT] entries. *)
Definition configOk (c : ConfigData) : Prop :=
  length (keyMap1 c) = Z.to_nat KEYCOUNT /\ length (keyMap2 c) = Z.to_nat KEYCOUNT /\
  length (ledConfig1 c) = Z.to_nat KEYCOUNT /\ length (ledConfig2 c) = Z.to_nat KEYCOUNT.

(** The version tag as [handleLoad] reads it from the EEPROM. *)
Definition storedTag (st : State) : Z :=
  intOfBytes (EEPROM_get 0 sizeof_int (eeprom st)).

(** The stored payload as [handleLoad] reads it from the EEPROM. *)
Definition storedConfig (st : State) : ConfigData :=
  configOfBytes (EEPROM_get sizeof_int sizeof_config (eeprom st)).

(** What reading tokens and printing may change: the position in the line,
    which only moves forward, and the trace. *)
Definition consumes (st st' : State) : Prop :=
  config st' = config st /\
  useAlternateKeyMap st' = useAlternateKeyMap st /\
  ledState st' = ledState st /\
  readBuffer st' = readBuffer st /\
  readBufferPtr st' = readBufferPtr st /\
  eeprom st' = eeprom st /\
  (String.length (strtokSave st') <= String.length (strtokSave st))%nat.

(** ** The startup animation, as its description words it *)

(** The reference sequence of frames: led pairs, 1 based. *)
Definition referenceFrames : list (Z * Z) :=
  [(1, 8); (2, 7); (3, 6); (4, 5); (8, 1); (7, 2); (6, 3); (5, 4); (1, 8)].

(** Driving led [led] (1 based) on or off: its pin is [led + 1], and the pin
    is LOW when the led is lit. *)
Definition driveLed (led : Z) (on : bool) : Event :=
  DigitalWrite (led + 1) (if on then LOW else HIGH).

Definition drivePair (pair : Z * Z) (on : bool) : list Event :=
  [driveLed (fst pair) on; driveLed (snd pair) on].

(** Each frame: turn on the frame's pair, turn off the previous frame's pair
    (none on the first frame), hold 250 ms.  After the last frame, turn off
    its pair. *)
Fixpoint playFrames (previous : option (Z * Z)) (frames : list (Z * Z)) : list Event :=
  match frames with
  | [] => from_option (fun p => drivePair p false) [] previous
  | frame :: frames' =>
      drivePair frame true ++ from_option (fun p => drivePair p false) [] previous ++
      [Delay 250] ++ playFrames (Some frame) frames'
  end.

(** Put every led back to its state in the snapshot, first led first. *)
Definition restoreLeds (snapshot : list Z) : list Event :=
  imap (fun i b => driveLed (Z.of_nat i + 1) (b =? 1)) snapshot.

Definition animationScript (snapshot : list Z) : list Event :=
  playFrames None referenceFrames ++ restoreLeds snapshot.

(** The number of 250 ms holds in a trace. *)
Definition isHold (e : Event) : bool :=
  match e with
  | Delay ms => ms =? 250
  | _ => false
  end.
Definition countHolds (trace : list Event) : nat :=
  length (List.filter isHold trace).

(** ** Where the command loop gets to *)

(** [loopReaches word st word' st']: the loop of [executeSerialCommands],
    entered with the word [word] in state [st], comes to the top of a later
    (or the same) pass with the word [word'] in state [st'].  A pass leads
    to the next one when the word is in the table and its handler returns
    0. *)
Inductive loopReaches : option string -> State -> option string -> State -> Prop :=
| reaches_here (word : option string) (st : State) : loopReaches word st word st
| reaches_next (w : string) (st : State) (e : HandlerEntry) (st1 : State)
               (word' : option string) (st' : State)
               (word'' : option string) (st'' : State) :
    findHandler w handlers = Some e ->
    handler e st = (0, st1) ->
    strtok_NULL st1 = (word', st') ->
    loopReaches word' st' word'' st'' ->
    loopReaches (Some w) st word'' st''.

(** The line a state holds in its input buffer reaches word [word] in state
    [st']. *)
Definition lineReaches (st : State) (word : option string) (st' : State) : Prop :=
  loopReaches (fst (strtok_readBuffer st)) (snd (strtok_readBuffer st)) word st'.

Definition unknownCommandError (st : State) : State :=
  Serial_print ("Unknown Command Error" +:+ NL) st.

(** What [parseNumber] prints for a number outside [lo..hi]. *)
Definition rangeError (lo hi : Z) (st : State) : State :=
  Serial_println (decimal hi)
    (Serial_print " to " (Serial_print (decimal lo)
       (Serial_print "Error, expected number from " st))).

(** The inclusive ranges of the numeric arguments of each verb, as the verb
    table of the specification declares them. *)
Definition declaredRanges (verb : string) : list (Z * Z) :=
  if String.eqb verb "getled" then [(1, 8)]
  else if String.eqb verb "toggle" then [(1, 8)]
  else if String.eqb verb "on" then [(1, 8)]
  else if String.eqb verb "off" then [(1, 8)]
  else if String.eqb verb "flash" then [(1, 8); (10, 500)]
  else if String.eqb verb "usemap" then [(1, 2)]
  else if String.eqb verb "configtoggle" then [(1, 8)]
  else if String.eqb verb "setkeycode" then [(1, 8); (0, 255)]
  else if String.eqb verb "setkeychar" then [(1, 8)]
  else [].

(** The state after the characters of [line] have arrived on the serial
    port, with no terminator yet. *)
Definition typed (line : string) (st : State) : State :=
  default st (handleSerialReceive (list_ascii_of_string line) st).

(** ** The input buffer between lines *)

(** A character that is stored like any other and seen by [strlen]. *)
Definition ordinary (c : ascii) : Prop := c <> NUL /\ c <> CR /\ c <> LF.

(** [readBufferPtr] points at the NUL that ends the line in [readBuffer],
    inside the array. *)
Definition bufferOk (st : State) : Prop :=
  length (readBuffer st) = sizeof_readBuffer /\
  readBufferPtr st = String.length (cstr (readBuffer st)) /\
  (String.length (cstr (readBuffer st)) < sizeof_readBuffer)%nat.

(** The line after one more character: nothing is added to a line of 79
    characters. *)
Definition appendBounded (line : string) (c : ascii) : string :=
  if (String.length line <? 79)%nat then line +:+ String c EmptyString else line.

(** Two states that differ at most in the input buffer and its pointer. *)
Definition sameButBuffer (st st' : State) : Prop :=
  config st' = config st /\
  useAlternateKeyMap st' = useAlternateKeyMap st /\
  ledState st' = ledState st /\
  strtokSave st' = strtokSave st /\
  eeprom st' = eeprom st /\
  events st' = events st.

(** ** Notions for the properties of the whole sketch *)

(** An event that neither drives a pin nor sends a keystroke. *)
Definition quiet (e : Event) : bool :=
  match e with
  | DigitalWrite _ _ | KeyboardWrite _ => false
  | _ => true
  end.

(** The number of keystrokes in a trace. *)
Definition isKey (e : Event) : bool :=
  match e with
  | KeyboardWrite _ => true
  | _ => false
  end.
Definition countKeys (trace : list Event) : nat := length (List.filter isKey trace).

(** The level a pin was last driven to, in a trace with the newest event
    first. *)
Fixpoint pinLevel (pin : Z) (trace : list Event) : option Level :=
  match trace with
  | [] => None
  | DigitalWrite p level :: trace' => if p =? pin then Some level else pinLevel pin trace'
  | _ :: trace' => pinLevel pin trace'
  end.

(** Every led pin was last driven to the level that shows the stored state
    of its led: LOW for 1 (on), HIGH otherwise. *)
Definition pinsAgree (st : State) : Prop :=
  forall i, (i < 8)%nat ->
    pinLevel (ledPin !!! i) (events st) =
    Some (if (ledState st !!! i) =? 1 then LOW else HIGH).

(** What the led operations may change besides the led state: the trace. *)
Definition touchesLeds (st st' : State) : Prop :=
  config st' = config st /\
  useAlternateKeyMap st' = useAlternateKeyMap st /\
  readBuffer st' = readBuffer st /\
  readBufferPtr st' = readBufferPtr st /\
  eeprom st' = eeprom st /\
  (String.length (strtokSave st') <= String.length (strtokSave st))%nat.

(** The text [sprintf] writes for one line of [handleShowSettings], before
    it is read back as a C string. *)
Definition settingsFormat (i : nat) (st : State) : string :=
  let cfg := config st in
  let ledcfg := if useAlternateKeyMap st then ledConfig2 cfg !!! i else ledConfig1 cfg !!! i in
  let key := if useAlternateKeyMap st then keyMap2 cfg !!! i else keyMap1 cfg !!! i in
  "key " +:+ decimal (Z.of_nat i + 1) +:+
  ", led: " +:+ (if (ledState st !!! i) =? 0 then "off" else "on") +:+
  ", ledconfig: " +:+ String ledcfg EmptyString +:+
  ", keycode: " +:+ decimal (uint8_of_char key).

(** Running a line on a state, whatever its input buffer holds: the body of
    [executeSerialCommands] with the line given. *)
Definition runLine (line : string) (st : State) : State :=
  let '(word, st) := strtok_NULL (set_strtokSave line st) in
  commandLoop (String.length line) word st.

(** [followedBy more rest rest']: [rest'] is [rest] with the text [more]
    after it, separated by a space (or [more] alone when [rest] is used
    up). *)
Definition followedBy (more rest rest' : string) : Prop :=
  rest' = rest +:+ " " +:+ more \/ (rest = EmptyString /\ rest' = more).

(** The EEPROM as [handlePersist] leaves it. *)
Definition persistedRom (st : State) : nat -> ascii :=
  EEPROM_put sizeof_int (configBytes (config st))
             (EEPROM_put 0 (intBytes VERSION_TAG) (eeprom st)).

(** The four settings [handleConfigToggle] accepts. *)
Definition ledSettings : list string := ["t"; "e"; "d"; "f"]%string.

(** [runsToEnd line st st']: the commands of [line], run on [st], all
    return 0, no word of the line is unknown, and the loop leaves [st']. *)
Definition runsToEnd (line : string) (st st' : State) : Prop :=
  loopReaches (fst (strtok_NULL (set_strtokSave line st)))
              (snd (strtok_NULL (set_strtokSave line st))) None st'.

(** * Properties *)

(** ** Reading a field after an update *)

Lemma config_set_config c (st : State) : config (set_config c st) = c.
Proof. reflexivity. Qed.
Lemma useAlternateKeyMap_set_config c (st : State) : useAlternateKeyMap (set_config c st) = useAlternateKeyMap st.
Proof. reflexivity. Qed.
Lemma ledState_set_config c (st : State) : ledState (set_config c st) = ledState st.
Proof. reflexivity. Qed.
Lemma readBuffer_set_config c (st : State) : readBuffer (set_config c st) = readBuffer st.
Proof. reflexivity. Qed.
Lemma readBufferPtr_set_config c (st : State) : readBufferPtr (set_config c st) = readBufferPtr st.
Proof. reflexivity. Qed.
Lemma strtokSave_set_config c (st : State) : strtokSave (set_config c st) = strtokSave st.
Proof. reflexivity. Qed.
Lemma eeprom_set_config c (st : State) : eeprom (set_config c st) = eeprom st.
Proof. reflexivity. Qed.
Lemma events_set_config c (st : State) : events (set_config c st) = events st.
Proof. reflexivity. Qed.
Lemma config_set_useAlternateKeyMap b (st : State) : config (set_useAlternateKeyMap b st) = config st.
Proof. reflexivity. Qed.
Lemma useAlternateKeyMap_set_useAlternateKeyMap b (st : State) : useAlternateKeyMap (set_useAlternateKeyMap b st) = b.
Proof. reflexivity. Qed.
Lemma ledState_set_useAlternateKeyMap b (st : State) : ledState (set_useAlternateKeyMap b st) = ledState st.
Proof. reflexivity. Qed.
Lemma readBuffer_set_useAlternateKeyMap b (st : State) : readBuffer (set_useAlternateKeyMap b st) = readBuffer st.
Proof. reflexivity. Qed.
Lemma readBufferPtr_set_useAlternateKeyMap b (st : State) : readBufferPtr (set_useAlternateKeyMap b st) = readBufferPtr st.
Proof. reflexivity. Qed.
Lemma strtokSave_set_useAlternateKeyMap b (st : State) : strtokSave (set_useAlternateKeyMap b st) = strtokSave st.
Proof. reflexivity. Qed.
Lemma eeprom_set_useAlternateKeyMap b (st : State) : eeprom (set_useAlternateKeyMap b st) = eeprom st.
Proof. reflexivity. Qed.
Lemma events_set_useAlternateKeyMap b (st : State) : events (set_useAlternateKeyMap b st) = events st.
Proof. reflexivity. Qed.
Lemma config_set_ledState l (st : State) : config (set_ledState l st) = config st.
Proof. reflexivity. Qed.
Lemma useAlternateKeyMap_set_ledState l (st : State) : useAlternateKeyMap (set_ledState l st) = useAlternateKeyMap st.
Proof. reflexivity. Qed.
Lemma ledState_set_ledState l (st : State) : ledState (set_ledState l st) = l.
Proof. reflexivity. Qed.
Lemma readBuffer_set_ledState l (st : State) : readBuffer (set_ledState l st) = readBuffer st.
Proof. reflexivity. Qed.
Lemma readBufferPtr_set_ledState l (st : State) : readBufferPtr (set_ledState l st) = readBufferPtr st.
Proof. reflexivity. Qed.
Lemma strtokSave_set_ledState l (st : State) : strtokSave (set_ledState l st) = strtokSave st.
Proof. reflexivity. Qed.
Lemma eeprom_set_ledState l (st : State) : eeprom (set_ledState l st) = eeprom st.
Proof. reflexivity. Qed.
Lemma events_set_ledState l (st : State) : events (set_ledState l st) = events st.
Proof. reflexivity. Qed.
Lemma config_set_readBuffer b (st : State) : config (set_readBuffer b st) = config st.
Proof. reflexivity. Qed.
Lemma useAlternateKeyMap_set_readBuffer b (st : State) : useAlternateKeyMap (set_readBuffer b st) = useAlternateKeyMap st.
Proof. reflexivity. Qed.
Lemma ledState_set_readBuffer b (st : State) : ledState (set_readBuffer b st) = ledState st.
Proof. reflexivity. Qed.
Lemma readBuffer_set_readBuffer b (st : State) : readBuffer (set_readBuffer b st) = b.
Proof. reflexivity. Qed.
Lemma readBufferPtr_set_readBuffer b (st : State) : readBufferPtr (set_readBuffer b st) = readBufferPtr st.
Proof. reflexivity. Qed.
Lemma strtokSave_set_readBuffer b (st : State) : strtokSave (set_readBuffer b st) = strtokSave st.
Proof. reflexivity. Qed.
Lemma eeprom_set_readBuffer b (st : State) : eeprom (set_readBuffer b st) = eeprom st.
Proof. reflexivity. Qed.
Lemma events_set_readBuffer b (st : State) : events (set_readBuffer b st) = events st.
Proof. reflexivity. Qed.
Lemma config_set_readBufferPtr p (st : State) : config (set_readBufferPtr p st) = config st.
Proof. reflexivity. Qed.
Lemma useAlternateKeyMap_set_readBufferPtr p (st : State) : useAlternateKeyMap (set_readBufferPtr p st) = useAlternateKeyMap st.
Proof. reflexivity. Qed.
Lemma ledState_set_readBufferPtr p (st : State) : ledState (set_readBufferPtr p st) = ledState st.
Proof. reflexivity. Qed.
Lemma readBuffer_set_readBufferPtr p (st : State) : readBuffer (set_readBufferPtr p st) = readBuffer st.
Proof. reflexivity. Qed.
Lemma readBufferPtr_set_readBufferPtr p (st : State) : readBufferPtr (set_readBufferPtr p st) = p.
Proof. reflexivity. Qed.
Lemma strtokSave_set_readBufferPtr p (st : State) : strtokSave (set_readBufferPtr p st) = strtokSave st.
Proof. reflexivity. Qed.
Lemma eeprom_set_readBufferPtr p (st : State) : eeprom (set_readBufferPtr p st) = eeprom st.
Proof. reflexivity. Qed.
Lemma events_set_readBufferPtr p (st : State) : events (set_readBufferPtr p st) = events st.
Proof. reflexivity. Qed.
Lemma config_set_strtokSave s (st : State) : config (set_strtokSave s st) = config st.
Proof. reflexivity. Qed.
Lemma useAlternateKeyMap_set_strtokSave s (st : State) : useAlternateKeyMap (set_strtokSave s st) = useAlternateKeyMap st.
Proof. reflexivity. Qed.
Lemma ledState_set_strtokSave s (st : State) : ledState (set_strtokSave s st) = ledState st.
Proof. reflexivity. Qed.
Lemma readBuffer_set_strtokSave s (st : State) : readBuffer (set_strtokSave s st) = readBuffer st.
Proof. reflexivity. Qed.
Lemma readBufferPtr_set_strtokSave s (st : State) : readBufferPtr (set_strtokSave s st) = readBufferPtr st.
Proof. reflexivity. Qed.
Lemma strtokSave_set_strtokSave s (st : State) : strtokSave (set_strtokSave s st) = s.
Proof. reflexivity. Qed.
Lemma eeprom_set_strtokSave s (st : State) : eeprom (set_strtokSave s st) = eeprom st.
Proof. reflexivity. Qed.
Lemma events_set_strtokSave s (st : State) : events (set_strtokSave s st) = events st.
Proof. reflexivity. Qed.
Lemma config_set_eeprom m (st : State) : config (set_eeprom m st) = config st.
Proof. reflexivity. Qed.
Lemma useAlternateKeyMap_set_eeprom m (st : State) : useAlternateKeyMap (set_eeprom m st) = useAlternateKeyMap st.
Proof. reflexivity. Qed.
Lemma ledState_set_eeprom m (st : State) : ledState (set_eeprom m st) = ledState st.
Proof. reflexivity. Qed.
Lemma readBuffer_set_eeprom m (st : State) : readBuffer (set_eeprom m st) = readBuffer st.
Proof. reflexivity. Qed.
Lemma readBufferPtr_set_eeprom m (st : State) : readBufferPtr (set_eeprom m st) = readBufferPtr st.
Proof. reflexivity. Qed.
Lemma strtokSave_set_eeprom m (st : State) : strtokSave (set_eeprom m st) = strtokSave st.
Proof. reflexivity. Qed.
Lemma eeprom_set_eeprom m (st : State) : eeprom (set_eeprom m st) = m.
Proof. reflexivity. Qed.
Lemma events_set_eeprom m (st : State) : events (set_eeprom m st) = events st.
Proof. reflexivity. Qed.
Lemma config_emit e (st : State) : config (emit e st) = config st.
Proof. reflexivity. Qed.
Lemma useAlternateKeyMap_emit e (st : State) : useAlternateKeyMap (emit e st) = useAlternateKeyMap st.
Proof. reflexivity. Qed.
Lemma ledState_emit e (st : State) : ledState (emit e st) = ledState st.
Proof. reflexivity. Qed.
Lemma readBuffer_emit e (st : State) : readBuffer (emit e st) = readBuffer st.
Proof. reflexivity. Qed.
Lemma readBufferPtr_emit e (st : State) : readBufferPtr (emit e st) = readBufferPtr st.
Proof. reflexivity. Qed.
Lemma strtokSave_emit e (st : State) : strtokSave (emit e st) = strtokSave st.
Proof. reflexivity. Qed.
Lemma eeprom_emit e (st : State) : eeprom (emit e st) = eeprom st.
Proof. reflexivity. Qed.
Lemma events_emit e (st : State) : events (emit e st) = e :: events st.
Proof. reflexivity. Qed.

Create Rewrite HintDb fields.
#[global] Hint Rewrite
  config_set_config useAlternateKeyMap_set_config ledState_set_config readBuffer_set_config
  readBufferPtr_set_config strtokSave_set_config eeprom_set_config events_set_config
  config_set_useAlternateKeyMap useAlternateKeyMap_set_useAlternateKeyMap ledState_set_useAlternateKeyMap readBuffer_set_useAlternateKeyMap
  readBufferPtr_set_useAlternateKeyMap strtokSave_set_useAlternateKeyMap eeprom_set_useAlternateKeyMap events_set_useAlternateKeyMap
  config_set_ledState useAlternateKeyMap_set_ledState ledState_set_ledState readBuffer_set_ledState
  readBufferPtr_set_ledState strtokSave_set_ledState eeprom_set_ledState events_set_ledState
  config_set_readBuffer useAlternateKeyMap_set_readBuffer ledState_set_readBuffer readBuffer_set_readBuffer
  readBufferPtr_set_readBuffer strtokSave_set_readBuffer eeprom_set_readBuffer events_set_readBuffer
  config_set_readBufferPtr useAlternateKeyMap_set_readBufferPtr ledState_set_readBufferPtr readBuffer_set_readBufferPtr
  readBufferPtr_set_readBufferPtr strtokSave_set_readBufferPtr eeprom_set_readBufferPtr events_set_readBufferPtr
  config_set_strtokSave useAlternateKeyMap_set_strtokSave ledState_set_strtokSave readBuffer_set_strtokSave
  readBufferPtr_set_strtokSave strtokSave_set_strtokSave eeprom_set_strtokSave events_set_strtokSave
  config_set_eeprom useAlternateKeyMap_set_eeprom ledState_set_eeprom readBuffer_set_eeprom
  readBufferPtr_set_eeprom strtokSave_set_eeprom eeprom_set_eeprom events_set_eeprom
  config_emit useAlternateKeyMap_emit ledState_emit readBuffer_emit
  readBufferPtr_emit strtokSave_emit eeprom_emit events_emit : fields.

Lemma config_clearReadBuffer (st : State) : config (clearReadBuffer st) = config st.
Proof. reflexivity. Qed.
Lemma ledState_clearReadBuffer (st : State) : ledState (clearReadBuffer st) = ledState st.
Proof. reflexivity. Qed.
Lemma useAlternateKeyMap_clearReadBuffer (st : State) :
  useAlternateKeyMap (clearReadBuffer st) = useAlternateKeyMap st.
Proof. reflexivity. Qed.
Lemma eeprom_clearReadBuffer (st : State) : eeprom (clearReadBuffer st) = eeprom st.
Proof. reflexivity. Qed.
Lemma events_clearReadBuffer (st : State) : events (clearReadBuffer st) = events st.
Proof. reflexivity. Qed.
#[global] Hint Rewrite config_clearReadBuffer ledState_clearReadBuffer
  useAlternateKeyMap_clearReadBuffer eeprom_clearReadBuffer events_clearReadBuffer : fields.

(** ** Led controller *)

Lemma setLed_in_range (nr onOff : Z) (st : State) :
  0 <= nr < KEYCOUNT -> 0 <= onOff <= 1 ->
  setLed nr onOff st =
  emit (DigitalWrite (ledPin !!! Z.to_nat nr) (if onOff =? 1 then LOW else HIGH))
       (set_ledState (<[Z.to_nat nr := onOff]> (ledState st)) st).
Proof.
  intros Hnr Hv. unfold setLed.
  replace (nr <? 0) with false by lia.
  replace (nr >=? KEYCOUNT) with false by lia.
  replace (onOff <? 0) with false by lia.
  replace (onOff >? 1) with false by lia.
  reflexivity.
Qed.

Lemma setLed_out_of_range (nr onOff : Z) (st : State) :
  nr < 0 \/ KEYCOUNT <= nr \/ onOff < 0 \/ 1 < onOff -> setLed nr onOff st = st.
Proof.
  intros H. unfold setLed.
  destruct (nr <? 0) eqn:E1; [reflexivity|].
  destruct (nr >=? KEYCOUNT) eqn:E2; [reflexivity|].
  destruct (onOff <? 0) eqn:E3; [reflexivity|].
  destruct (onOff >? 1) eqn:E4; [reflexivity|].
  lia.
Qed.

Lemma setLed_cases (nr onOff : Z) (st : State) :
  setLed nr onOff st = st \/
  (0 <= nr < KEYCOUNT /\ 0 <= onOff <= 1 /\
   setLed nr onOff st =
   emit (DigitalWrite (ledPin !!! Z.to_nat nr) (if onOff =? 1 then LOW else HIGH))
        (set_ledState (<[Z.to_nat nr := onOff]> (ledState st)) st)).
Proof.
  destruct (decide (0 <= nr < KEYCOUNT /\ 0 <= onOff <= 1)) as [[H1 H2]|H].
  - right. split; [exact H1|]. split; [exact H2|]. by apply setLed_in_range.
  - left. apply setLed_out_of_range. lia.
Qed.

Lemma setLed_ledOk (nr onOff : Z) (st : State) : ledOk st -> ledOk (setLed nr onOff st).
Proof.
  intros [Hlen Hall].
  destruct (setLed_cases nr onOff st) as [-> | (Hnr & Hv & ->)]; [by split|].
  split; cbn.
  - by rewrite length_insert.
  - apply Forall_insert; [exact Hall | lia].
Qed.

Lemma toggleLed_ledOk (nr : Z) (st : State) : ledOk st -> ledOk (toggleLed nr st).
Proof.
  intros H. unfold toggleLed.
  destruct ((nr <? 0) || (nr >=? KEYCOUNT)); [exact H|].
  destruct (_ =? 0); by apply setLed_ledOk.
Qed.

Lemma emit_ledOk (e : Event) (st : State) : ledOk st -> ledOk (emit e st).
Proof. intros H. exact H. Qed.

Lemma executeLedConfig_ledOk (nr : Z) (st : State) :
  ledOk st -> ledOk (executeLedConfig nr st).
Proof.
  intros H. unfold executeLedConfig.
  destruct ((nr <? 0) || (nr >=? KEYCOUNT)); [exact H|].
  cbv zeta.
  repeat match goal with
         | |- context [if ?b then _ else _] => destruct b
         end;
    repeat first [apply setLed_ledOk | apply toggleLed_ledOk | apply emit_ledOk | exact H].
Qed.

Lemma fold_left_preserves {A B : Type} (P : A -> Prop) (f : A -> B -> A) (l : list B) :
  (forall a b, P a -> P (f a b)) -> forall a, P a -> P (fold_left f l a).
Proof.
  intros Hf. induction l as [|b l IH]; intros a Ha; cbn; [exact Ha|].
  apply IH, Hf, Ha.
Qed.

Lemma animationFrame_ledOk (st : State) (i : nat) : ledOk st -> ledOk (animationFrame st i).
Proof.
  intros H. unfold animationFrame. cbv zeta.
  destruct (0 <? i)%nat;
    repeat first [apply setLed_ledOk | apply emit_ledOk | exact H].
Qed.

Lemma startupLedAnimation_ledOk (st : State) : ledOk st -> ledOk (startupLedAnimation st).
Proof.
  intros H. unfold startupLedAnimation. cbv zeta.
  apply fold_left_preserves; [intros; by apply setLed_ledOk|].
  do 2 apply setLed_ledOk.
  apply fold_left_preserves; [intros; by apply animationFrame_ledOk | exact H].
Qed.

(** ** Tokens *)

Lemma skipDelims_length (s : string) :
  (String.length (skipDelims s) <= String.length s)%nat.
Proof.
  induction s as [|c s IH]; cbn; [lia|].
  destruct (Ascii.eqb c SPACE); cbn; lia.
Qed.

Lemma cutToken_length (c : ascii) (s : string) :
  (String.length (snd (cutToken (String c s))) <= String.length s)%nat.
Proof.
  revert c. induction s as [|d s IH]; intros c; cbn.
  - destruct (Ascii.eqb c SPACE); cbn; lia.
  - destruct (Ascii.eqb c SPACE); [cbn; lia|].
    specialize (IH d). cbn in IH.
    destruct (Ascii.eqb d SPACE); [cbn; lia|].
    destruct (cutToken s) as [tok rest]. cbn in *. lia.
Qed.

Lemma nextToken_length (s tok rest : string) :
  nextToken s = Some (tok, rest) -> (String.length rest < String.length s)%nat.
Proof.
  unfold nextToken. pose proof (skipDelims_length s) as Hs.
  destruct (skipDelims s) as [|c s'] eqn:E; [discriminate|].
  intros H. injection H as H. change (cutToken (String c s') = (tok, rest)) in H.
  pose proof (cutToken_length c s') as Hc.
  rewrite H in Hc. cbn in *. lia.
Qed.

Lemma consumes_refl (st : State) : consumes st st.
Proof. unfold consumes. repeat split; lia. Qed.

Lemma consumes_trans (st1 st2 st3 : State) :
  consumes st1 st2 -> consumes st2 st3 -> consumes st1 st3.
Proof.
  unfold consumes. intros (?&?&?&?&?&?&?) (?&?&?&?&?&?&?).
  repeat split; try congruence. lia.
Qed.

Lemma consumes_emit (e : Event) (st : State) : consumes st (emit e st).
Proof. unfold consumes. cbn. repeat split; lia. Qed.

Lemma strtok_NULL_consumes (st : State) :
  consumes st (snd (strtok_NULL st)) /\
  (is_Some (fst (strtok_NULL st)) ->
   (String.length (strtokSave (snd (strtok_NULL st))) < String.length (strtokSave st))%nat).
Proof.
  unfold strtok_NULL.
  destruct (nextToken (strtokSave st)) as [[tok rest]|] eqn:E; cbn.
  - apply nextToken_length in E. unfold consumes; cbn. repeat split; lia.
  - split; [unfold consumes; cbn; repeat split; lia|]. intros [? [=]].
Qed.

Lemma parseNumber_consumes (lo hi : Z) (st : State) :
  consumes st (snd (parseNumber lo hi st)).
Proof.
  unfold parseNumber.
  pose proof (proj1 (strtok_NULL_consumes st)) as H.
  destruct (strtok_NULL st) as [[w|] st1]; cbn in *.
  - destruct ((atoi w <? lo) || (atoi w >? hi)); cbn; [|exact H].
    eapply consumes_trans; [exact H|].
    unfold Serial_print, Serial_println.
    repeat (eapply consumes_trans; [|apply consumes_emit]). apply consumes_refl.
  - eapply consumes_trans; [exact H|]. apply consumes_emit.
Qed.

Lemma parseNumber_range (lo hi : Z) (st : State) :
  fst (parseNumber lo hi st) = -1 \/ lo <= fst (parseNumber lo hi st) <= hi.
Proof.
  unfold parseNumber.
  destruct (strtok_NULL st) as [[w|] st1]; cbn; [|by left].
  destruct ((atoi w <? lo) || (atoi w >? hi)) eqn:E; cbn; [by left|right; lia].
Qed.

(** ** Properties kept by every command

    A property of the state that survives the primitive steps of the sketch
    survives every handler, every command line and every pass of the main
    loop. *)

Lemma findHandler_elem (w : string) (table : list HandlerEntry) (e : HandlerEntry) :
  findHandler w table = Some e -> e ∈ table.
Proof.
  induction table as [|e' t IH]; [discriminate|].
  cbn [findHandler]. destruct (_ || _).
  - intros [= ->]. left.
  - intros H. right. by apply IH.
Qed.

Ltac handler_cases H :=
  unfold handlers in H;
  repeat (apply elem_of_cons in H as [-> | H]);
  [.. | by apply elem_of_nil in H];
  cbn [handler].

Section Preserved.
Variable P : State -> Prop.
Hypothesis P_consumes : forall st st', consumes st st' -> P st -> P st'.
Hypothesis P_setLed : forall nr onOff st, P st -> P (setLed nr onOff st).
Hypothesis P_config : forall c st, P st -> P (set_config c st).
Hypothesis P_map : forall b st, P st -> P (set_useAlternateKeyMap b st).
Hypothesis P_eeprom : forall m st, P st -> P (set_eeprom m st).
Hypothesis P_line : forall s st, P st -> P (set_strtokSave s st).
Hypothesis P_buffer : forall b st, P st -> P (set_readBuffer b st).
Hypothesis P_bufferPtr : forall p st, P st -> P (set_readBufferPtr p st).

Lemma P_emit (e : Event) (st : State) : P st -> P (emit e st).
Proof. apply P_consumes, consumes_emit. Qed.

Lemma P_toggleLed (nr : Z) (st : State) : P st -> P (toggleLed nr st).
Proof.
  intros H. unfold toggleLed.
  destruct ((nr <? 0) || (nr >=? KEYCOUNT)); [exact H|].
  destruct (_ =? 0); by apply P_setLed.
Qed.

Lemma P_executeLedConfig (nr : Z) (st : State) : P st -> P (executeLedConfig nr st).
Proof.
  intros H. unfold executeLedConfig, delay.
  destruct ((nr <? 0) || (nr >=? KEYCOUNT)); [exact H|].
  cbv zeta.
  repeat match goal with
         | |- context [if ?b then _ else _] => destruct b
         end;
    repeat first [apply P_setLed | apply P_toggleLed | apply P_emit | exact H].
Qed.

Lemma P_startupLedAnimation (st : State) : P st -> P (startupLedAnimation st).
Proof.
  intros H. unfold startupLedAnimation. cbv zeta.
  apply fold_left_preserves; [intros; by apply P_setLed|].
  do 2 apply P_setLed.
  apply fold_left_preserves; [|exact H].
  intros a i Ha. unfold animationFrame, delay. cbv zeta.
  destruct (0 <? i)%nat; repeat first [apply P_setLed | apply P_emit | exact Ha].
Qed.

Lemma P_parseNumber (lo hi : Z) (st : State) : P st -> P (snd (parseNumber lo hi st)).
Proof. apply P_consumes, parseNumber_consumes. Qed.

Lemma P_strtok_NULL (st : State) : P st -> P (snd (strtok_NULL st)).
Proof. apply P_consumes, strtok_NULL_consumes. Qed.

Lemma P_storeKey (i : nat) (c : ascii) (st : State) : P st -> P (storeKey i c st).
Proof. intros H. unfold storeKey. destruct (useAlternateKeyMap st); by apply P_config. Qed.

Lemma P_storeLedConfig (i : nat) (c : ascii) (st : State) :
  P st -> P (storeLedConfig i c st).
Proof.
  intros H. unfold storeLedConfig. destruct (useAlternateKeyMap st); by apply P_config.
Qed.

Ltac split_reads :=
  repeat match goal with
         | |- context [parseNumber ?lo ?hi ?s] =>
             let H := fresh "HP" in
             assert (H : P (snd (parseNumber lo hi s))) by (apply P_parseNumber; assumption);
             destruct (parseNumber lo hi s) as [? ?]; cbn [snd] in H
         | |- context [strtok_NULL ?s] =>
             let H := fresh "HP" in
             assert (H : P (snd (strtok_NULL s))) by (apply P_strtok_NULL; assumption);
             destruct (strtok_NULL s) as [? ?]; cbn [snd] in H
         | |- context [if ?b then _ else _] => destruct b
         | |- context [match ?o with Some _ => _ | None => _ end] => destruct o
         end.

Ltac close_P :=
  cbn [snd];
  unfold println_P, Serial_println, Serial_print, delay;
  repeat first
    [ assumption
    | apply P_startupLedAnimation | apply P_toggleLed
    | apply P_storeKey | apply P_storeLedConfig
    | apply P_setLed | apply P_emit
    | apply P_config | apply P_map | apply P_eeprom ].

Lemma handler_preserves (e : HandlerEntry) (st : State) :
  e ∈ handlers -> P st -> P (snd (handler e st)).
Proof.
  intros Hin H. handler_cases Hin.
  - unfold handleHelp. cbn [snd]. unfold println_P, Serial_println.
    apply P_emit. apply fold_left_preserves; [intros; by apply P_emit|]. by apply P_emit.
  - unfold handleVersion. close_P.
  - unfold handleGetLed. split_reads; close_P.
  - unfold handleToggle. split_reads; close_P.
  - unfold handleOn. split_reads; close_P.
  - unfold handleOff. split_reads; close_P.
  - unfold handleFlash. split_reads; close_P.
  - unfold handleAnimation. close_P.
  - unfold handleActivateKeyMap. split_reads; close_P.
  - unfold handleConfigToggle. split_reads; cbv zeta; split_reads; close_P.
  - unfold handleShowSettings. cbn [snd]. unfold Serial_println.
    apply fold_left_preserves; [intros; by apply P_emit|]. by apply P_emit.
  - unfold handleSetKeyCode. split_reads; close_P.
  - unfold handleSetKeyChar. split_reads; cbv zeta; split_reads; close_P.
  - unfold handlePersist. close_P.
  - unfold handleLoad. split_reads; close_P.
Qed.

Lemma commandLoop_preserves (fuel : nat) (word : option string) (st : State) :
  P st -> P (commandLoop fuel word st).
Proof.
  revert word st. induction fuel as [|fuel IH]; intros [w|] st H;
    cbn [commandLoop]; try exact H.
  destruct (findHandler w handlers) as [e|] eqn:Hfind; [|by apply P_emit].
  pose proof (findHandler_elem _ _ _ Hfind) as Hin.
  pose proof (handler_preserves e st Hin H) as H1.
  destruct (handler e st) as [r st1]. cbn [snd] in H1.
  destruct (r =? 0); [|exact H1].
  pose proof (P_strtok_NULL st1 H1) as H2.
  destruct (strtok_NULL st1) as [w' st2]. by apply IH.
Qed.

Lemma executeSerialCommands_preserves (st : State) :
  P st -> P (executeSerialCommands st).
Proof.
  intros H. unfold executeSerialCommands, strtok_readBuffer.
  pose proof (P_strtok_NULL _ (P_line (cstr (readBuffer st)) st H)) as H1.
  destruct (strtok_NULL _) as [w st1]. by apply commandLoop_preserves.
Qed.

Lemma receiveChar_preserves (ser : ascii) (st st' : State) :
  P st -> receiveChar ser st = Some st' -> P st'.
Proof.
  intros H. unfold receiveChar.
  match goal with
  | |- context [mbind _ ?m] => destruct m as [st1|] eqn:E1; cbn; [|discriminate]
  end.
  assert (H1 : P st1).
  { match type of E1 with
    | (if ?c then _ else _) = _ => destruct c; [|by injection E1 as <-]
    end.
    unfold pokeReadBuffer in E1.
    destruct (readBufferPtr st <? sizeof_readBuffer)%nat; [|discriminate].
    cbn [mbind option_bind] in E1.
    match type of E1 with
    | (if ?c then _ else _) = _ => destruct c; [|discriminate]
    end.
    injection E1 as <-. by apply P_buffer, P_bufferPtr, P_buffer. }
  clear E1.
  match goal with
  | |- (if ?c then _ else _) = _ -> _ => destruct c; intros [= Hst']; subst st'
  end; [|exact H1].
  unfold clearReadBuffer. by apply P_bufferPtr, P_buffer, executeSerialCommands_preserves.
Qed.

Lemma handleSerialReceive_preserves (incoming : list ascii) (st st' : State) :
  P st -> handleSerialReceive incoming st = Some st' -> P st'.
Proof.
  revert st. induction incoming as [|ser incoming IH]; intros st H; cbn.
  - by intros [= <-].
  - destruct (receiveChar ser st) as [st1|] eqn:E; cbn; [|discriminate].
    apply IH. by eapply receiveChar_preserves.
Qed.

Lemma loop_preserves (incoming : list ascii) (key : Z) (st st' : State) :
  P st -> loop incoming key st = Some st' -> P st'.
Proof.
  intros H. unfold loop.
  destruct (handleSerialReceive incoming st) as [st1|] eqn:E; cbn; [|discriminate].
  apply (handleSerialReceive_preserves _ _ _ H) in E.
  intros [= <-]. unfold delay. apply P_emit.
  destruct (key =? 0); [exact E|]. by apply P_executeLedConfig, P_emit.
Qed.
End Preserved.

(** ** The command loop ends by itself *)

Lemma setLed_config (nr onOff : Z) (st : State) :
  config (setLed nr onOff st) = config st.
Proof. by destruct (setLed_cases nr onOff st) as [-> | (_ & _ & ->)]. Qed.

Lemma setLed_strtokSave (nr onOff : Z) (st : State) :
  strtokSave (setLed nr onOff st) = strtokSave st.
Proof. by destruct (setLed_cases nr onOff st) as [-> | (_ & _ & ->)]. Qed.

Lemma handler_line (e : HandlerEntry) (st : State) :
  e ∈ handlers ->
  (String.length (strtokSave (snd (handler e st))) <= String.length (strtokSave st))%nat.
Proof.
  intros Hin.
  apply (handler_preserves
           (fun s => (String.length (strtokSave s) <= String.length (strtokSave st))%nat));
    try done.
  - intros s s' (_&_&_&_&_&_&Hle) Hs. lia.
  - intros nr onOff s Hs. by rewrite setLed_strtokSave.
Qed.

(** Fuel beyond the length of the rest of the line is never used. *)
Lemma commandLoop_fuel (f1 f2 : nat) (word : option string) (st : State) :
  (String.length (strtokSave st) < f1)%nat ->
  (String.length (strtokSave st) < f2)%nat ->
  commandLoop f1 word st = commandLoop f2 word st.
Proof.
  revert f2 word st. induction f1 as [|f1 IH]; intros f2 word st H1 H2; [lia|].
  destruct f2 as [|f2]; [lia|]. destruct word as [w|]; [|reflexivity].
  cbn [commandLoop].
  destruct (findHandler w handlers) as [e|] eqn:Hfind; [|reflexivity].
  pose proof (handler_line e st (findHandler_elem _ _ _ Hfind)) as Hle.
  destruct (handler e st) as [r st1]. cbn [snd] in Hle.
  destruct (r =? 0); [|reflexivity].
  pose proof (strtok_NULL_consumes st1) as [(_&_&_&_&_&_&Hle2) Hlt].
  destruct (strtok_NULL st1) as [[w'|] st2]; cbn [fst snd] in *.
  - assert (String.length (strtokSave st2) < String.length (strtokSave st1))%nat
      by (apply Hlt; eauto).
    apply IH; lia.
  - by destruct f1, f2.
Qed.

Lemma executeSerialCommands_fuel (fuel : nat) (st : State) :
  (String.length (cstr (readBuffer st)) <= fuel)%nat ->
  executeSerialCommands st =
  commandLoop fuel (fst (strtok_readBuffer st)) (snd (strtok_readBuffer st)).
Proof.
  intros Hfuel. unfold executeSerialCommands, strtok_readBuffer.
  pose proof (strtok_NULL_consumes (set_strtokSave (cstr (readBuffer st)) st)) as [_ Hlt].
  destruct (strtok_NULL _) as [[w|] st1]; cbn [fst snd] in *.
  - assert (String.length (strtokSave st1) < String.length (cstr (readBuffer st)))%nat
      by (apply Hlt; eauto).
    apply commandLoop_fuel; lia.
  - by destruct (String.length _), fuel.
Qed.

(** ** The led state holds only 0 and 1 *)

Lemma consumes_ledOk (st st' : State) : consumes st st' -> ledOk st -> ledOk st'.
Proof. intros (_&_&Hled&_) [H1 H2]. unfold ledOk. by rewrite Hled. Qed.

Lemma powerOn_ledOk (rom : nat -> ascii) : ledOk (powerOn rom).
Proof. split; [reflexivity|]. cbn. repeat constructor. Qed.

Lemma setup_ledOk (st : State) : ledOk st -> ledOk (setup st).
Proof.
  intros H. unfold setup. cbv zeta.
  apply startupLedAnimation_ledOk, emit_ledOk.
  apply fold_left_preserves; [intros; by apply setLed_ledOk, emit_ledOk|].
  unfold clearReadBuffer.
  change (ledOk (snd (handleLoad (emit (SerialBegin 115200) st)))).
  apply (handler_preserves ledOk) with (e := mkEntry "l" "load" MSG_LOAD handleLoad);
    try done.
  - apply consumes_ledOk.
  - intros. by apply setLed_ledOk.
  - unfold handlers. do 14 right. left.
Qed.

(** C9.  [setLed], the only writer of [ledState], does nothing for an index
    outside 0..7 and nothing for an on/off value other than 0 or 1; so
    from a led state whose 8 entries are 0 or 1, each operation of the
    sketch (set, toggle, the configured key-press behavior, the animation,
    every handler of the table, a whole command line, serial input, a pass
    of the main loop, and [setup]) leads to one whose 8 entries are 0 or
    1 again. *)
Theorem C9_ledState_entries_are_0_or_1 (st : State) (Hok : ledOk st) :
  (forall nr onOff,
      nr < 0 \/ 7 < nr \/ onOff < 0 \/ 1 < onOff -> setLed nr onOff st = st) /\
  (forall nr onOff, ledOk (setLed nr onOff st)) /\
  (forall nr, ledOk (toggleLed nr st)) /\
  (forall nr, ledOk (executeLedConfig nr st)) /\
  ledOk (startupLedAnimation st) /\
  (forall e, e ∈ handlers -> ledOk (snd (handler e st))) /\
  ledOk (executeSerialCommands st) /\
  (forall incoming st', handleSerialReceive incoming st = Some st' -> ledOk st') /\
  (forall incoming key st', loop incoming key st = Some st' -> ledOk st') /\
  ledOk (setup st).
Proof.
  assert (Hc : forall s s', consumes s s' -> ledOk s -> ledOk s') by apply consumes_ledOk.
  assert (Hs : forall nr onOff s, ledOk s -> ledOk (setLed nr onOff s))
    by (intros; by apply setLed_ledOk).
  split; [intros nr onOff H; apply setLed_out_of_range; unfold KEYCOUNT, ROWS, COLS; lia|].
  split; [intros; by apply setLed_ledOk|].
  split; [intros; by apply toggleLed_ledOk|].
  split; [intros; by apply executeLedConfig_ledOk|].
  split; [by apply startupLedAnimation_ledOk|].
  split; [intros e He; by apply (handler_preserves ledOk)|].
  split; [by apply (executeSerialCommands_preserves ledOk)|].
  split; [intros incoming st' H;
          by apply (handleSerialReceive_preserves ledOk) with (incoming := incoming) (st := st)|].
  split; [intros incoming key st' H;
          by apply (loop_preserves ledOk) with (incoming := incoming) (key := key) (st := st)|].
  by apply setup_ledOk.
Qed.

Lemma C9_witness :
  ledOk (powerOn blankRom) /\ ledOk (setLed 3 1 (powerOn blankRom)).
Proof.
  split; [apply powerOn_ledOk|].
  apply (C9_ledState_entries_are_0_or_1 (powerOn blankRom) (powerOn_ledOk blankRom)).
Defined.

(** ** Toggling twice *)

(** C7.  For a key k in 1..8 and a led state whose entries are 0 or 1,
    toggling the led of key k twice gives back the led state, entry for
    entry; nothing else but the trace changes. *)
Theorem C7_toggle_twice (st : State) (k : Z) :
  ledOk st -> 1 <= k <= 8 ->
  let st' := toggleLed (k - 1) (toggleLed (k - 1) st) in
  ledState st' = ledState st /\
  config st' = config st /\
  useAlternateKeyMap st' = useAlternateKeyMap st /\
  eeprom st' = eeprom st.
Proof.
  intros [Hlen Hall] Hk. cbv zeta.
  assert (Hn : (Z.to_nat (k - 1) < length (ledState st))%nat)
    by (rewrite Hlen; unfold KEYCOUNT, ROWS, COLS; lia).
  destruct (lookup_lt_is_Some_2 _ _ Hn) as [b Hb].
  assert (Hb01 : b = 0 \/ b = 1).
  { exact (Forall_lookup_1 _ _ _ _ Hall Hb). }
  unfold toggleLed.
  replace ((k - 1 <? 0) || (k - 1 >=? KEYCOUNT)) with false
    by (unfold KEYCOUNT, ROWS, COLS; lia).
  rewrite (list_lookup_total_correct _ _ _ Hb).
  assert (Hr : 0 <= k - 1 < KEYCOUNT) by (unfold KEYCOUNT, ROWS, COLS; lia).
  destruct Hb01 as [-> | ->]; cbn [Z.eqb].
  - rewrite (setLed_in_range (k - 1) 1 st) by (done || lia). cbn [ledState emit set_ledState].
    rewrite list_lookup_total_insert_eq by exact Hn. cbn [Z.eqb].
    rewrite setLed_in_range by (done || lia). cbn.
    rewrite list_insert_insert_eq. by rewrite list_insert_id.
  - rewrite (setLed_in_range (k - 1) 0 st) by (done || lia). cbn [ledState emit set_ledState].
    rewrite list_lookup_total_insert_eq by exact Hn. cbn [Z.eqb].
    rewrite setLed_in_range by (done || lia). cbn.
    rewrite list_insert_insert_eq. by rewrite list_insert_id.
Qed.

Lemma C7_witness :
  ledState (toggleLed (3 - 1) (toggleLed (3 - 1) (powerOn blankRom))) =
  ledState (powerOn blankRom).
Proof.
  apply (C7_toggle_twice (powerOn blankRom) 3); [apply powerOn_ledOk | lia].
Defined.

(** ** Startup animation *)

Lemma ledOk_inv (st : State) :
  ledOk st ->
  exists a0 a1 a2 a3 a4 a5 a6 a7,
    ledState st = [a0; a1; a2; a3; a4; a5; a6; a7] /\
    (0 <= a0 <= 1) /\ (0 <= a1 <= 1) /\ (0 <= a2 <= 1) /\ (0 <= a3 <= 1) /\
    (0 <= a4 <= 1) /\ (0 <= a5 <= 1) /\ (0 <= a6 <= 1) /\ (0 <= a7 <= 1).
Proof.
  intros [Hlen Hall]. change (Z.to_nat KEYCOUNT) with 8%nat in Hlen.
  destruct (ledState st) as [|a0 [|a1 [|a2 [|a3 [|a4 [|a5 [|a6 [|a7 [|? ?]]]]]]]]];
    try discriminate.
  exists a0, a1, a2, a3, a4, a5, a6, a7. split; [reflexivity|].
  repeat (apply Forall_cons_1 in Hall as [? Hall]).
  repeat split; lia.
Qed.

(** The frame loop and the turning off of the last pair: the trace is the
    frames played in order, and every led is left off. *)
Lemma animation_frames (st : State) :
  length (ledState st) = 8%nat ->
  let st1 := fold_left animationFrame (seq 0 (length ledAnimation)) st in
  let st2 := setLed (fst (ledAnimation !!! (length ledAnimation - 1)%nat) - 1) 0 st1 in
  let st3 := setLed (snd (ledAnimation !!! (length ledAnimation - 1)%nat) - 1) 0 st2 in
  st3 = mkState (config st) (useAlternateKeyMap st) [0; 0; 0; 0; 0; 0; 0; 0]
                (readBuffer st) (readBufferPtr st) (strtokSave st) (eeprom st)
                (rev (playFrames None referenceFrames) ++ events st).
Proof.
  intros Hlen.
  destruct st as [cfg alt leds buf ptr tok rom evs]. cbn in Hlen.
  destruct leds as [|a0 [|a1 [|a2 [|a3 [|a4 [|a5 [|a6 [|a7 [|? ?]]]]]]]]];
    try discriminate.
  reflexivity.
Qed.

(** C6.  From a led state whose 8 entries are 0 or 1, the startup animation
    plays the 9 frames of the reference sequence in order (each frame: its
    pair on, the previous pair off except on the first frame, a 250 ms
    hold), turns the last pair off, and then drives each of the 8 leds back
    to its state at entry; the led state it returns is the one it was
    started in, and nothing but the trace has changed. *)
Theorem C6_startup_animation (st : State) :
  ledOk st ->
  let st' := startupLedAnimation st in
  history st' = history st ++ playFrames None referenceFrames ++ restoreLeds (ledState st) /\
  length referenceFrames = 9%nat /\
  countHolds (playFrames None referenceFrames ++ restoreLeds (ledState st)) = 9%nat /\
  ledState st' = ledState st /\
  st' = mkState (config st) (useAlternateKeyMap st) (ledState st) (readBuffer st)
                (readBufferPtr st) (strtokSave st) (eeprom st) (events st').
Proof.
  intros Hok. destruct (ledOk_inv st Hok) as (a0&a1&a2&a3&a4&a5&a6&a7&Hled&Hrange).
  destruct Hrange as (?&?&?&?&?&?&?&?).
  cbv zeta. unfold startupLedAnimation. cbv zeta.
  rewrite animation_frames by (by rewrite Hled).
  rewrite Hled.
  change (take (Z.to_nat KEYCOUNT) [a0; a1; a2; a3; a4; a5; a6; a7])
    with [a0; a1; a2; a3; a4; a5; a6; a7].
  change (seq 0 (Z.to_nat KEYCOUNT)) with [0; 1; 2; 3; 4; 5; 6; 7]%nat.
  cbn [fold_left].
  change ([a0; a1; a2; a3; a4; a5; a6; a7] !!! 0%nat) with a0.
  change ([a0; a1; a2; a3; a4; a5; a6; a7] !!! 1%nat) with a1.
  change ([a0; a1; a2; a3; a4; a5; a6; a7] !!! 2%nat) with a2.
  change ([a0; a1; a2; a3; a4; a5; a6; a7] !!! 3%nat) with a3.
  change ([a0; a1; a2; a3; a4; a5; a6; a7] !!! 4%nat) with a4.
  change ([a0; a1; a2; a3; a4; a5; a6; a7] !!! 5%nat) with a5.
  change ([a0; a1; a2; a3; a4; a5; a6; a7] !!! 6%nat) with a6.
  change ([a0; a1; a2; a3; a4; a5; a6; a7] !!! 7%nat) with a7.
  rewrite !setLed_in_range by (done || (unfold KEYCOUNT, ROWS, COLS; lia)).
  unfold history. cbn [events emit set_ledState ledState config useAlternateKeyMap
                       readBuffer readBufferPtr strtokSave eeprom].
  split; [|split; [reflexivity|split; [reflexivity|split; reflexivity]]].
  change (rev ((rev (restoreLeds [a0; a1; a2; a3; a4; a5; a6; a7]) ++
                rev (playFrames None referenceFrames)) ++ events st) =
          rev (events st) ++ playFrames None referenceFrames ++
          restoreLeds [a0; a1; a2; a3; a4; a5; a6; a7]).
  rewrite !rev_app_distr, !rev_involutive. by rewrite app_assoc.
Qed.

Lemma C6_witness :
  ledState (startupLedAnimation (setLed 2 1 (powerOn blankRom))) =
  ledState (setLed 2 1 (powerOn blankRom)).
Proof.
  apply (C6_startup_animation (setLed 2 1 (powerOn blankRom))).
  apply setLed_ledOk, powerOn_ledOk.
Defined.

(** ** Persistence *)

Lemma EEPROM_put_outside (bytes : list ascii) (addr a : nat) (mem : nat -> ascii) :
  (a < addr \/ addr + length bytes <= a)%nat -> EEPROM_put addr bytes mem a = mem a.
Proof.
  revert addr mem. induction bytes as [|b bytes IH]; intros addr mem Ha; cbn; [reflexivity|].
  rewrite IH by (cbn in Ha; lia).
  apply fn_lookup_insert_ne. cbn in Ha. lia.
Qed.

Lemma EEPROM_put_inside (bytes : list ascii) (addr i : nat) (b : ascii) (mem : nat -> ascii) :
  bytes !! i = Some b -> EEPROM_put addr bytes mem (addr + i)%nat = b.
Proof.
  revert addr i mem. induction bytes as [|b' bytes IH]; intros addr i mem Hi; [done|].
  destruct i as [|i]; cbn in *.
  - injection Hi as ->. rewrite EEPROM_put_outside by lia.
    replace (addr + 0)%nat with addr by lia. apply fn_lookup_insert.
  - replace (addr + S i)%nat with (S addr + i)%nat by lia. by apply IH.
Qed.

(** Reading back an object just written gives its byte image. *)
Lemma EEPROM_get_put (bytes : list ascii) (addr : nat) (mem : nat -> ascii) :
  EEPROM_get addr (length bytes) (EEPROM_put addr bytes mem) = bytes.
Proof.
  apply list_eq. intros i. unfold EEPROM_get.
  rewrite list_lookup_fmap.
  destruct (bytes !! i) as [b|] eqn:Hi.
  - rewrite lookup_seq_lt by (eapply lookup_lt_Some, Hi). cbn.
    f_equal. by apply EEPROM_put_inside.
  - rewrite lookup_seq_ge; [done|]. by apply lookup_ge_None.
Qed.

Lemma EEPROM_get_outside (bytes : list ascii) (addr a len : nat) (mem : nat -> ascii) :
  (a + len <= addr \/ addr + length bytes <= a)%nat ->
  EEPROM_get a len (EEPROM_put addr bytes mem) = EEPROM_get a len mem.
Proof.
  intros H. unfold EEPROM_get. apply map_ext_in. intros i Hi%in_seq.
  apply EEPROM_put_outside. lia.
Qed.

Lemma configOfBytes_configBytes (c : ConfigData) : configOk c -> configOfBytes (configBytes c) = c.
Proof.
  intros (H1 & H2 & H3 & H4). change (Z.to_nat KEYCOUNT) with 8%nat in *.
  destruct c as [k1 k2 l1 l2]. unfold configOfBytes, configBytes. cbn in *.
  f_equal.
  - by rewrite take_app_length'.
  - rewrite drop_app_length' by done. by rewrite take_app_length'.
  - rewrite app_assoc, drop_app_length' by (rewrite length_app; lia).
    by rewrite take_app_length'.
  - rewrite !app_assoc, drop_app_length' by (rewrite !length_app; lia).
    by rewrite take_ge by lia.
Qed.

Lemma configBytes_length (c : ConfigData) : configOk c -> length (configBytes c) = sizeof_config.
Proof.
  intros (H1 & H2 & H3 & H4). change (Z.to_nat KEYCOUNT) with 8%nat in *.
  unfold configBytes. rewrite !length_app. unfold sizeof_config. lia.
Qed.

(** What [handlePersist] leaves in the EEPROM: the tag reads back as
    [VERSION_TAG] and the payload as the configuration. *)
Lemma handlePersist_stored (st : State) :
  configOk (config st) ->
  storedTag (snd (handlePersist st)) = VERSION_TAG /\
  storedConfig (snd (handlePersist st)) = config st.
Proof.
  intros Hok. unfold storedTag, storedConfig, handlePersist. cbv zeta.
  cbn [snd eeprom config Serial_println emit set_eeprom].
  split.
  - rewrite EEPROM_get_outside by (cbn; lia).
    change sizeof_int with (length (intBytes VERSION_TAG)).
    by rewrite EEPROM_get_put.
  - change (0 + sizeof_int)%nat with sizeof_int.
    rewrite <- (configBytes_length (config st) Hok).
    rewrite EEPROM_get_put. by apply configOfBytes_configBytes.
Qed.

(** C2.  For a configuration whose four arrays have their 8 entries, with
    any entry values, [handlePersist] followed at once by [handleLoad]
    leaves the in-memory configuration equal, byte for byte, to the one
    that was persisted; both report success. *)
Theorem C2_persist_then_load (st : State) :
  configOk (config st) ->
  config (snd (handleLoad (snd (handlePersist st)))) = config st /\
  fst (handlePersist st) = 0 /\
  fst (handleLoad (snd (handlePersist st))) = 0.
Proof.
  intros Hok. destruct (handlePersist_stored st Hok) as [Htag Hcfg].
  unfold handleLoad. fold (storedTag (snd (handlePersist st))).
  fold (storedConfig (snd (handlePersist st))).
  rewrite Htag, Hcfg. cbn. done.
Qed.

Lemma C2_witness :
  config (snd (handleLoad (snd (handlePersist (powerOn blankRom))))) =
  config (powerOn blankRom).
Proof.
  apply (C2_persist_then_load (powerOn blankRom)).
  repeat split.
Defined.

Lemma uint8_of_char_range (c : ascii) : 0 <= uint8_of_char c < 256.
Proof. unfold uint8_of_char. pose proof (N_ascii_bounded c). lia. Qed.

(** The two bytes of the tag, low byte first: 2306 = 2 + 256 * 9. *)
Lemma tag_bytes (lo hi : Z) :
  0 <= lo < 256 -> 0 <= hi < 256 ->
  wrap16 (lo + 256 * hi) = VERSION_TAG <-> lo = 2 /\ hi = 9.
Proof.
  intros Hlo Hhi. unfold wrap16, VERSION_TAG.
  split; [|intros [-> ->]; reflexivity].
  intros Hw.
  destruct (Z_lt_ge_dec (lo + 256 * hi + 32768) 65536) as [Hlt|Hge].
  - rewrite Z.mod_small in Hw by lia. lia.
  - replace (lo + 256 * hi + 32768) with ((lo + 256 * hi - 32768) + 1 * 65536) in Hw by lia.
    rewrite Z_mod_plus_full, Z.mod_small in Hw by lia. lia.
Qed.

Lemma startupLedAnimation_config (st : State) :
  config (startupLedAnimation st) = config st.
Proof.
  assert (H1 : forall s s', consumes s s' -> config s = config st -> config s' = config st)
    by (intros s s' (-> & _); done).
  assert (H2 : forall nr onOff s, config s = config st -> config (setLed nr onOff s) = config st)
    by (intros; by rewrite setLed_config).
  exact (P_startupLedAnimation (fun s => config s = config st) H1 H2 st eq_refl).
Qed.

Lemma setup_unfold (st : State) :
  setup st =
  startupLedAnimation (emit KeyboardBegin
    (fold_left (fun st i => setLed (Z.of_nat i) 0 (emit (PinModeOutput (ledPin !!! i)) st))
               (seq 0 (Z.to_nat KEYCOUNT))
               (clearReadBuffer (snd (handleLoad (emit (SerialBegin 115200) st)))))).
Proof. reflexivity. Qed.

Lemma initLeds_config (l : list nat) (s : State) :
  config (fold_left
            (fun st i => setLed (Z.of_nat i) 0 (emit (PinModeOutput (ledPin !!! i)) st))
            l s) = config s.
Proof.
  revert s. induction l as [|i l IH]; intros s; [reflexivity|].
  cbn [fold_left]. rewrite IH, setLed_config. by autorewrite with fields.
Qed.

Lemma setup_config (st : State) :
  config (setup st) = config (snd (handleLoad (emit (SerialBegin 115200) st))).
Proof.
  rewrite setup_unfold, startupLedAnimation_config.
  autorewrite with fields. rewrite initLeds_config. by autorewrite with fields.
Qed.

(** C3.  [handleLoad] reads the version tag at offset 0.  If the tag is the
    expected constant, the in-memory configuration becomes the stored
    payload; if it is not, [handleLoad] returns the state as it was, so the
    configuration is untouched, and it still returns 0 and prints nothing.
    The configuration is therefore replaced only when the tag matches, and
    a pad whose EEPROM holds no matching tag boots with the compiled-in
    defaults. *)
Theorem C3_load_checks_version_tag (st : State) :
  (storedTag st = VERSION_TAG ->
   config (snd (handleLoad st)) = storedConfig st /\ fst (handleLoad st) = 0) /\
  (storedTag st <> VERSION_TAG -> handleLoad st = (0, st)) /\
  (config (snd (handleLoad st)) <> config st -> storedTag st = VERSION_TAG) /\
  (storedTag st = VERSION_TAG <->
   uint8_of_char (eeprom st 0%nat) = 2 /\ uint8_of_char (eeprom st 1%nat) = 9) /\
  (storedTag st <> VERSION_TAG -> config st = defaultConfig ->
   config (setup st) = defaultConfig).
Proof.
  assert (Hmiss : storedTag st <> VERSION_TAG -> handleLoad st = (0, st)).
  { intros H. unfold handleLoad. fold (storedTag st).
    by replace (storedTag st =? VERSION_TAG) with false by lia. }
  split; [|split; [exact Hmiss|split; [|split]]].
  - intros H. unfold handleLoad. fold (storedTag st) (storedConfig st).
    rewrite H. by cbn.
  - intros H. destruct (decide (storedTag st = VERSION_TAG)) as [|Hne]; [done|].
    rewrite (Hmiss Hne) in H. done.
  - unfold storedTag, intOfBytes, EEPROM_get. cbn [map seq lookup_total list_lookup_total Nat.add].
    apply tag_bytes; apply uint8_of_char_range.
  - intros Hne Hdef.
    assert (Hload : snd (handleLoad (emit (SerialBegin 115200) st)) =
                    emit (SerialBegin 115200) st).
    { unfold handleLoad. change (eeprom (emit (SerialBegin 115200) st)) with (eeprom st).
      fold (storedTag st). by replace (storedTag st =? VERSION_TAG) with false by lia. }
    rewrite setup_config, Hload. exact Hdef.
Qed.

Lemma C3_witness :
  handleLoad (powerOn blankRom) = (0, powerOn blankRom) /\
  config (snd (handleLoad (snd (handlePersist (powerOn blankRom))))) =
  storedConfig (snd (handlePersist (powerOn blankRom))).
Proof.
  split.
  - apply (proj1 (proj2 (C3_load_checks_version_tag (powerOn blankRom)))).
    vm_compute. discriminate.
  - apply (proj1 (C3_load_checks_version_tag (snd (handlePersist (powerOn blankRom))))).
    vm_compute. reflexivity.
Defined.

(** ** Serial input *)

Lemma setLed_readBuffer (nr onOff : Z) (st : State) :
  readBuffer (setLed nr onOff st) = readBuffer st.
Proof. by destruct (setLed_cases nr onOff st) as [-> | (_ & _ & ->)]. Qed.

(** No command touches the input buffer. *)
Lemma executeSerialCommands_readBuffer (st : State) :
  readBuffer (executeSerialCommands st) = readBuffer st.
Proof.
  apply (executeSerialCommands_preserves (fun s => readBuffer s = readBuffer st)); try done.
  - by intros s s' (_&_&_&->&_).
  - intros nr onOff s Hs. by rewrite setLed_readBuffer.
Qed.

Lemma cstr_cleared (buf : list ascii) : buf <> [] -> cstr (<[0%nat := NUL]> buf) = EmptyString.
Proof. by destruct buf. Qed.

(** A carriage return or line feed is never stored; it runs the line if
    there is one. *)
Lemma receiveChar_terminator (ser : ascii) (st : State) :
  ser = CR \/ ser = LF ->
  receiveChar ser st =
  Some (if 0 <? strlen (readBuffer st)
        then clearReadBuffer (executeSerialCommands st) else st).
Proof.
  intros Hser. unfold receiveChar.
  assert (H1 : negb (Ascii.eqb ser CR) && negb (Ascii.eqb ser LF) = false)
    by (destruct Hser as [-> | ->]; reflexivity).
  assert (H2 : Ascii.eqb ser CR || Ascii.eqb ser LF = true)
    by (destruct Hser as [-> | ->]; reflexivity).
  rewrite <- andb_assoc, H1, andb_false_r. cbn [mbind option_bind].
  rewrite H2. cbn [andb]. by destruct (0 <? strlen (readBuffer st)).
Qed.

(** C10.  A carriage return or line feed that arrives while the input
    buffer holds the empty string runs no command and prints nothing: the
    whole state is as before.  This is the case of the line feed of a CR-LF
    pair: whatever the carriage return did, it leaves the buffer empty, so
    the line feed that follows changes nothing. *)
Theorem C10_empty_line_is_ignored (st : State) (ser : ascii) :
  ser = CR \/ ser = LF ->
  (cstr (readBuffer st) = EmptyString ->
   receiveChar ser st = Some st /\ handleSerialReceive [ser] st = Some st) /\
  (readBuffer st <> [] ->
   forall st', receiveChar CR st = Some st' -> receiveChar LF st' = Some st').
Proof.
  intros Hser. split.
  - intros Hempty.
    assert (H : receiveChar ser st = Some st).
    { rewrite receiveChar_terminator by exact Hser. unfold strlen. by rewrite Hempty. }
    split; [exact H|]. cbn [handleSerialReceive]. by rewrite H.
  - intros Hbuf st' Hcr.
    rewrite receiveChar_terminator in Hcr by (by left).
    rewrite receiveChar_terminator by (by right).
    assert (Hempty : cstr (readBuffer st') = EmptyString).
    { destruct (0 <? strlen (readBuffer st)) eqn:Hlen; injection Hcr as <-.
      - unfold clearReadBuffer. autorewrite with fields.
        rewrite executeSerialCommands_readBuffer. by apply cstr_cleared.
      - unfold strlen in Hlen. by destruct (cstr (readBuffer st)). }
    unfold strlen. by rewrite Hempty.
Qed.

Lemma C10_witness :
  receiveChar LF bootState = Some bootState /\
  handleSerialReceive [LF] bootState = Some bootState.
Proof.
  apply (C10_empty_line_is_ignored bootState LF); [by right | reflexivity].
Defined.

(** C8, at the failing input.  A NUL character is stored like any other,
    but [strlen] does not count it: after 80 NUL characters the write
    position has moved to the end of [readBuffer] while the length test
    still sees an empty line, and the store of the 80th character's
    terminator falls outside the array. *)
Theorem C8_nul_characters_overrun_readBuffer :
  (exists st, handleSerialReceive (replicate 79 NUL) bootState = Some st /\
              readBufferPtr st = 79%nat /\ strlen (readBuffer st) = 0) /\
  handleSerialReceive (replicate 80 NUL) bootState = None.
Proof.
  split.
  - eexists. split; [vm_compute; reflexivity|]. split; reflexivity.
  - vm_compute. reflexivity.
Qed.

(** ** Command lines *)

(** Following the loop from one pass to a later one does not change what it
    returns. *)
Lemma commandLoop_reaches (word word' : option string) (st st' : State) :
  loopReaches word st word' st' ->
  forall fuel, (String.length (strtokSave st) < fuel)%nat ->
  exists fuel',
    (word' = None \/ (String.length (strtokSave st') < fuel')%nat) /\
    commandLoop fuel word st = commandLoop fuel' word' st'.
Proof.
  induction 1 as [word st | w st e st1 word' st' word'' st'' Hfind Hrun Htok Hreach IH];
    intros fuel Hfuel.
  - exists fuel. split; [by right | reflexivity].
  - destruct fuel as [|fuel]; [lia|].
    pose proof (handler_line e st (findHandler_elem _ _ _ Hfind)) as Hle.
    pose proof (strtok_NULL_consumes st1) as [(_&_&_&_&_&_&Hle2) Hlt].
    rewrite Hrun in Hle. rewrite Htok in Hle2, Hlt. cbn [fst snd] in *.
    cbn [commandLoop]. rewrite Hfind, Hrun. cbn [Z.eqb]. rewrite Htok.
    destruct word' as [w'|].
    + apply IH. assert (String.length (strtokSave st') < String.length (strtokSave st1))%nat
        by (apply Hlt; eauto). lia.
    + inversion Hreach; subst. exists fuel. split; [by left | reflexivity].
Qed.

Lemma executeSerialCommands_reaches (st : State) (w : string) (st' : State) :
  lineReaches st (Some w) st' ->
  exists fuel, executeSerialCommands st = commandLoop (S fuel) (Some w) st'.
Proof.
  unfold lineReaches. intros Hreach.
  rewrite (executeSerialCommands_fuel (S (String.length (cstr (readBuffer st))))) by lia.
  destruct (commandLoop_reaches _ _ _ _ Hreach (S (String.length (cstr (readBuffer st)))))
    as (fuel' & Hfuel' & ->).
  - pose proof (strtok_NULL_consumes (set_strtokSave (cstr (readBuffer st)) st))
      as [(_&_&_&_&_&_&Hle) _].
    unfold strtok_readBuffer. cbn [strtokSave set_strtokSave] in Hle. lia.
  - destruct Hfuel' as [[=] | Hfuel'].
    destruct fuel' as [|fuel']; [lia|]. by exists fuel'.
Qed.

Lemma commandLoop_unknown (fuel : nat) (w : string) (st : State) :
  findHandler w handlers = None ->
  commandLoop (S fuel) (Some w) st = unknownCommandError st.
Proof. intros H. cbn [commandLoop]. by rewrite H. Qed.

Lemma commandLoop_abort (fuel : nat) (w : string) (e : HandlerEntry) (st : State) :
  findHandler w handlers = Some e ->
  fst (handler e st) <> 0 ->
  commandLoop (S fuel) (Some w) st = snd (handler e st).
Proof.
  intros Hfind Hr. cbn [commandLoop]. rewrite Hfind.
  destruct (handler e st) as [r st1]. cbn [fst snd] in *.
  by replace (r =? 0) with false by lia.
Qed.

(** Running the line that a state holds in its input buffer, with the
    fields of the state at hand. *)
Ltac run_line st Hline :=
  unfold executeSerialCommands, strtok_readBuffer;
  rewrite Hline;
  destruct st as [[k1 k2 l1 l2] alt leds buf ptr tok rom evs];
  cbn [config useAlternateKeyMap ledState readBuffer readBufferPtr strtokSave
       eeprom events keyMap1 keyMap2 ledConfig1 ledConfig2] in *;
  subst.

(** C1.  Whenever the command loop comes to a word that is in no entry of
    the handler table, on whatever line and after whatever commands,
    "Unknown Command Error" is printed and the line ends there: the state
    returned is the state at that word with the one message added, and the
    words after it are left unread.  So the line "on 1 badcmd off 3", from
    all leds off, lights led 1, prints the error once and leaves led 3
    off, with "off 3" unread. *)
Theorem C1_unknown_command_ends_line :
  (forall st w st',
      lineReaches st (Some w) st' ->
      findHandler w handlers = None ->
      executeSerialCommands st = unknownCommandError st') /\
  (forall st,
      cstr (readBuffer st) = "on 1 badcmd off 3"%string ->
      ledState st = [0; 0; 0; 0; 0; 0; 0; 0] ->
      let st' := executeSerialCommands st in
      ledState st' = [1; 0; 0; 0; 0; 0; 0; 0] /\
      events st' = SerialPrint ("Unknown Command Error" +:+ NL) ::
                   DigitalWrite 2 LOW :: events st /\
      strtokSave st' = "off 3"%string /\
      config st' = config st /\
      useAlternateKeyMap st' = useAlternateKeyMap st).
Proof.
  split.
  - intros st w st' Hreach Hfind.
    destruct (executeSerialCommands_reaches st w st' Hreach) as [fuel ->].
    by apply commandLoop_unknown.
  - intros st Hline Hleds. cbv zeta. run_line st Hline.
    vm_compute. repeat split.
Qed.

Lemma C1_witness :
  let st := typed "on 1 badcmd off 3" bootState in
  let st' := snd (strtok_NULL (snd (handleOn (snd (strtok_readBuffer st))))) in
  lineReaches st (Some "badcmd"%string) st' /\
  executeSerialCommands st = unknownCommandError st' /\
  ledState (executeSerialCommands st) = [1; 0; 0; 0; 0; 0; 0; 0].
Proof.
  intros st st'.
  assert (Hreach : lineReaches st (Some "badcmd"%string) st').
  { unfold lineReaches.
    replace (fst (strtok_readBuffer st)) with (Some "on"%string) by (vm_compute; reflexivity).
    apply (reaches_next "on" (snd (strtok_readBuffer st)) (mkEntry "e" "on" MSG_ON handleOn)
                        (snd (handleOn (snd (strtok_readBuffer st))))
                        (Some "badcmd"%string) st' (Some "badcmd"%string) st');
      [reflexivity | vm_compute; reflexivity .. | apply reaches_here]. }
  split; [exact Hreach|]. split.
  - apply (proj1 C1_unknown_command_ends_line st "badcmd"%string st' Hreach).
    vm_compute. reflexivity.
  - apply (proj2 C1_unknown_command_ends_line st); vm_compute; reflexivity.
Defined.

(** ** Numbers out of range *)

Lemma parseNumber_out (lo hi : Z) (st : State) (tok rest : string) :
  nextToken (strtokSave st) = Some (tok, rest) ->
  ~ (lo <= atoi tok <= hi) ->
  parseNumber lo hi st = (-1, rangeError lo hi (set_strtokSave rest st)).
Proof.
  intros Htok Hout. unfold parseNumber, strtok_NULL. rewrite Htok.
  by replace ((atoi tok <? lo) || (atoi tok >? hi)) with true by lia.
Qed.

Lemma parseNumber_in (lo hi : Z) (st : State) (tok rest : string) :
  nextToken (strtokSave st) = Some (tok, rest) ->
  lo <= atoi tok <= hi ->
  parseNumber lo hi st = (atoi tok, set_strtokSave rest st).
Proof.
  intros Htok Hin. unfold parseNumber, strtok_NULL. rewrite Htok.
  by replace ((atoi tok <? lo) || (atoi tok >? hi)) with false by lia.
Qed.

(** A handler whose first argument is a number outside its declared range
    prints the range error and returns 1, having done nothing else. *)
Lemma handler_first_number_out (e : HandlerEntry) (lo hi : Z) (st : State)
      (tok rest : string) :
  e ∈ handlers ->
  declaredRanges (command e) !! 0%nat = Some (lo, hi) ->
  nextToken (strtokSave st) = Some (tok, rest) ->
  ~ (lo <= atoi tok <= hi) ->
  handler e st = (1, rangeError lo hi (set_strtokSave rest st)).
Proof.
  intros Hin Hdecl Htok Hout.
  handler_cases Hin; cbn in Hdecl; try discriminate; injection Hdecl as <- <-;
    [ unfold handleGetLed | unfold handleToggle | unfold handleOn | unfold handleOff
    | unfold handleFlash | unfold handleActivateKeyMap | unfold handleConfigToggle
    | unfold handleSetKeyCode | unfold handleSetKeyChar ];
    change KEYCOUNT with 8;
    by rewrite (parseNumber_out _ _ _ _ _ Htok Hout).
Qed.

(** The same for a second numeric argument, the first being in range. *)
Lemma handler_second_number_out (e : HandlerEntry) (lo0 hi0 lo hi : Z) (st : State)
      (tok0 rest0 tok rest : string) :
  e ∈ handlers ->
  declaredRanges (command e) = [(lo0, hi0); (lo, hi)] ->
  nextToken (strtokSave st) = Some (tok0, rest0) ->
  lo0 <= atoi tok0 <= hi0 ->
  nextToken rest0 = Some (tok, rest) ->
  ~ (lo <= atoi tok <= hi) ->
  handler e st = (1, rangeError lo hi (set_strtokSave rest st)).
Proof.
  intros Hin Hdecl Htok0 Hin0 Htok Hout.
  handler_cases Hin; cbn in Hdecl; try discriminate;
    injection Hdecl as <- <- <- <-;
    [ unfold handleFlash | unfold handleSetKeyCode ];
    change KEYCOUNT with 8;
    rewrite (parseNumber_in _ _ _ _ _ Htok0 Hin0);
    (replace (atoi tok0 =? -1) with false by lia);
    by rewrite (parseNumber_out _ _ (set_strtokSave rest0 st) tok rest Htok Hout).
Qed.

(** C5.  A numeric argument whose parsed value ([atoi] of the token) lies
    outside the inclusive range declared for it makes the handler print
    "Error, expected number from lo to hi" and return 1 without any other
    effect, for the first and for the second numeric argument of every verb
    of the table; and a handler that returns nonzero ends the line, the
    words after it being left unread.  So on the line "setkeycode 3 256 on 1"
    the error for 0..255 is printed, the configuration is as before, and
    led 1 is not lit. *)
Theorem C5_number_out_of_range_ends_line :
  (forall e lo hi st tok rest,
      e ∈ handlers ->
      declaredRanges (command e) !! 0%nat = Some (lo, hi) ->
      nextToken (strtokSave st) = Some (tok, rest) ->
      ~ (lo <= atoi tok <= hi) ->
      handler e st = (1, rangeError lo hi (set_strtokSave rest st))) /\
  (forall e lo0 hi0 lo hi st tok0 rest0 tok rest,
      e ∈ handlers ->
      declaredRanges (command e) = [(lo0, hi0); (lo, hi)] ->
      nextToken (strtokSave st) = Some (tok0, rest0) ->
      lo0 <= atoi tok0 <= hi0 ->
      nextToken rest0 = Some (tok, rest) ->
      ~ (lo <= atoi tok <= hi) ->
      handler e st = (1, rangeError lo hi (set_strtokSave rest st))) /\
  (forall lo hi rest st,
      let st' := rangeError lo hi (set_strtokSave rest st) in
      config st' = config st /\ useAlternateKeyMap st' = useAlternateKeyMap st /\
      ledState st' = ledState st /\ eeprom st' = eeprom st /\
      history st' = history st ++
                    [SerialPrint "Error, expected number from "; SerialPrint (decimal lo);
                     SerialPrint " to "; SerialPrint (decimal hi +:+ CRLF)]) /\
  (forall st w e st',
      lineReaches st (Some w) st' ->
      findHandler w handlers = Some e ->
      fst (handler e st') <> 0 ->
      executeSerialCommands st = snd (handler e st')) /\
  (forall st,
      cstr (readBuffer st) = "setkeycode 3 256 on 1"%string ->
      let st' := executeSerialCommands st in
      config st' = config st /\
      ledState st' = ledState st /\
      useAlternateKeyMap st' = useAlternateKeyMap st /\
      eeprom st' = eeprom st /\
      strtokSave st' = "on 1"%string /\
      events st' = SerialPrint ("255" +:+ CRLF) :: SerialPrint " to " :: SerialPrint "0" ::
                   SerialPrint "Error, expected number from " :: events st).
Proof.
  split; [exact handler_first_number_out|].
  split; [exact handler_second_number_out|].
  split.
  { intros lo hi rest st. cbv zeta. unfold history, rangeError, Serial_println, Serial_print.
    autorewrite with fields. repeat (split; [reflexivity|]).
    cbn [rev]. by rewrite <- !app_assoc. }
  split.
  - intros st w e st' Hreach Hfind Hr.
    destruct (executeSerialCommands_reaches st w st' Hreach) as [fuel ->].
    by apply commandLoop_abort.
  - intros st Hline. cbv zeta. run_line st Hline.
    vm_compute. repeat split.
Qed.

Lemma C5_witness :
  let st := typed "setkeycode 3 256 on 1" bootState in
  let st0 := snd (strtok_readBuffer st) in
  handleSetKeyCode st0 = (1, rangeError 0 255 (set_strtokSave "on 1" st0)) /\
  config (executeSerialCommands st) = config st.
Proof.
  intros st st0. split.
  - apply (proj1 (proj2 C5_number_out_of_range_ends_line)
                 (mkEntry "k" "setkeycode" MSG_SETKEYCODE handleSetKeyCode)
                 1 8 0 255 st0 "3"%string "256 on 1"%string "256"%string "on 1"%string).
    + unfold handlers. do 11 right. left.
    + reflexivity.
    + vm_compute. reflexivity.
    + assert (atoi "3" = 3) as -> by reflexivity. lia.
    + reflexivity.
    + assert (atoi "256" = 256) as -> by reflexivity. lia.
  - apply (proj2 (proj2 (proj2 (proj2 C5_number_out_of_range_ends_line))) st).
    vm_compute. reflexivity.
Defined.

(** ** The two key maps *)

Lemma line_usemap2_setkeycode_1_65 (st : State) :
  cstr (readBuffer st) = "usemap 2 setkeycode 1 65"%string ->
  executeSerialCommands st =
  mkState (mkConfig (keyMap1 (config st)) (<[0%nat := "A"%char]> (keyMap2 (config st)))
                    (ledConfig1 (config st)) (ledConfig2 (config st)))
          true (ledState st) (readBuffer st) (readBufferPtr st) EmptyString
          (eeprom st) (events st).
Proof. intros Hline. run_line st Hline. vm_compute. reflexivity. Qed.

Lemma line_usemap1 (st : State) :
  cstr (readBuffer st) = "usemap 1"%string ->
  executeSerialCommands st =
  mkState (config st) false (ledState st) (readBuffer st) (readBufferPtr st) EmptyString
          (eeprom st) (events st).
Proof. intros Hline. run_line st Hline. vm_compute. reflexivity. Qed.

(** C4.  The line "usemap 2 setkeycode 1 65" selects the alternate map and
    stores code 65 in its entry for key 1 and nowhere else: the primary key
    map, every other entry of the alternate key map and both led
    configuration maps are as before, and so are the leds.  When a later
    line "usemap 1" selects the primary map again, the code sent for key 1
    is the one the primary map held before. *)
Theorem C4_setkeycode_writes_active_map_only (st : State) :
  cstr (readBuffer st) = "usemap 2 setkeycode 1 65"%string ->
  let st1 := executeSerialCommands st in
  keyMap2 (config st1) = <[0%nat := char_of_int 65]> (keyMap2 (config st)) /\
  (forall i, i <> 0%nat -> keyMap2 (config st1) !! i = keyMap2 (config st) !! i) /\
  keyMap1 (config st1) = keyMap1 (config st) /\
  ledConfig1 (config st1) = ledConfig1 (config st) /\
  ledConfig2 (config st1) = ledConfig2 (config st) /\
  ledState st1 = ledState st /\
  useAlternateKeyMap st1 = true /\
  (forall st2,
      config st2 = config st1 ->
      cstr (readBuffer st2) = "usemap 1"%string ->
      let st3 := executeSerialCommands st2 in
      config st3 = config st1 /\
      useAlternateKeyMap st3 = false /\
      activeKeyCode (1 - 1) st3 = keyMap1 (config st) !!! 0%nat).
Proof.
  intros Hline. cbv zeta. rewrite (line_usemap2_setkeycode_1_65 st Hline).
  cbn [config keyMap1 keyMap2 ledConfig1 ledConfig2 ledState useAlternateKeyMap].
  split; [reflexivity|].
  split; [intros i Hi; by apply list_lookup_insert_ne|].
  do 5 (split; [reflexivity|]).
  intros st2 Hcfg Hline2. rewrite (line_usemap1 st2 Hline2).
  cbn [config useAlternateKeyMap]. split; [exact Hcfg|]. split; [reflexivity|].
  unfold activeKeyCode. cbn [config useAlternateKeyMap]. by rewrite Hcfg.
Qed.

Lemma C4_witness :
  let st := typed "usemap 2 setkeycode 1 65" bootState in
  keyMap2 (config (executeSerialCommands st)) =
  <[0%nat := char_of_int 65]> (keyMap2 (config st)).
Proof.
  intros st. apply (C4_setkeycode_writes_active_map_only st).
  vm_compute. reflexivity.
Defined.

(** ** Assembling a line from ordinary characters *)

Lemma cstr_app (l t : list ascii) :
  Forall (fun c => c <> NUL) l ->
  cstr (l ++ t) = string_of_list_ascii l +:+ cstr t.
Proof.
  induction 1 as [|c l Hc Hl IH]; [reflexivity|].
  cbn. destruct (Ascii.eqb_spec c NUL) as [->|_]; [done|]. by rewrite IH.
Qed.

(** An array whose C string is shorter than the array holds that string, a
    NUL, and whatever follows. *)
Lemma cstr_decompose (buf : list ascii) :
  (String.length (cstr buf) < length buf)%nat ->
  exists l t,
    buf = l ++ NUL :: t /\ Forall (fun c => c <> NUL) l /\
    cstr buf = string_of_list_ascii l /\ length l = String.length (cstr buf).
Proof.
  induction buf as [|c buf IH]; cbn; [lia|].
  destruct (Ascii.eqb_spec c NUL) as [->|Hc]; cbn; intros Hlen.
  - by exists [], buf.
  - destruct IH as (l & t & -> & Hl & Hs & Hn); [lia|].
    exists (c :: l), t. repeat split.
    + by constructor.
    + cbn. by rewrite Hs.
    + cbn. by rewrite Hn.
Qed.

Lemma string_length_app (s1 s2 : string) :
  String.length (s1 +:+ s2) = (String.length s1 + String.length s2)%nat.
Proof. induction s1 as [|c s1 IH]; simpl; [reflexivity | by f_equal]. Qed.

Lemma string_app_empty_r (s : string) : s +:+ EmptyString = s.
Proof.
  induction s as [|c s IH]; [reflexivity|].
  change (String c (s +:+ EmptyString) = String c s). by rewrite IH.
Qed.

Lemma string_of_list_ascii_app (l1 l2 : list ascii) :
  string_of_list_ascii (l1 ++ l2) = string_of_list_ascii l1 +:+ string_of_list_ascii l2.
Proof. induction l1 as [|c l1 IH]; cbn; [reflexivity | by rewrite IH]. Qed.

Lemma string_of_list_ascii_length (l : list ascii) :
  String.length (string_of_list_ascii l) = length l.
Proof. induction l as [|c l IH]; cbn; [reflexivity | by rewrite IH]. Qed.

(** An ordinary character is appended to the line if the line has fewer
    than 79 characters and dropped otherwise; nothing else changes, and the
    store stays inside the array. *)
Lemma receiveChar_ordinary (ser : ascii) (st : State) :
  bufferOk st -> ordinary ser ->
  exists st',
    receiveChar ser st = Some st' /\
    bufferOk st' /\
    cstr (readBuffer st') = appendBounded (cstr (readBuffer st)) ser /\
    sameButBuffer st st'.
Proof.
  intros (Hlen & Hptr & Hfit) (Hnul & Hcr & Hlf).
  unfold receiveChar, appendBounded, strlen.
  replace (negb (Ascii.eqb ser CR)) with true
    by (symmetry; apply negb_true_iff; by apply Ascii.eqb_neq).
  replace (negb (Ascii.eqb ser LF)) with true
    by (symmetry; apply negb_true_iff; by apply Ascii.eqb_neq).
  replace (Ascii.eqb ser CR || Ascii.eqb ser LF) with false
    by (symmetry; apply orb_false_iff; split; by apply Ascii.eqb_neq).
  rewrite !andb_true_r. cbn [andb].
  destruct (cstr_decompose (readBuffer st)) as (l & t & Hbuf & Hl & Hs & Hn); [lia|].
  unfold sizeof_readBuffer in *.
  destruct (String.length (cstr (readBuffer st)) <? 79)%nat eqn:Hroom.
  - apply Nat.ltb_lt in Hroom.
    replace (Z.of_nat (String.length (cstr (readBuffer st))) <? Z.of_nat 80 - 1) with true
      by (symmetry; apply Z.ltb_lt; lia).
    assert (Ht : exists x t', t = x :: t').
    { destruct t as [|x t']; [|by eauto].
      rewrite Hbuf, length_app in Hlen. cbn in Hlen. lia. }
    destruct Ht as (x & t' & ->).
    unfold pokeReadBuffer, sizeof_readBuffer. rewrite Hptr.
    replace (String.length (cstr (readBuffer st)) <? 80)%nat with true
      by (symmetry; apply Nat.ltb_lt; lia).
    cbn [mbind option_bind]. autorewrite with fields. rewrite !Hptr.
    replace (S (String.length (cstr (readBuffer st))) <? 80)%nat with true
      by (symmetry; apply Nat.ltb_lt; lia).
    cbn [mbind option_bind].
    eexists. split; [reflexivity|].
    assert (Hnew : <[S (String.length (cstr (readBuffer st))) := NUL]>
                     (<[String.length (cstr (readBuffer st)) := ser]> (readBuffer st)) =
                   (l ++ [ser]) ++ NUL :: t').
    { rewrite <- Hn, Hbuf.
      rewrite insert_app_r_alt by lia. rewrite Nat.sub_diag. cbn [insert list_insert].
      rewrite insert_app_r_alt by lia.
      replace (S (length l) - length l)%nat with 1%nat by lia.
      cbn [insert list_insert]. by rewrite <- app_assoc. }
    assert (Hline : cstr ((l ++ [ser]) ++ NUL :: t') =
                    cstr (readBuffer st) +:+ String ser EmptyString).
    { rewrite cstr_app by (apply Forall_app; split; [exact Hl | by constructor]).
      rewrite string_of_list_ascii_app, <- Hs.
      change (cstr (NUL :: t')) with EmptyString.
      by rewrite string_app_empty_r. }
    autorewrite with fields. rewrite Hnew, Hline.
    split; [|split; [reflexivity | by repeat split]].
    unfold bufferOk, sizeof_readBuffer. autorewrite with fields.
    rewrite Hline, string_length_app. cbn [String.length].
    split; [|split; lia].
    rewrite <- Hnew, !length_insert. exact Hlen.
  - apply Nat.ltb_ge in Hroom.
    replace (Z.of_nat (String.length (cstr (readBuffer st))) <? Z.of_nat 80 - 1) with false
      by (symmetry; apply Z.ltb_ge; lia).
    cbn [mbind option_bind]. exists st.
    split; [reflexivity|]. split; [by repeat split|]. split; [reflexivity | by repeat split].
Qed.

Lemma sameButBuffer_trans (st1 st2 st3 : State) :
  sameButBuffer st1 st2 -> sameButBuffer st2 st3 -> sameButBuffer st1 st3.
Proof.
  unfold sameButBuffer. intros (?&?&?&?&?&?) (?&?&?&?&?&?). repeat split; congruence.
Qed.

Lemma handleSerialReceive_ordinary (chars : list ascii) (st : State) :
  bufferOk st -> Forall ordinary chars ->
  exists st',
    handleSerialReceive chars st = Some st' /\
    bufferOk st' /\
    cstr (readBuffer st') = fold_left appendBounded chars (cstr (readBuffer st)) /\
    sameButBuffer st st'.
Proof.
  intros Hok Hall. revert st Hok.
  induction Hall as [|c chars Hc Hall IH]; intros st Hok.
  - exists st. split; [reflexivity|]. split; [exact Hok|]. split; [reflexivity|].
    by repeat split.
  - destruct (receiveChar_ordinary c st Hok Hc) as (st1 & Hrecv & Hok1 & Hline1 & Hsame1).
    destruct (IH st1 Hok1) as (st' & Hrest & Hok' & Hline' & Hsame').
    exists st'. cbn [handleSerialReceive fold_left]. rewrite Hrecv. cbn [mbind option_bind].
    split; [exact Hrest|]. split; [exact Hok'|]. split.
    + by rewrite Hline', Hline1.
    + by eapply sameButBuffer_trans.
Qed.

Lemma handleSerialReceive_app (l1 l2 : list ascii) (st : State) :
  handleSerialReceive (l1 ++ l2) st = handleSerialReceive l1 st ≫= handleSerialReceive l2.
Proof.
  revert st. induction l1 as [|c l1 IH]; intros st; [reflexivity|].
  cbn [app handleSerialReceive]. destruct (receiveChar c st) as [st1|]; [|reflexivity].
  cbn [mbind option_bind]. apply IH.
Qed.

(** The line assembled from ordinary characters is their first 79. *)
Lemma fold_appendBounded (chars : list ascii) :
  fold_left appendBounded chars EmptyString = string_of_list_ascii (take 79 chars).
Proof.
  induction chars as [|c chars IH] using rev_ind; [reflexivity|].
  rewrite fold_left_app. cbn [fold_left]. rewrite IH. unfold appendBounded.
  rewrite string_of_list_ascii_length, length_take.
  destruct (_ <? 79)%nat eqn:Hroom;
    [apply Nat.ltb_lt in Hroom | apply Nat.ltb_ge in Hroom].
  - rewrite take_ge by lia. rewrite take_ge by (rewrite length_app; cbn; lia).
    rewrite string_of_list_ascii_app. reflexivity.
  - rewrite take_app_le by lia. reflexivity.
Qed.

Lemma bufferOk_cleared (st : State) :
  length (readBuffer st) = sizeof_readBuffer -> bufferOk (clearReadBuffer st).
Proof.
  intros Hlen. unfold bufferOk, clearReadBuffer. autorewrite with fields.
  rewrite length_insert, cstr_cleared by (intros E; by rewrite E in Hlen).
  unfold sizeof_readBuffer. cbn. repeat split; [exact Hlen | lia].
Qed.

(** Input without NUL characters stays inside the array: from an empty
    buffer, a run of characters other than NUL, CR and LF followed by a
    terminator never stores outside [readBuffer]; the line that is run is
    the first 79 characters, the rest being dropped without any message;
    and the buffer is empty again afterwards. *)
Theorem line_assembly (chars : list ascii) (ser : ascii) (st : State) :
  bufferOk st -> cstr (readBuffer st) = EmptyString ->
  Forall ordinary chars -> chars <> [] -> ser = CR \/ ser = LF ->
  exists st1,
    sameButBuffer st st1 /\
    cstr (readBuffer st1) = string_of_list_ascii (take 79 chars) /\
    handleSerialReceive (chars ++ [ser]) st = Some (clearReadBuffer (executeSerialCommands st1)) /\
    bufferOk (clearReadBuffer (executeSerialCommands st1)).
Proof.
  intros Hok Hempty Hall Hne Hser.
  destruct (handleSerialReceive_ordinary chars st Hok Hall)
    as (st1 & Hrecv & Hok1 & Hline & Hsame).
  rewrite Hempty, fold_appendBounded in Hline.
  exists st1. split; [exact Hsame|]. split; [exact Hline|]. split.
  - rewrite handleSerialReceive_app, Hrecv. cbn [mbind option_bind handleSerialReceive].
    rewrite receiveChar_terminator by exact Hser. cbn [mbind option_bind].
    unfold strlen. rewrite Hline.
    destruct chars as [|c chars]; [done|]. reflexivity.
  - apply bufferOk_cleared. rewrite executeSerialCommands_readBuffer. apply Hok1.
Qed.

Lemma line_assembly_witness :
  exists st1,
    cstr (readBuffer st1) = "on 1"%string /\
    handleSerialReceive (list_ascii_of_string "on 1" ++ [CR]) bootState =
    Some (clearReadBuffer (executeSerialCommands st1)).
Proof.
  destruct (line_assembly (list_ascii_of_string "on 1") CR bootState) as (st1 & _ & H1 & H2 & _).
  - vm_compute. repeat split; lia.
  - reflexivity.
  - repeat constructor; discriminate.
  - discriminate.
  - by left.
  - exists st1. by split.
Defined.

(** ** Worked examples *)

(** The frames of the animation, written out: led k is on pin k + 1, and a
    lit led has its pin LOW. *)
Lemma playFrames_reference :
  playFrames None referenceFrames =
  [ DigitalWrite 2 LOW; DigitalWrite 9 LOW; Delay 250;
    DigitalWrite 3 LOW; DigitalWrite 8 LOW; DigitalWrite 2 HIGH; DigitalWrite 9 HIGH; Delay 250;
    DigitalWrite 4 LOW; DigitalWrite 7 LOW; DigitalWrite 3 HIGH; DigitalWrite 8 HIGH; Delay 250;
    DigitalWrite 5 LOW; DigitalWrite 6 LOW; DigitalWrite 4 HIGH; DigitalWrite 7 HIGH; Delay 250;
    DigitalWrite 9 LOW; DigitalWrite 2 LOW; DigitalWrite 5 HIGH; DigitalWrite 6 HIGH; Delay 250;
    DigitalWrite 8 LOW; DigitalWrite 3 LOW; DigitalWrite 9 HIGH; DigitalWrite 2 HIGH; Delay 250;
    DigitalWrite 7 LOW; DigitalWrite 4 LOW; DigitalWrite 8 HIGH; DigitalWrite 3 HIGH; Delay 250;
    DigitalWrite 6 LOW; DigitalWrite 5 LOW; DigitalWrite 7 HIGH; DigitalWrite 4 HIGH; Delay 250;
    DigitalWrite 2 LOW; DigitalWrite 9 LOW; DigitalWrite 6 HIGH; DigitalWrite 5 HIGH; Delay 250;
    DigitalWrite 2 HIGH; DigitalWrite 9 HIGH ].
Proof. reflexivity. Qed.

(** The line "on 1 toggle 7 off 3", sent to a freshly booted pad, lights
    leds 1 and 7 and prints nothing. *)
Lemma sendLine_on_1_toggle_7_off_3 :
  exists st,
    sendLine "on 1 toggle 7 off 3" bootState = Some st /\
    ledState st = [1; 0; 0; 0; 0; 0; 1; 0] /\
    history st = history bootState ++
                 [DigitalWrite 2 LOW; DigitalWrite 8 LOW; DigitalWrite 4 HIGH].
Proof. eexists. split; [vm_compute; reflexivity|]. split; vm_compute; reflexivity. Qed.

(** After "persist", an edit that is not persisted is undone by "load". *)
Lemma sendLine_persist_edit_load :
  exists st,
    sendLine "persist setkeycode 1 66 load" bootState = Some st /\
    config st = config bootState.
Proof. eexists. split; [vm_compute; reflexivity|]. vm_compute. reflexivity. Qed.

(** * Further properties of the sketch *)

(** ** Properties kept step by step

    A finer version of the section above: the property may depend on the
    trace and on the configuration, and has to survive each kind of step on
    its own. *)

Section Kept.
Variable P : State -> Prop.
Hypothesis K_quiet : forall e st, quiet e = true -> P st -> P (emit e st).
Hypothesis K_key : forall c st, P st -> P (emit (KeyboardWrite c) st).
Hypothesis K_tokens : forall s st, P st -> P (set_strtokSave s st).
Hypothesis K_setLed : forall nr onOff st, P st -> P (setLed nr onOff st).
Hypothesis K_storeKey : forall i c st, P st -> P (storeKey i c st).
Hypothesis K_storeLedConfig : forall i c st, P st -> P (storeLedConfig i c st).
Hypothesis K_load : forall st, P st -> P (set_config (storedConfig st) st).
Hypothesis K_map : forall b st, P st -> P (set_useAlternateKeyMap b st).
Hypothesis K_eeprom : forall m st, P st -> P (set_eeprom m st).
Hypothesis K_buffer : forall b st, P st -> P (set_readBuffer b st).
Hypothesis K_bufferPtr : forall p st, P st -> P (set_readBufferPtr p st).

Lemma K_print (s : string) (st : State) : P st -> P (Serial_print s st).
Proof. by apply K_quiet. Qed.

Lemma K_println (s : string) (st : State) : P st -> P (Serial_println s st).
Proof. by apply K_quiet. Qed.

Lemma K_delay (ms : Z) (st : State) : P st -> P (delay ms st).
Proof. by apply K_quiet. Qed.

Lemma K_toggleLed (nr : Z) (st : State) : P st -> P (toggleLed nr st).
Proof.
  intros H. unfold toggleLed.
  destruct ((nr <? 0) || (nr >=? KEYCOUNT)); [exact H|].
  destruct (_ =? 0); by apply K_setLed.
Qed.

Lemma K_executeLedConfig (nr : Z) (st : State) : P st -> P (executeLedConfig nr st).
Proof.
  intros H. unfold executeLedConfig.
  destruct ((nr <? 0) || (nr >=? KEYCOUNT)); [exact H|].
  cbv zeta.
  repeat match goal with
         | |- context [if ?b then _ else _] => destruct b
         end;
    repeat first [apply K_setLed | apply K_toggleLed | apply K_delay | exact H].
Qed.

Lemma K_startupLedAnimation (st : State) : P st -> P (startupLedAnimation st).
Proof.
  intros H. unfold startupLedAnimation. cbv zeta.
  apply fold_left_preserves; [intros; by apply K_setLed|].
  do 2 apply K_setLed.
  apply fold_left_preserves; [|exact H].
  intros a i Ha. unfold animationFrame. cbv zeta.
  destruct (0 <? i)%nat; repeat first [apply K_setLed | apply K_delay | exact Ha].
Qed.

Lemma K_strtok_NULL (st : State) : P st -> P (snd (strtok_NULL st)).
Proof.
  intros H. unfold strtok_NULL.
  destruct (nextToken (strtokSave st)) as [[tok rest]|]; by apply K_tokens.
Qed.

Lemma K_parseNumber (lo hi : Z) (st : State) : P st -> P (snd (parseNumber lo hi st)).
Proof.
  intros H. unfold parseNumber.
  pose proof (K_strtok_NULL st H) as H1.
  destruct (strtok_NULL st) as [[w|] st1]; cbn [snd] in *.
  - destruct ((atoi w <? lo) || (atoi w >? hi)); cbn [snd]; [|exact H1].
    by apply K_println, K_print, K_print, K_print.
  - by apply K_print.
Qed.

Ltac split_reads_K :=
  repeat match goal with
         | |- context [parseNumber ?lo ?hi ?s] =>
             let H := fresh "HP" in
             assert (H : P (snd (parseNumber lo hi s))) by (apply K_parseNumber; assumption);
             destruct (parseNumber lo hi s) as [? ?]; cbn [snd] in H
         | |- context [strtok_NULL ?s] =>
             let H := fresh "HP" in
             assert (H : P (snd (strtok_NULL s))) by (apply K_strtok_NULL; assumption);
             destruct (strtok_NULL s) as [? ?]; cbn [snd] in H
         | |- context [if ?b then _ else _] => destruct b
         | |- context [match ?o with Some _ => _ | None => _ end] => destruct o
         end.

Ltac close_K :=
  cbn [snd];
  unfold println_P;
  repeat first
    [ assumption
    | apply K_startupLedAnimation | apply K_toggleLed
    | apply K_storeKey | apply K_storeLedConfig
    | apply K_setLed | apply K_println | apply K_print | apply K_delay
    | apply K_map | apply K_eeprom ].

Lemma K_handler (e : HandlerEntry) (st : State) :
  e ∈ handlers -> P st -> P (snd (handler e st)).
Proof.
  intros Hin H. handler_cases Hin.
  - unfold handleHelp. cbn [snd]. unfold println_P.
    apply K_println. apply fold_left_preserves; [intros; by apply K_println|].
    by apply K_println.
  - unfold handleVersion. close_K.
  - unfold handleGetLed. split_reads_K; close_K.
  - unfold handleToggle. split_reads_K; close_K.
  - unfold handleOn. split_reads_K; close_K.
  - unfold handleOff. split_reads_K; close_K.
  - unfold handleFlash. split_reads_K; close_K.
  - unfold handleAnimation. close_K.
  - unfold handleActivateKeyMap. split_reads_K; close_K.
  - unfold handleConfigToggle. split_reads_K; cbv zeta; split_reads_K; close_K.
  - unfold handleShowSettings. cbn [snd].
    apply fold_left_preserves; [intros; by apply K_println|]. by apply K_println.
  - unfold handleSetKeyCode. split_reads_K; close_K.
  - unfold handleSetKeyChar. split_reads_K; cbv zeta; split_reads_K; close_K.
  - unfold handlePersist. close_K.
  - unfold handleLoad. fold (storedConfig st).
    destruct (_ =? VERSION_TAG); cbn [snd]; [|exact H]. by apply K_println, K_load.
Qed.

Lemma K_commandLoop (fuel : nat) (word : option string) (st : State) :
  P st -> P (commandLoop fuel word st).
Proof.
  revert word st. induction fuel as [|fuel IH]; intros [w|] st H;
    cbn [commandLoop]; try exact H.
  destruct (findHandler w handlers) as [e|] eqn:Hfind; [|by apply K_print].
  pose proof (K_handler e st (findHandler_elem _ _ _ Hfind) H) as H1.
  destruct (handler e st) as [r st1]. cbn [snd] in H1.
  destruct (r =? 0); [|exact H1].
  pose proof (K_strtok_NULL st1 H1) as H2.
  destruct (strtok_NULL st1) as [w' st2]. by apply IH.
Qed.

Lemma K_executeSerialCommands (st : State) : P st -> P (executeSerialCommands st).
Proof.
  intros H. unfold executeSerialCommands, strtok_readBuffer.
  pose proof (K_strtok_NULL _ (K_tokens (cstr (readBuffer st)) st H)) as H1.
  destruct (strtok_NULL _) as [w st1]. by apply K_commandLoop.
Qed.

Lemma K_receiveChar (ser : ascii) (st st' : State) :
  P st -> receiveChar ser st = Some st' -> P st'.
Proof.
  intros H. unfold receiveChar.
  match goal with
  | |- context [mbind _ ?m] => destruct m as [st1|] eqn:E1; cbn; [|discriminate]
  end.
  assert (H1 : P st1).
  { match type of E1 with
    | (if ?c then _ else _) = _ => destruct c; [|by injection E1 as <-]
    end.
    unfold pokeReadBuffer in E1.
    destruct (readBufferPtr st <? sizeof_readBuffer)%nat; [|discriminate].
    cbn [mbind option_bind] in E1.
    match type of E1 with
    | (if ?c then _ else _) = _ => destruct c; [|discriminate]
    end.
    injection E1 as <-. by apply K_buffer, K_bufferPtr, K_buffer. }
  clear E1.
  match goal with
  | |- (if ?c then _ else _) = _ -> _ => destruct c; intros [= Hst']; subst st'
  end; [|exact H1].
  unfold clearReadBuffer. by apply K_bufferPtr, K_buffer, K_executeSerialCommands.
Qed.

Lemma K_handleSerialReceive (incoming : list ascii) (st st' : State) :
  P st -> handleSerialReceive incoming st = Some st' -> P st'.
Proof.
  revert st. induction incoming as [|ser incoming IH]; intros st H; cbn.
  - by intros [= <-].
  - destruct (receiveChar ser st) as [st1|] eqn:E; cbn; [|discriminate].
    apply IH. by eapply K_receiveChar.
Qed.

Lemma K_loop (incoming : list ascii) (key : Z) (st st' : State) :
  P st -> loop incoming key st = Some st' -> P st'.
Proof.
  intros H. unfold loop.
  destruct (handleSerialReceive incoming st) as [st1|] eqn:E; cbn; [|discriminate].
  apply (K_handleSerialReceive _ _ _ H) in E.
  intros [= <-]. apply K_delay.
  destruct (key =? 0); [exact E|]. by apply K_executeLedConfig, K_key.
Qed.

Lemma K_setup (st : State) : P st -> P (setup st).
Proof.
  intros H. rewrite setup_unfold.
  apply K_startupLedAnimation, K_quiet; [reflexivity|].
  apply fold_left_preserves; [intros; by apply K_setLed, K_quiet|].
  unfold clearReadBuffer. apply K_bufferPtr, K_buffer.
  unfold handleLoad. fold (storedConfig (emit (SerialBegin 115200) st)).
  destruct (_ =? VERSION_TAG); cbn [snd]; [|by apply K_quiet].
  by apply K_println, K_load, K_quiet.
Qed.
End Kept.

(** ** The configuration arrays keep their size *)





Lemma defaultConfig_configOk : configOk defaultConfig.
Proof. by repeat split. Qed.



(** ** The led pins show the stored led state *)

Lemma ledPin_lookup (i : nat) : (i < 8)%nat -> ledPin !!! i = Z.of_nat i + 2.
Proof.
  intros Hi. do 8 (destruct i as [|i]; [reflexivity|]). lia.
Qed.

Lemma pinLevel_quiet (pin : Z) (e : Event) (trace : list Event) :
  quiet e = true -> pinLevel pin (e :: trace) = pinLevel pin trace.
Proof. by destruct e. Qed.

Lemma pinLevel_key (pin : Z) (c : ascii) (trace : list Event) :
  pinLevel pin (KeyboardWrite c :: trace) = pinLevel pin trace.
Proof. reflexivity. Qed.

Lemma setLed_pinsAgree (nr onOff : Z) (st : State) :
  ledOk st /\ pinsAgree st -> ledOk (setLed nr onOff st) /\ pinsAgree (setLed nr onOff st).
Proof.
  intros [Hok Hpins]. split; [by apply setLed_ledOk|].
  destruct (setLed_cases nr onOff st) as [-> | (Hnr & Hv & ->)]; [exact Hpins|].
  destruct Hok as [Hlen _]. change (Z.to_nat KEYCOUNT) with 8%nat in Hlen.
  change KEYCOUNT with 8 in Hnr.
  intros i Hi. autorewrite with fields. cbn [pinLevel].
  rewrite (ledPin_lookup (Z.to_nat nr)) by lia. rewrite (ledPin_lookup i) by exact Hi.
  destruct (decide (i = Z.to_nat nr)) as [->|Hne].
  - rewrite Z.eqb_refl. by rewrite list_lookup_total_insert_eq by lia.
  - replace (Z.of_nat (Z.to_nat nr) + 2 =? Z.of_nat i + 2) with false
      by (symmetry; apply Z.eqb_neq; lia).
    rewrite list_lookup_total_insert_ne by done.
    rewrite <- (ledPin_lookup i) by exact Hi. by apply Hpins.
Qed.

(** The led loop of [setup] drives every pin and leaves every led off. *)
Lemma initLeds_pins (st : State) :
  length (ledState st) = 8%nat ->
  let st' := fold_left (fun st i => setLed (Z.of_nat i) 0 (emit (PinModeOutput (ledPin !!! i)) st))
                       (seq 0 (Z.to_nat KEYCOUNT)) st in
  ledOk st' /\ pinsAgree st'.
Proof.
  intros Hlen. destruct st as [cfg alt leds buf ptr tok rom evs]. cbn in Hlen.
  destruct leds as [|a0 [|a1 [|a2 [|a3 [|a4 [|a5 [|a6 [|a7 [|? ?]]]]]]]]];
    try discriminate.
  cbv zeta. split.
  - split; [reflexivity|]. cbn. repeat constructor.
  - intros i Hi. do 8 (destruct i as [|i]; [reflexivity|]). lia.
Qed.

Lemma setup_ledState_length (st : State) :
  length (ledState st) = 8%nat ->
  length (ledState (clearReadBuffer (snd (handleLoad (emit (SerialBegin 115200) st))))) = 8%nat.
Proof.
  intros H. unfold handleLoad. destruct (_ =? VERSION_TAG); cbn [snd]; exact H.
Qed.

(** X2.  What the led pins show is what [ledState] stores.  [setup] drives
    every led pin, so whatever the state it starts from (with 8 leds), it
    ends with each pin at the level of its stored led state (LOW for on)
    and each entry 0 or 1; and from such a state every handler, every
    command line, serial input and every pass of the main loop lead to such
    a state again. *)
Theorem pins_show_ledState (st : State) :
  (length (ledState st) = 8%nat -> ledOk (setup st) /\ pinsAgree (setup st)) /\
  (ledOk st -> pinsAgree st ->
   (forall nr onOff, pinsAgree (setLed nr onOff st)) /\
   (forall nr, pinsAgree (toggleLed nr st)) /\
   pinsAgree (startupLedAnimation st) /\
   (forall e, e ∈ handlers -> pinsAgree (snd (handler e st))) /\
   pinsAgree (executeSerialCommands st) /\
   (forall incoming key st', loop incoming key st = Some st' -> pinsAgree st')).
Proof.
  set (P := fun s => ledOk s /\ pinsAgree s).
  assert (Hq : forall e s, quiet e = true -> P s -> P (emit e s)).
  { intros e s He [H1 H2]. split; [exact H1|]. intros i Hi.
    autorewrite with fields. rewrite pinLevel_quiet by exact He. by apply H2. }
  assert (Hk : forall c s, P s -> P (emit (KeyboardWrite c) s)).
  { intros c s [H1 H2]. split; [exact H1|]. intros i Hi. by apply H2. }
  assert (Ht : forall x s, P s -> P (set_strtokSave x s)) by (intros x s H; exact H).
  assert (Hs : forall nr onOff s, P s -> P (setLed nr onOff s))
    by (intros; by apply setLed_pinsAgree).
  assert (Hsk : forall i c s, P s -> P (storeKey i c s))
    by (intros i c s H; unfold storeKey; destruct (useAlternateKeyMap s); exact H).
  assert (Hsl : forall i c s, P s -> P (storeLedConfig i c s))
    by (intros i c s H; unfold storeLedConfig; destruct (useAlternateKeyMap s); exact H).
  assert (Hl : forall s, P s -> P (set_config (storedConfig s) s)) by (intros s H; exact H).
  assert (Hm : forall b s, P s -> P (set_useAlternateKeyMap b s)) by (intros b s H; exact H).
  assert (He : forall m s, P s -> P (set_eeprom m s)) by (intros m s H; exact H).
  assert (Hb : forall b s, P s -> P (set_readBuffer b s)) by (intros b s H; exact H).
  assert (Hp : forall p s, P s -> P (set_readBufferPtr p s)) by (intros p s H; exact H).
  split.
  - intros Hlen. rewrite setup_unfold.
    apply (K_startupLedAnimation P Hq Hs), Hq; [reflexivity|].
    apply initLeds_pins. by apply setup_ledState_length.
  - intros Hok Hpins. assert (HP : P st) by (by split).
    split; [intros nr onOff; apply (Hs nr onOff st HP)|].
    split; [intros nr; apply (K_toggleLed P Hs nr st HP)|].
    split; [apply (K_startupLedAnimation P Hq Hs st HP)|].
    split; [intros e Hin; apply (K_handler P Hq Ht Hs Hsk Hsl Hl Hm He e st Hin HP)|].
    split; [apply (K_executeSerialCommands P Hq Ht Hs Hsk Hsl Hl Hm He st HP)|].
    intros incoming key st' H.
    apply (K_loop P Hq Hk Ht Hs Hsk Hsl Hl Hm He Hb Hp incoming key st st' HP H).
Qed.

Lemma pins_show_ledState_witness :
  pinsAgree (setup (powerOn blankRom)) /\
  pinsAgree (toggleLed 4 (setup (powerOn blankRom))).
Proof.
  destruct (proj1 (pins_show_ledState (powerOn blankRom)) eq_refl) as [Hok Hpins].
  split; [exact Hpins|].
  apply (proj2 (pins_show_ledState (setup (powerOn blankRom))) Hok Hpins).
Defined.

(** ** Keystrokes *)

Lemma setLed_events (nr onOff : Z) (st : State) :
  events (setLed nr onOff st) = events st \/
  exists pin level, events (setLed nr onOff st) = DigitalWrite pin level :: events st.
Proof.
  destruct (setLed_cases nr onOff st) as [-> | (_ & _ & ->)]; [by left|].
  right. by eexists _, _.
Qed.

Section CountingKeys.
Variable n : nat.

Definition hasKeys (st : State) : Prop := countKeys (events st) = n.

Lemma hasKeys_quiet (e : Event) (st : State) : quiet e = true -> hasKeys st -> hasKeys (emit e st).
Proof. unfold hasKeys, countKeys. intros He H. autorewrite with fields. by destruct e. Qed.

Lemma hasKeys_setLed (nr onOff : Z) (st : State) : hasKeys st -> hasKeys (setLed nr onOff st).
Proof.
  unfold hasKeys. intros H.
  destruct (setLed_events nr onOff st) as [-> | (pin & level & ->)]; exact H.
Qed.

Lemma hasKeys_storeKey (i : nat) (c : ascii) (st : State) : hasKeys st -> hasKeys (storeKey i c st).
Proof. intros H. unfold storeKey. destruct (useAlternateKeyMap st); exact H. Qed.

Lemma hasKeys_storeLedConfig (i : nat) (c : ascii) (st : State) :
  hasKeys st -> hasKeys (storeLedConfig i c st).
Proof. intros H. unfold storeLedConfig. destruct (useAlternateKeyMap st); exact H. Qed.

Lemma hasKeys_executeSerialCommands (st : State) :
  hasKeys st -> hasKeys (executeSerialCommands st).
Proof.
  apply (K_executeSerialCommands hasKeys hasKeys_quiet); try (intros; assumption).
  - apply hasKeys_setLed.
  - apply hasKeys_storeKey.
  - apply hasKeys_storeLedConfig.
Qed.

Lemma hasKeys_handleSerialReceive (incoming : list ascii) (st st' : State) :
  hasKeys st -> handleSerialReceive incoming st = Some st' -> hasKeys st'.
Proof.
  apply (K_handleSerialReceive hasKeys hasKeys_quiet); try (intros; assumption).
  - apply hasKeys_setLed.
  - apply hasKeys_storeKey.
  - apply hasKeys_storeLedConfig.
Qed.

Lemma hasKeys_executeLedConfig (nr : Z) (st : State) :
  hasKeys st -> hasKeys (executeLedConfig nr st).
Proof. apply (K_executeLedConfig hasKeys hasKeys_quiet hasKeys_setLed). Qed.
End CountingKeys.

(** X3.  Serial input never sends a keystroke: whatever bytes arrive and
    whatever commands they spell, the trace has as many keystrokes after
    [handleSerialReceive] (and after [executeSerialCommands]) as before. *)
Theorem serial_commands_send_no_keystroke (st : State) :
  countKeys (events (executeSerialCommands st)) = countKeys (events st) /\
  (forall incoming st',
      handleSerialReceive incoming st = Some st' ->
      countKeys (events st') = countKeys (events st)).
Proof.
  split.
  - by apply (hasKeys_executeSerialCommands (countKeys (events st)) st).
  - intros incoming st' H.
    by apply (hasKeys_handleSerialReceive (countKeys (events st)) incoming st st').
Qed.

Lemma serial_commands_send_no_keystroke_witness :
  countKeys (events (executeSerialCommands (typed "t 1 f 2 10 a s" bootState))) =
  countKeys (events (typed "t 1 f 2 10 a s" bootState)).
Proof. apply (serial_commands_send_no_keystroke (typed "t 1 f 2 10 a s" bootState)). Defined.

Lemma executeLedConfig_keeps_event (e : Event) (nr : Z) (st : State) :
  e ∈ events st -> e ∈ events (executeLedConfig nr st).
Proof.
  apply (K_executeLedConfig (fun s => e ∈ events s)).
  - intros e' s _ H. autorewrite with fields. by right.
  - intros nr' onOff s H.
    destruct (setLed_events nr' onOff s) as [-> | (pin & level & ->)]; [exact H | by right].
Qed.

(** X4.  A pass of the main loop sends exactly one keystroke when a key is
    pressed and none otherwise, and the keystroke carries the code that the
    active map holds for that key once the pending serial input has been
    handled. *)
Theorem loop_sends_one_keystroke (incoming : list ascii) (key : Z) (st st' : State) :
  loop incoming key st = Some st' ->
  exists st1,
    handleSerialReceive incoming st = Some st1 /\
    countKeys (events st') = (countKeys (events st) + (if (key =? 0)%Z then 0 else 1))%nat /\
    (key <> 0 -> KeyboardWrite (activeKeyCode (key - 1) st1) ∈ events st').
Proof.
  unfold loop.
  destruct (handleSerialReceive incoming st) as [st1|] eqn:E; cbn [mbind option_bind];
    [|discriminate].
  intros [= <-]. exists st1. split; [reflexivity|].
  pose proof (hasKeys_handleSerialReceive _ incoming st st1 eq_refl E) as H1.
  unfold hasKeys in H1. unfold delay. autorewrite with fields.
  destruct (key =? 0) eqn:Hkey.
  - split.
    + change (countKeys (events st1) = (countKeys (events st) + 0)%nat). lia.
    + intros Hne. apply Z.eqb_eq in Hkey. done.
  - split.
    + change (countKeys (Delay 20 :: ?x)) with (countKeys x).
      rewrite (hasKeys_executeLedConfig (S (countKeys (events st))) (key - 1)
                 (emit (KeyboardWrite (activeKeyCode (key - 1) st1)) st1)).
      * lia.
      * unfold hasKeys. autorewrite with fields. unfold countKeys in *. cbn. by rewrite H1.
    + intros _. right. apply executeLedConfig_keeps_event.
      autorewrite with fields. left.
Qed.

Lemma loop_sends_one_keystroke_witness :
  let st' := delay 20 (executeLedConfig 2
               (emit (KeyboardWrite (activeKeyCode 2 bootState)) bootState)) in
  loop [] 3 bootState = Some st' /\
  countKeys (events st') = (countKeys (events bootState) + 1)%nat.
Proof.
  intros st'.
  assert (E : loop [] 3 bootState = Some st') by (vm_compute; reflexivity).
  split; [exact E|].
  destruct (loop_sends_one_keystroke [] 3 bootState st' E) as (st1 & _ & H2 & _).
  exact H2.
Defined.

(** ** Which verb changes what *)

Lemma touchesLeds_refl (st : State) : touchesLeds st st.
Proof. unfold touchesLeds. repeat split; lia. Qed.

Lemma consumes_touchesLeds (st0 st st' : State) :
  consumes st st' -> touchesLeds st0 st -> touchesLeds st0 st'.
Proof.
  unfold consumes, touchesLeds. intros (?&?&?&?&?&?&?) (?&?&?&?&?&?).
  repeat split; try congruence. lia.
Qed.

Lemma setLed_touchesLeds (st0 : State) (nr onOff : Z) (st : State) :
  touchesLeds st0 st -> touchesLeds st0 (setLed nr onOff st).
Proof. intros H. by destruct (setLed_cases nr onOff st) as [-> | (_ & _ & ->)]. Qed.




Lemma fold_println_consumes {A : Type} (text : A -> State -> string) (l : list A) (st : State) :
  consumes st (fold_left (fun st x => Serial_println (text x st) st) l st).
Proof.
  apply (fold_left_preserves (consumes st)); [|apply consumes_refl].
  intros s x Hs. eapply consumes_trans; [exact Hs | apply consumes_emit].
Qed.




(** The handlers that only report. *)
Lemma reporting_handlers_consume (st : State) :
  consumes st (snd (handleHelp st)) /\ consumes st (snd (handleVersion st)) /\
  consumes st (snd (handleGetLed st)) /\ consumes st (snd (handleShowSettings st)).
Proof.
  split; [|split; [|split]].
  - unfold handleHelp. cbn [snd]. unfold println_P.
    eapply consumes_trans; [|apply consumes_emit].
    eapply consumes_trans; [apply consumes_emit|].
    apply (fold_println_consumes (fun msg _ => String.substring 0 199 msg)).
  - apply consumes_emit.
  - unfold handleGetLed.
    pose proof (parseNumber_consumes 1 KEYCOUNT st) as H.
    destruct (parseNumber 1 KEYCOUNT st) as [nr st1]. cbn [snd] in H.
    destruct (nr =? -1); cbn [snd]; [exact H|].
    eapply consumes_trans; [exact H | apply consumes_emit].
  - unfold handleShowSettings. cbn [snd].
    eapply consumes_trans; [apply consumes_emit|].
    apply (fold_println_consumes settingsLine).
Qed.



(** ** Arguments that are missing or malformed *)

Lemma parseNumber_missing (lo hi : Z) (st : State) :
  nextToken (strtokSave st) = None ->
  parseNumber lo hi st =
  (-1, Serial_print ("Error, missing number" +:+ NL) (set_strtokSave EmptyString st)).
Proof. intros H. unfold parseNumber, strtok_NULL. by rewrite H. Qed.

(** X6.  A verb that needs a number and finds the line used up prints
    "Error, missing number" and returns 1 without any other effect, for its
    first number and, the first being in range, for its second; so do
    configtoggle and setkeychar print their own message when the setting or
    the character is missing. *)
Theorem missing_argument_is_reported :
  (forall e st,
      e ∈ handlers -> declaredRanges (command e) <> [] ->
      nextToken (strtokSave st) = None ->
      handler e st =
      (1, Serial_print ("Error, missing number" +:+ NL) (set_strtokSave EmptyString st))) /\
  (forall e lo0 hi0 r1 st tok0 rest0,
      e ∈ handlers -> declaredRanges (command e) = [(lo0, hi0); r1] ->
      nextToken (strtokSave st) = Some (tok0, rest0) ->
      lo0 <= atoi tok0 <= hi0 ->
      nextToken rest0 = None ->
      handler e st =
      (1, Serial_print ("Error, missing number" +:+ NL) (set_strtokSave EmptyString st))) /\
  (forall st tok0 rest0,
      nextToken (strtokSave st) = Some (tok0, rest0) ->
      1 <= atoi tok0 <= 8 ->
      nextToken rest0 = None ->
      handleConfigToggle st =
      (1, Serial_println "Expected setting flag, one of [t,e,d,f]."
            (set_strtokSave EmptyString st)) /\
      handleSetKeyChar st =
      (1, Serial_println "Expected single character." (set_strtokSave EmptyString st))).
Proof.
  split; [|split].
  - intros e st Hin Hdecl Htok.
    handler_cases Hin; cbn in Hdecl; try done;
      [ unfold handleGetLed | unfold handleToggle | unfold handleOn | unfold handleOff
      | unfold handleFlash | unfold handleActivateKeyMap | unfold handleConfigToggle
      | unfold handleSetKeyCode | unfold handleSetKeyChar ];
      by rewrite (parseNumber_missing _ _ _ Htok).
  - intros e lo0 hi0 r1 st tok0 rest0 Hin Hdecl Htok0 Hin0 Htok.
    handler_cases Hin; cbn in Hdecl; try discriminate;
      injection Hdecl as <- <- <-;
      [ unfold handleFlash | unfold handleSetKeyCode ];
      change KEYCOUNT with 8;
      rewrite (parseNumber_in _ _ _ _ _ Htok0 Hin0);
      (replace (atoi tok0 =? -1) with false by lia);
      by rewrite (parseNumber_missing _ _ (set_strtokSave rest0 st) Htok).
  - intros st tok0 rest0 Htok0 Hin0 Htok.
    unfold handleConfigToggle, handleSetKeyChar. change KEYCOUNT with 8.
    rewrite (parseNumber_in _ _ _ _ _ Htok0 Hin0).
    replace (atoi tok0 =? -1) with false by lia.
    unfold strtok_NULL. cbn [strtokSave set_strtokSave]. by rewrite Htok.
Qed.

Lemma missing_argument_is_reported_witness :
  let st := snd (strtok_readBuffer (typed "flash 3" bootState)) in
  handler (mkEntry "f" "flash" MSG_FLASH handleFlash) st =
  (1, Serial_print ("Error, missing number" +:+ NL) (set_strtokSave EmptyString st)).
Proof.
  intros st.
  apply (proj1 (proj2 missing_argument_is_reported)
               (mkEntry "f" "flash" MSG_FLASH handleFlash) 1 8 (10, 500) st
               "3"%string EmptyString).
  - unfold handlers. do 6 right. left.
  - reflexivity.
  - vm_compute. reflexivity.
  - assert (atoi "3" = 3) as -> by reflexivity. lia.
  - reflexivity.
Defined.

(** The test of [handleConfigToggle] on its setting: being found in "tedf"
    and having length 1 is being one of the four settings. *)
Lemma setting_accepted (s : string) :
  negb (strstr "tedf" s) || negb (String.length s =? 1)%nat = false <-> s ∈ ledSettings.
Proof.
  unfold ledSettings. split.
  - destruct s as [|c [|c' s']]; [discriminate| |by rewrite orb_true_r].
    destruct c as [[] [] [] [] [] [] [] []]; try discriminate; intros _;
      repeat first [by left | right].
  - intros H. repeat (apply elem_of_cons in H as [->|H]; [reflexivity|]).
    by apply elem_of_nil in H.
Qed.

(** X7.  configtoggle takes exactly the settings t, e, d and f.  With the
    key number in range, such a setting is stored in the entry of that key
    in the led configuration of the active map and 0 is returned; any other
    token (a longer piece of "tedf" such as "ed", or any other text) gets
    "Expected setting flag, one of [t,e,d,f]." and 1, and nothing is
    stored. *)
Theorem configtoggle_takes_four_settings (st : State) (tok0 rest0 s rest : string) :
  nextToken (strtokSave st) = Some (tok0, rest0) ->
  1 <= atoi tok0 <= 8 ->
  nextToken rest0 = Some (s, rest) ->
  (s ∈ ledSettings ->
   handleConfigToggle st =
   (0, storeLedConfig (Z.to_nat (atoi tok0 - 1)) (firstChar s) (set_strtokSave rest st))) /\
  (s ∉ ledSettings ->
   handleConfigToggle st =
   (1, Serial_println "Expected setting flag, one of [t,e,d,f]." (set_strtokSave rest st))).
Proof.
  intros Htok0 Hin0 Htok.
  unfold handleConfigToggle. change KEYCOUNT with 8.
  rewrite (parseNumber_in _ _ _ _ _ Htok0 Hin0).
  replace (atoi tok0 =? -1) with false by lia.
  unfold strtok_NULL. cbn [strtokSave set_strtokSave]. rewrite Htok. cbv zeta.
  split; intros Hs.
  - apply setting_accepted in Hs. by rewrite Hs.
  - destruct (negb (strstr "tedf" s) || negb (String.length s =? 1)%nat) eqn:E; [done|].
    apply setting_accepted in E. done.
Qed.

Lemma configtoggle_takes_four_settings_witness :
  let st := snd (strtok_readBuffer (typed "c 2 ed" bootState)) in
  handleConfigToggle st =
  (1, Serial_println "Expected setting flag, one of [t,e,d,f]."
        (set_strtokSave EmptyString st)).
Proof.
  intros st.
  apply (proj2 (configtoggle_takes_four_settings st "2" "ed" "ed" EmptyString
                  ltac:(vm_compute; reflexivity)
                  ltac:(assert (atoi "2" = 2) as -> by reflexivity; lia)
                  eq_refl)).
  unfold ledSettings. intros H.
  repeat (apply elem_of_cons in H as [H|H]; [discriminate|]).
  by apply elem_of_nil in H.
Defined.

(** ** Key codes by number and by character *)

(** A key code printed in decimal is read back by [atoi] as the same code,
    and [(char) (code & 255)] gives back the byte. *)
Lemma keycode_text_round_trip (c : ascii) :
  atoi (decimal (uint8_of_char c)) = uint8_of_char c /\
  char_of_int (uint8_of_char c) = c /\
  0 <= uint8_of_char c <= 255.
Proof.
  destruct c as [[] [] [] [] [] [] [] []]; vm_compute; repeat split; discriminate.
Qed.

(** X8.  setkeycode and setkeychar write the same byte into the entry of
    the key in the key map of the active map: setkeycode the byte whose
    number it is given (0..255), setkeychar the one character of its token
    (a token of any other length gets "Expected single character." and
    nothing is stored).  In particular the key code that showsettings
    prints for a byte, given to setkeycode, stores that byte again. *)
Theorem setkeycode_and_setkeychar_store_the_byte
        (st : State) (tok0 rest0 tok rest : string) :
  nextToken (strtokSave st) = Some (tok0, rest0) ->
  1 <= atoi tok0 <= 8 ->
  nextToken rest0 = Some (tok, rest) ->
  let i := Z.to_nat (atoi tok0 - 1) in
  (0 <= atoi tok <= 255 ->
   handleSetKeyCode st = (0, storeKey i (char_of_int (atoi tok)) (set_strtokSave rest st))) /\
  (forall c, tok = String c EmptyString ->
   handleSetKeyChar st = (0, storeKey i c (set_strtokSave rest st))) /\
  (String.length tok <> 1%nat ->
   handleSetKeyChar st =
   (1, Serial_println "Expected single character." (set_strtokSave rest st))) /\
  (forall c, tok = decimal (uint8_of_char c) ->
   handleSetKeyCode st = (0, storeKey i c (set_strtokSave rest st))).
Proof.
  intros Htok0 Hin0 Htok. cbv zeta.
  assert (Hcode : 0 <= atoi tok <= 255 ->
                  handleSetKeyCode st =
                  (0, storeKey (Z.to_nat (atoi tok0 - 1)) (char_of_int (atoi tok))
                        (set_strtokSave rest st))).
  { intros Hin. unfold handleSetKeyCode. change KEYCOUNT with 8.
    rewrite (parseNumber_in _ _ _ _ _ Htok0 Hin0).
    replace (atoi tok0 =? -1) with false by lia.
    rewrite (parseNumber_in 0 255 (set_strtokSave rest0 st) tok rest Htok Hin).
    by replace (atoi tok =? -1) with false by lia. }
  split; [exact Hcode|].
  assert (Hchar : handleSetKeyChar st =
                  if negb (String.length tok =? 1)%nat
                  then (1, Serial_println "Expected single character." (set_strtokSave rest st))
                  else (0, storeKey (Z.to_nat (atoi tok0 - 1)) (firstChar tok)
                             (set_strtokSave rest st))).
  { unfold handleSetKeyChar. change KEYCOUNT with 8.
    rewrite (parseNumber_in _ _ _ _ _ Htok0 Hin0).
    replace (atoi tok0 =? -1) with false by lia.
    unfold strtok_NULL. cbn [strtokSave set_strtokSave]. by rewrite Htok. }
  split; [intros c ->; by rewrite Hchar|].
  split.
  - intros Hlen. rewrite Hchar.
    by replace (String.length tok =? 1)%nat with false by (symmetry; by apply Nat.eqb_neq).
  - intros c ->. destruct (keycode_text_round_trip c) as (Ha & Hc & Hr).
    rewrite Hcode by (rewrite Ha; exact Hr). by rewrite Ha, Hc.
Qed.

Lemma setkeycode_and_setkeychar_store_the_byte_witness :
  let st := snd (strtok_readBuffer (typed "k 1 65" bootState)) in
  handleSetKeyCode st =
  (0, storeKey (Z.to_nat (atoi "1" - 1)) (char_of_int (atoi "65"))
        (set_strtokSave EmptyString st)).
Proof.
  intros st.
  apply (proj1 (setkeycode_and_setkeychar_store_the_byte st "1" "65" "65" EmptyString
                  ltac:(vm_compute; reflexivity)
                  ltac:(assert (atoi "1" = 1) as -> by reflexivity; lia)
                  eq_refl)).
  assert (atoi "65" = 65) as -> by reflexivity. lia.
Defined.

(** ** One led at a time *)

(** X9.  The led operations act on one led.  For a led number in 0..7 of a
    led state with 8 entries, [setLed] with 0 or 1 stores that value for
    the led and leaves every other led as it was, and doing it twice
    gives the led state of doing it once; [toggleLed] turns a led that is
    off (0) on and any other off, and leaves every other led as it was. *)
Theorem led_operations_act_on_one_led (st : State) (nr onOff : Z) :
  length (ledState st) = 8%nat -> 0 <= nr <= 7 -> 0 <= onOff <= 1 ->
  ledState (setLed nr onOff st) !!! Z.to_nat nr = onOff /\
  (forall j, j <> Z.to_nat nr ->
             ledState (setLed nr onOff st) !!! j = ledState st !!! j) /\
  ledState (setLed nr onOff (setLed nr onOff st)) = ledState (setLed nr onOff st) /\
  ledState (toggleLed nr st) !!! Z.to_nat nr =
    (if (ledState st !!! Z.to_nat nr) =? 0 then 1 else 0) /\
  (forall j, j <> Z.to_nat nr ->
             ledState (toggleLed nr st) !!! j = ledState st !!! j).
Proof.
  intros Hlen Hnr Hv.
  assert (Hset : forall v s, 0 <= v <= 1 ->
                 ledState (setLed nr v s) = <[Z.to_nat nr := v]> (ledState s)).
  { intros v s Hv'. rewrite setLed_in_range by (change KEYCOUNT with 8; lia).
    by autorewrite with fields. }
  assert (Htoggle : ledState (toggleLed nr st) =
                    <[Z.to_nat nr := if (ledState st !!! Z.to_nat nr) =? 0 then 1 else 0]>
                      (ledState st)).
  { unfold toggleLed.
    replace ((nr <? 0) || (nr >=? KEYCOUNT)) with false by (change KEYCOUNT with 8; lia).
    destruct (_ =? 0); by rewrite Hset by lia. }
  split; [rewrite Hset by done; apply list_lookup_total_insert_eq; lia|].
  split; [intros j Hj; rewrite Hset by done; by apply list_lookup_total_insert_ne|].
  split; [rewrite !Hset by done; apply list_insert_insert_eq|].
  split; [rewrite Htoggle; apply list_lookup_total_insert_eq; lia|].
  intros j Hj. rewrite Htoggle. by apply list_lookup_total_insert_ne.
Qed.

Lemma led_operations_act_on_one_led_witness :
  ledState (setLed 5 1 (powerOn blankRom)) !!! Z.to_nat 5 = 1.
Proof.
  apply (led_operations_act_on_one_led (powerOn blankRom) 5 1); [reflexivity | lia | lia].
Defined.

(** ** Flashing and the key-press behaviors *)

Lemma flash_steps (nr ms : Z) (st : State) :
  length (ledState st) = 8%nat -> 0 <= nr <= 7 ->
  let st' := delay ms (setLed nr 0 (delay ms (setLed nr 1 st))) in
  ledState st' = <[Z.to_nat nr := 0]> (ledState st) /\
  history st' = history st ++
                [DigitalWrite (nr + 2) LOW; Delay ms; DigitalWrite (nr + 2) HIGH; Delay ms] /\
  config st' = config st /\ useAlternateKeyMap st' = useAlternateKeyMap st /\
  eeprom st' = eeprom st /\ strtokSave st' = strtokSave st.
Proof.
  intros Hlen Hnr. cbv zeta. unfold delay.
  rewrite !setLed_in_range by (change KEYCOUNT with 8; lia).
  unfold history. autorewrite with fields.
  rewrite list_insert_insert_eq.
  rewrite (ledPin_lookup (Z.to_nat nr)) by lia.
  replace (Z.of_nat (Z.to_nat nr) + 2) with (nr + 2) by lia.
  repeat split. cbn [rev Z.eqb]. by rewrite <- !app_assoc.
Qed.

(** X10.  flash with a led number NR in 1..8 and a time MS in 10..500
    drives the pin of that led LOW (lit), waits MS milliseconds, drives it
    HIGH, waits MS milliseconds again and returns 0; the led is stored as
    off afterwards whatever it was before, and no other led, no setting and
    nothing in the EEPROM has changed. *)
Theorem flash_blinks_one_led (st : State) (tok0 rest0 tok rest : string) :
  length (ledState st) = 8%nat ->
  nextToken (strtokSave st) = Some (tok0, rest0) ->
  1 <= atoi tok0 <= 8 ->
  nextToken rest0 = Some (tok, rest) ->
  10 <= atoi tok <= 500 ->
  let st' := snd (handleFlash st) in
  fst (handleFlash st) = 0 /\
  ledState st' = <[Z.to_nat (atoi tok0 - 1) := 0]> (ledState st) /\
  history st' = history st ++
                [DigitalWrite (atoi tok0 + 1) LOW; Delay (atoi tok);
                 DigitalWrite (atoi tok0 + 1) HIGH; Delay (atoi tok)] /\
  config st' = config st /\ useAlternateKeyMap st' = useAlternateKeyMap st /\
  eeprom st' = eeprom st /\ strtokSave st' = rest.
Proof.
  intros Hlen Htok0 Hin0 Htok Hin. cbv zeta.
  unfold handleFlash. change KEYCOUNT with 8.
  rewrite (parseNumber_in _ _ _ _ _ Htok0 Hin0).
  replace (atoi tok0 =? -1) with false by lia.
  rewrite (parseNumber_in 10 500 (set_strtokSave rest0 st) tok rest Htok Hin).
  replace (atoi tok =? -1) with false by lia.
  cbn [fst snd]. split; [reflexivity|].
  pose proof (flash_steps (atoi tok0 - 1) (atoi tok) (set_strtokSave rest st)) as H.
  cbv zeta in H. unfold history in *. autorewrite with fields in H.
  replace (atoi tok0 - 1 + 2) with (atoi tok0 + 1) in H by lia.
  apply H; [exact Hlen | lia].
Qed.

Lemma flash_blinks_one_led_witness :
  let st := snd (strtok_readBuffer (typed "f 2 100" bootState)) in
  ledState (snd (handleFlash st)) = <[Z.to_nat (atoi "2" - 1) := 0]> (ledState st).
Proof.
  intros st.
  apply (flash_blinks_one_led st "2" "100" "100" EmptyString
           ltac:(vm_compute; reflexivity) ltac:(vm_compute; reflexivity)
           ltac:(assert (atoi "2" = 2) as -> by reflexivity; lia)
           eq_refl
           ltac:(assert (atoi "100" = 100) as -> by reflexivity; lia)).
Defined.

(** The led setting of a key in the active map, as [executeLedConfig] reads
    it. *)
Lemma executeLedConfig_by_setting (nr : Z) (st : State) :
  0 <= nr <= 7 ->
  let setting := if useAlternateKeyMap st then ledConfig2 (config st) !!! Z.to_nat nr
                 else ledConfig1 (config st) !!! Z.to_nat nr in
  executeLedConfig nr st =
  if Ascii.eqb setting "t" then toggleLed nr st
  else if Ascii.eqb setting "e" then setLed nr 1 st
  else if Ascii.eqb setting "d" then setLed nr 0 st
  else if Ascii.eqb setting "f" then delay 150 (setLed nr 0 (delay 150 (setLed nr 1 st)))
  else st.
Proof.
  intros Hnr. cbv zeta. unfold executeLedConfig.
  replace ((nr <? 0) || (nr >=? KEYCOUNT)) with false by (change KEYCOUNT with 8; lia).
  cbv zeta.
  destruct (Ascii.eqb_spec
              (if useAlternateKeyMap st then ledConfig2 (config st) !!! Z.to_nat nr
               else ledConfig1 (config st) !!! Z.to_nat nr) "t") as [->|Ht]; [reflexivity|].
  destruct (Ascii.eqb_spec
              (if useAlternateKeyMap st then ledConfig2 (config st) !!! Z.to_nat nr
               else ledConfig1 (config st) !!! Z.to_nat nr) "e") as [->|He]; [reflexivity|].
  destruct (Ascii.eqb_spec
              (if useAlternateKeyMap st then ledConfig2 (config st) !!! Z.to_nat nr
               else ledConfig1 (config st) !!! Z.to_nat nr) "d") as [->|Hd]; reflexivity.
Qed.

(** X11.  What a key press does to the led of the key, by the setting the
    active map holds for that key: t toggles it, e turns it on, d turns it
    off, f lights it for 150 ms and leaves it off after another 150 ms, and
    any other byte (as a payload loaded from a corrupted EEPROM may hold)
    leaves the whole state untouched.  The four tests of the sketch are not
    chained by else, yet exactly one behavior runs.  A key index outside
    0..7 leaves the state untouched too. *)
Theorem key_press_led_behavior (nr : Z) (st : State) :
  let setting := if useAlternateKeyMap st then ledConfig2 (config st) !!! Z.to_nat nr
                 else ledConfig1 (config st) !!! Z.to_nat nr in
  ((nr < 0 \/ 7 < nr) -> executeLedConfig nr st = st) /\
  (0 <= nr <= 7 ->
   (setting = "t"%char -> executeLedConfig nr st = toggleLed nr st) /\
   (setting = "e"%char -> executeLedConfig nr st = setLed nr 1 st) /\
   (setting = "d"%char -> executeLedConfig nr st = setLed nr 0 st) /\
   (setting = "f"%char ->
    executeLedConfig nr st = delay 150 (setLed nr 0 (delay 150 (setLed nr 1 st)))) /\
   (setting <> "t"%char -> setting <> "e"%char -> setting <> "d"%char ->
    setting <> "f"%char -> executeLedConfig nr st = st)).
Proof.
  cbv zeta. split.
  - intros Hnr. unfold executeLedConfig.
    by replace ((nr <? 0) || (nr >=? KEYCOUNT)) with true by (change KEYCOUNT with 8; lia).
  - intros Hnr. pose proof (executeLedConfig_by_setting nr st Hnr) as H. cbv zeta in H.
    rewrite H. clear H.
    repeat split.
    + by intros ->.
    + by intros ->.
    + by intros ->.
    + by intros ->.
    + intros Ht He Hd Hf.
      repeat match goal with
             | |- context [Ascii.eqb ?a ?b] => destruct (Ascii.eqb_spec a b); [done|]
             end.
      reflexivity.
Qed.

Lemma key_press_led_behavior_witness :
  executeLedConfig 3 bootState = toggleLed 3 bootState.
Proof.
  assert (Hnr : 0 <= 3 <= 7) by lia.
  assert (Hsetting : (if useAlternateKeyMap bootState
                      then ledConfig2 (config bootState) !!! Z.to_nat 3
                      else ledConfig1 (config bootState) !!! Z.to_nat 3) = "t"%char)
    by (vm_compute; reflexivity).
  exact (proj1 (proj2 (key_press_led_behavior 3 bootState) Hnr) Hsetting).
Defined.

(** ** The persisted record *)

Lemma handlePersist_eeprom (st : State) : eeprom (snd (handlePersist st)) = persistedRom st.
Proof. reflexivity. Qed.

(** X12.  The record [handlePersist] writes: the tag 2306 in cells 0 and 1,
    low byte first, then the 8 bytes of the primary key map, of the
    alternate key map, of the primary led configuration and of the
    alternate led configuration, in cells 2 to 33; every cell from 34 on is
    left as it was, and nothing but the EEPROM and the trace changes. *)
Theorem persist_layout (st : State) :
  configOk (config st) ->
  let rom := eeprom (snd (handlePersist st)) in
  uint8_of_char (rom 0%nat) = 2 /\ uint8_of_char (rom 1%nat) = 9 /\
  (forall i c, keyMap1 (config st) !! i = Some c -> rom (2 + i)%nat = c) /\
  (forall i c, keyMap2 (config st) !! i = Some c -> rom (10 + i)%nat = c) /\
  (forall i c, ledConfig1 (config st) !! i = Some c -> rom (18 + i)%nat = c) /\
  (forall i c, ledConfig2 (config st) !! i = Some c -> rom (26 + i)%nat = c) /\
  (forall a, (34 <= a)%nat -> rom a = eeprom st a) /\
  config (snd (handlePersist st)) = config st /\
  ledState (snd (handlePersist st)) = ledState st /\
  history (snd (handlePersist st)) =
    history st ++ [SerialPrint ("Config persisted." +:+ CRLF)].
Proof.
  intros (H1 & H2 & H3 & H4). change (Z.to_nat KEYCOUNT) with 8%nat in *.
  cbv zeta. rewrite handlePersist_eeprom. unfold persistedRom, sizeof_int.
  assert (Hlen : length (configBytes (config st)) = 32%nat)
    by (unfold configBytes; rewrite !length_app; lia).
  assert (Hcell : forall a c, configBytes (config st) !! a = Some c ->
                  EEPROM_put 2 (configBytes (config st))
                             (EEPROM_put 0 (intBytes VERSION_TAG) (eeprom st)) (2 + a)%nat = c)
    by (intros a c Ha; by apply EEPROM_put_inside).
  split; [by rewrite EEPROM_put_outside by lia|].
  split; [by rewrite EEPROM_put_outside by lia|].
  split.
  { intros i c Hi. apply Hcell. unfold configBytes. by apply lookup_app_l_Some. }
  split.
  { intros i c Hi. replace (10 + i)%nat with (2 + (8 + i))%nat by lia. apply Hcell.
    unfold configBytes. rewrite lookup_app_r by lia.
    replace (8 + i - length (keyMap1 (config st)))%nat with i by lia.
    by apply lookup_app_l_Some. }
  split.
  { intros i c Hi. replace (18 + i)%nat with (2 + (16 + i))%nat by lia. apply Hcell.
    unfold configBytes. rewrite lookup_app_r by lia. rewrite lookup_app_r by lia.
    replace (16 + i - length (keyMap1 (config st)) - length (keyMap2 (config st)))%nat
      with i by lia.
    by apply lookup_app_l_Some. }
  split.
  { intros i c Hi. replace (26 + i)%nat with (2 + (24 + i))%nat by lia. apply Hcell.
    unfold configBytes. rewrite lookup_app_r by lia. rewrite lookup_app_r by lia.
    rewrite lookup_app_r by lia.
    replace (24 + i - length (keyMap1 (config st)) - length (keyMap2 (config st))
             - length (ledConfig1 (config st)))%nat with i by lia.
    exact Hi. }
  split.
  { intros a Ha. rewrite !EEPROM_put_outside by (rewrite ?Hlen; cbn; lia). reflexivity. }
  repeat split.
Qed.

Lemma persist_layout_witness :
  uint8_of_char (eeprom (snd (handlePersist (powerOn blankRom))) 0%nat) = 2.
Proof.
  apply (persist_layout (powerOn blankRom)). apply defaultConfig_configOk.
Defined.

Lemma storedTag_eeprom (st st' : State) : eeprom st' = eeprom st -> storedTag st' = storedTag st.
Proof. unfold storedTag. by intros ->. Qed.

Lemma storedConfig_eeprom (st st' : State) :
  eeprom st' = eeprom st -> storedConfig st' = storedConfig st.
Proof. unfold storedConfig. by intros ->. Qed.

Lemma handleLoad_config (st : State) :
  config (snd (handleLoad st)) =
  if storedTag st =? VERSION_TAG then storedConfig st else config st.
Proof.
  unfold handleLoad. fold (storedTag st) (storedConfig st).
  by destruct (storedTag st =? VERSION_TAG).
Qed.

(** X13.  What was persisted is what comes back, whatever happened to the
    configuration in memory meanwhile: in any state whose EEPROM is as
    [handlePersist] left it, [handleLoad] makes the configuration the
    persisted one (edits made since are lost), and a pad powered on with
    that EEPROM has the persisted configuration after [setup]. *)
Theorem persisted_configuration_comes_back (st : State) :
  configOk (config st) ->
  (forall st2, eeprom st2 = eeprom (snd (handlePersist st)) ->
               config (snd (handleLoad st2)) = config st) /\
  config (setup (powerOn (eeprom (snd (handlePersist st))))) = config st.
Proof.
  intros Hok. destruct (handlePersist_stored st Hok) as [Htag Hcfg].
  assert (Hload : forall st2, eeprom st2 = eeprom (snd (handlePersist st)) ->
                              config (snd (handleLoad st2)) = config st).
  { intros st2 Hrom. rewrite handleLoad_config.
    rewrite (storedTag_eeprom _ _ Hrom), (storedConfig_eeprom _ _ Hrom), Htag, Hcfg.
    by rewrite Z.eqb_refl. }
  split; [exact Hload|].
  rewrite setup_config. by apply Hload.
Qed.

Lemma persisted_configuration_comes_back_witness :
  let st := storeKey 0 "A" (powerOn blankRom) in
  config (setup (powerOn (eeprom (snd (handlePersist st))))) = config st.
Proof.
  intros st. apply (persisted_configuration_comes_back st). by repeat split.
Defined.

(** ** The state after boot *)

Lemma startupLedAnimation_ledState (st : State) :
  ledOk st -> ledState (startupLedAnimation st) = ledState st.
Proof.
  intros Hok. destruct (ledOk_inv st Hok) as (a0&a1&a2&a3&a4&a5&a6&a7&Hled&Hrange).
  destruct Hrange as (?&?&?&?&?&?&?&?).
  unfold startupLedAnimation. cbv zeta.
  rewrite animation_frames by (by rewrite Hled).
  rewrite Hled.
  change (take (Z.to_nat KEYCOUNT) [a0; a1; a2; a3; a4; a5; a6; a7])
    with [a0; a1; a2; a3; a4; a5; a6; a7].
  change (seq 0 (Z.to_nat KEYCOUNT)) with [0; 1; 2; 3; 4; 5; 6; 7]%nat.
  cbn [fold_left].
  change ([a0; a1; a2; a3; a4; a5; a6; a7] !!! 0%nat) with a0.
  change ([a0; a1; a2; a3; a4; a5; a6; a7] !!! 1%nat) with a1.
  change ([a0; a1; a2; a3; a4; a5; a6; a7] !!! 2%nat) with a2.
  change ([a0; a1; a2; a3; a4; a5; a6; a7] !!! 3%nat) with a3.
  change ([a0; a1; a2; a3; a4; a5; a6; a7] !!! 4%nat) with a4.
  change ([a0; a1; a2; a3; a4; a5; a6; a7] !!! 5%nat) with a5.
  change ([a0; a1; a2; a3; a4; a5; a6; a7] !!! 6%nat) with a6.
  change ([a0; a1; a2; a3; a4; a5; a6; a7] !!! 7%nat) with a7.
  rewrite !setLed_in_range by (done || (unfold KEYCOUNT, ROWS, COLS; lia)).
  reflexivity.
Qed.

Lemma initLeds_ledState (st : State) :
  length (ledState st) = 8%nat ->
  ledState (fold_left (fun st i => setLed (Z.of_nat i) 0 (emit (PinModeOutput (ledPin !!! i)) st))
                      (seq 0 (Z.to_nat KEYCOUNT)) st) = [0; 0; 0; 0; 0; 0; 0; 0].
Proof.
  intros Hlen. destruct st as [cfg alt leds buf ptr tok rom evs]. cbn in Hlen.
  destruct leds as [|a0 [|a1 [|a2 [|a3 [|a4 [|a5 [|a6 [|a7 [|? ?]]]]]]]]];
    try discriminate.
  reflexivity.
Qed.

(** [setup] after the load: only leds and trace change. *)
Lemma setup_touches (st : State) :
  touchesLeds (clearReadBuffer (snd (handleLoad (emit (SerialBegin 115200) st)))) (setup st).
Proof.
  rewrite setup_unfold.
  generalize (clearReadBuffer (snd (handleLoad (emit (SerialBegin 115200) st)))). intros s0.
  assert (Hemit : forall e s, touchesLeds s0 s -> touchesLeds s0 (emit e s))
    by (intros e s Hs; exact (consumes_touchesLeds s0 s (emit e s) (consumes_emit e s) Hs)).
  apply (P_startupLedAnimation (touchesLeds s0) (consumes_touchesLeds s0)
                               (setLed_touchesLeds s0)).
  apply Hemit.
  apply (fold_left_preserves (touchesLeds s0)); [|apply touchesLeds_refl].
  intros s i Hs. by apply setLed_touchesLeds, Hemit.
Qed.

Lemma handleLoad_other_fields (st : State) :
  useAlternateKeyMap (snd (handleLoad st)) = useAlternateKeyMap st /\
  ledState (snd (handleLoad st)) = ledState st /\
  readBuffer (snd (handleLoad st)) = readBuffer st /\
  readBufferPtr (snd (handleLoad st)) = readBufferPtr st /\
  eeprom (snd (handleLoad st)) = eeprom st.
Proof. unfold handleLoad. by destruct (_ =? VERSION_TAG). Qed.

(** X14.  The state [setup] leaves after power-on, whatever the EEPROM
    holds: every led off, the primary map active, the input buffer empty
    with its write position at the start, no keystroke sent, the EEPROM
    untouched, and the configuration either the stored payload (tag 2306
    found) or the compiled-in defaults. *)
Theorem state_after_boot (rom : nat -> ascii) :
  let st := setup (powerOn rom) in
  ledState st = [0; 0; 0; 0; 0; 0; 0; 0] /\
  useAlternateKeyMap st = false /\
  bufferOk st /\ cstr (readBuffer st) = EmptyString /\ readBufferPtr st = 0%nat /\
  countKeys (events st) = 0%nat /\
  eeprom st = rom /\
  config st = if storedTag (powerOn rom) =? VERSION_TAG
              then storedConfig (powerOn rom) else defaultConfig.
Proof.
  cbv zeta.
  pose proof (setup_touches (powerOn rom)) as (_ & Halt & Hbuf & Hptr & Hrom & _).
  pose proof (handleLoad_other_fields (emit (SerialBegin 115200) (powerOn rom)))
    as (Halt0 & Hled0 & Hbuf0 & Hptr0 & Hrom0).
  unfold clearReadBuffer in Halt, Hbuf, Hptr, Hrom. autorewrite with fields in *.
  assert (Hleds : ledState (setup (powerOn rom)) = [0; 0; 0; 0; 0; 0; 0; 0]).
  { rewrite setup_unfold.
    assert (Hinit := initLeds_ledState
                       (clearReadBuffer (snd (handleLoad (emit (SerialBegin 115200) (powerOn rom)))))
                       ltac:(autorewrite with fields; by rewrite Hled0)).
    rewrite startupLedAnimation_ledState; autorewrite with fields; [exact Hinit|].
    split; autorewrite with fields; rewrite Hinit; [reflexivity | repeat constructor]. }
  split; [exact Hleds|].
  split; [by rewrite Halt, Halt0|].
  assert (Hb : readBuffer (setup (powerOn rom)) = <[0%nat := NUL]> (replicate 80 NUL))
    by (by rewrite Hbuf, Hbuf0).
  assert (Hline : cstr (readBuffer (setup (powerOn rom))) = EmptyString)
    by (rewrite Hb; by apply cstr_cleared).
  split.
  { unfold bufferOk, sizeof_readBuffer. rewrite Hline, Hptr, Hb.
    rewrite length_insert, length_replicate. cbn. repeat split. lia. }
  split; [exact Hline|].
  split; [exact Hptr|].
  split.
  { apply (K_setup (hasKeys 0) (hasKeys_quiet 0) (hasKeys_setLed 0));
      try (intros; assumption). reflexivity. }
  split; [by rewrite Hrom, Hrom0|].
  rewrite setup_config, handleLoad_config.
  by rewrite (storedTag_eeprom (powerOn rom) (emit (SerialBegin 115200) (powerOn rom)) eq_refl),
       (storedConfig_eeprom (powerOn rom) (emit (SerialBegin 115200) (powerOn rom)) eq_refl).
Qed.

(** ** Serial input without NUL characters *)

(** X15.  Serial input that contains no NUL character never stores outside
    [readBuffer], however long it is and however many lines it holds: from
    a state whose write position is at the end of the line in the buffer,
    [handleSerialReceive] returns a state of that kind again. *)
Theorem nul_free_input_stays_in_buffer (incoming : list ascii) (st : State) :
  bufferOk st -> Forall (fun c => c <> NUL) incoming ->
  exists st', handleSerialReceive incoming st = Some st' /\ bufferOk st'.
Proof.
  intros Hok Hall. revert st Hok.
  induction Hall as [|c incoming Hc Hall IH]; intros st Hok; [by exists st|].
  cbn [handleSerialReceive].
  destruct (decide (c = CR \/ c = LF)) as [Hterm|Hord].
  - rewrite receiveChar_terminator by exact Hterm. cbn [mbind option_bind].
    apply IH. destruct (0 <? strlen (readBuffer st)); [|exact Hok].
    apply bufferOk_cleared. rewrite executeSerialCommands_readBuffer. apply Hok.
  - destruct (receiveChar_ordinary c st Hok) as (st1 & -> & Hok1 & _).
    + split; [exact Hc|]. split; intros ->; apply Hord; auto.
    + cbn [mbind option_bind]. by apply IH.
Qed.

Lemma nul_free_input_stays_in_buffer_witness :
  exists st',
    handleSerialReceive (replicate 200 "x"%char ++ [CR; LF] ++ replicate 90 " "%char)
                        (powerOn blankRom) = Some st' /\
    bufferOk st'.
Proof.
  apply (nul_free_input_stays_in_buffer _ (powerOn blankRom)).
  - vm_compute. repeat split; lia.
  - apply Forall_app. split; [apply Forall_replicate; discriminate|].
    apply Forall_app. split; [repeat constructor; discriminate|].
    apply Forall_replicate; discriminate.
Defined.

(** ** Lines with nothing to run *)

Lemma nextToken_spaces (line : string) :
  Forall (fun c => c = SPACE) (list_ascii_of_string line) -> nextToken line = None.
Proof.
  unfold nextToken. intros H.
  assert (Hskip : skipDelims line = EmptyString).
  { induction line as [|c line IH]; [reflexivity|].
    cbn in H. apply Forall_cons_1 in H as [-> H]. cbn. by apply IH. }
  by rewrite Hskip.
Qed.

(** X16.  A line made of spaces only (or of nothing) runs no command and
    prints nothing, not even "Unknown Command Error": only the position in
    the line is moved to its end. *)
Theorem blank_line_runs_nothing (st : State) :
  Forall (fun c => c = SPACE) (list_ascii_of_string (cstr (readBuffer st))) ->
  executeSerialCommands st = set_strtokSave EmptyString st.
Proof.
  intros H. unfold executeSerialCommands, strtok_readBuffer, strtok_NULL.
  cbn [strtokSave set_strtokSave]. rewrite (nextToken_spaces _ H).
  by destruct (String.length _).
Qed.

Lemma blank_line_runs_nothing_witness :
  executeSerialCommands (typed "   " (powerOn blankRom)) =
  set_strtokSave EmptyString (typed "   " (powerOn blankRom)).
Proof.
  apply (blank_line_runs_nothing (typed "   " (powerOn blankRom))).
  replace (cstr (readBuffer (typed "   " (powerOn blankRom)))) with "   "%string
    by (vm_compute; reflexivity).
  repeat constructor.
Defined.

(** ** The names of the verbs *)

Lemma findHandler_name (w : string) (table : list HandlerEntry) (e : HandlerEntry) :
  findHandler w table = Some e -> w = command e \/ w = shortcode e.
Proof.
  induction table as [|e' t IH]; [discriminate|].
  cbn [findHandler].
  destruct (String.eqb_spec (command e') w) as [Hc|_]; cbn [orb].
  - intros [= <-]. by left.
  - destruct (String.eqb_spec (shortcode e') w) as [Hs|_]; [|exact IH].
    intros [= <-]. by right.
Qed.

(** X17.  The full name and the one-character shortcode of a verb are
    interchangeable: looking up either name of an entry of the table finds
    that very entry (no name of an earlier entry hides it), and a word that
    finds an entry is one of the two names of that entry, letter for
    letter. *)
Theorem verb_names_are_interchangeable :
  (forall e, e ∈ handlers ->
             findHandler (command e) handlers = Some e /\
             findHandler (shortcode e) handlers = Some e) /\
  (forall w e, findHandler w handlers = Some e -> w = command e \/ w = shortcode e).
Proof.
  split.
  - intros e Hin. handler_cases Hin; split; reflexivity.
  - intros w e. apply findHandler_name.
Qed.

Lemma verb_names_are_interchangeable_witness :
  findHandler "k" handlers = Some (mkEntry "k" "setkeycode" MSG_SETKEYCODE handleSetKeyCode).
Proof.
  apply (proj1 verb_names_are_interchangeable
               (mkEntry "k" "setkeycode" MSG_SETKEYCODE handleSetKeyCode)).
  unfold handlers. do 11 right. left.
Defined.

(** ** What help and showsettings print *)

(** X18.  help prints "Valid commands:", then the help text of every entry
    of the handler table, in table order and each complete (none reaches
    the 199 characters that [println_P] copies), then the closing note; it
    returns 0 and changes nothing else. *)
Theorem help_lists_every_verb (st : State) :
  fst (handleHelp st) = 0 /\
  history (snd (handleHelp st)) =
    history st ++
    [SerialPrint (MSG_HELP_START +:+ CRLF)] ++
    map (fun e => SerialPrint (help e +:+ CRLF)) handlers ++
    [SerialPrint (MSG_HELP_END +:+ CRLF)] /\
  consumes st (snd (handleHelp st)) /\
  strtokSave (snd (handleHelp st)) = strtokSave st.
Proof.
  split; [reflexivity|].
  split; [|split; [exact (proj1 (reporting_handlers_consume st))|]].
  2: { unfold handleHelp, println_P, Serial_println. cbn [snd fold_left helpColumn].
       by autorewrite with fields. }
  unfold history, handleHelp, println_P, Serial_println.
  cbn [snd fold_left helpColumn]. autorewrite with fields.
  cbn [rev]. rewrite <- !app_assoc. reflexivity.
Qed.

Lemma cstr_length (l : list ascii) : (String.length (cstr l) <= length l)%nat.
Proof.
  induction l as [|c l IH]; cbn; [lia|]. destruct (Ascii.eqb c NUL); cbn; lia.
Qed.

Lemma list_ascii_of_string_length (s : string) :
  length (list_ascii_of_string s) = String.length s.
Proof. induction s as [|c s IH]; cbn; [reflexivity | by rewrite IH]. Qed.

Lemma decimal_byte_length (c : ascii) : (String.length (decimal (uint8_of_char c)) <= 3)%nat.
Proof. destruct c as [[] [] [] [] [] [] [] []]; vm_compute; lia. Qed.

Lemma decimal_key_number_length (i : nat) :
  (i < 8)%nat -> String.length (decimal (Z.of_nat i + 1)) = 1%nat.
Proof. intros Hi. do 8 (destruct i as [|i]; [reflexivity|]). lia. Qed.

(** X19.  A line of showsettings fits its buffer: for each of the 8 keys,
    whatever the state, the text [sprintf] writes has at most 43
    characters, so with its terminating NUL it stays inside the 60 bytes of
    the buffer; and the line printed is that text, cut at its first NUL if
    the led setting of the key is a NUL byte. *)
Theorem settings_line_fits_its_buffer (i : nat) (st : State) :
  (i < 8)%nat ->
  (String.length (settingsFormat i st) <= 43)%nat /\
  settingsLine i st = cstr (list_ascii_of_string (settingsFormat i st)) /\
  (String.length (settingsLine i st) <= 43)%nat.
Proof.
  intros Hi.
  assert (Hfmt : (String.length (settingsFormat i st) <= 43)%nat).
  { unfold settingsFormat. cbv zeta.
    rewrite !string_length_app, (decimal_key_number_length i Hi).
    pose proof (decimal_byte_length
                  (if useAlternateKeyMap st then keyMap2 (config st) !!! i
                   else keyMap1 (config st) !!! i)) as Hk.
    assert (Hled : (String.length
                      (if ((ledState st !!! i) =? 0)%Z then "off" else "on")%string
                    <= 3)%nat) by (destruct (_ =? 0); cbn; lia).
    cbn [String.length]. lia. }
  split; [exact Hfmt|]. split; [reflexivity|].
  change (settingsLine i st) with (cstr (list_ascii_of_string (settingsFormat i st))).
  pose proof (cstr_length (list_ascii_of_string (settingsFormat i st))) as H.
  rewrite list_ascii_of_string_length in H. lia.
Qed.

Lemma settings_line_fits_its_buffer_witness :
  (String.length (settingsLine 7 bootState) <= 43)%nat.
Proof. apply (settings_line_fits_its_buffer 7 bootState). lia. Defined.

(** ** Several commands on one line *)

Lemma string_app_assoc (a b c : string) : (a +:+ b) +:+ c = a +:+ b +:+ c.
Proof.
  induction a as [|x a IH]; [reflexivity|].
  change (String x ((a +:+ b) +:+ c) = String x (a +:+ b +:+ c)). by rewrite IH.
Qed.

Lemma skipDelims_app (r x : string) :
  skipDelims r <> EmptyString -> skipDelims (r +:+ x) = skipDelims r +:+ x.
Proof.
  induction r as [|c r IH]; [done|].
  change (String c r +:+ x) with (String c (r +:+ x)). cbn [skipDelims].
  destruct (Ascii.eqb c SPACE); [exact IH | reflexivity].
Qed.

Lemma skipDelims_app_blank (r x : string) :
  skipDelims r = EmptyString -> skipDelims (r +:+ x) = skipDelims x.
Proof.
  induction r as [|c r IH]; [reflexivity|].
  change (String c r +:+ x) with (String c (r +:+ x)). cbn [skipDelims].
  destruct (Ascii.eqb c SPACE); [exact IH | discriminate].
Qed.

Lemma cutToken_followed (more s : string) :
  exists rest', cutToken (s +:+ " " +:+ more) = (fst (cutToken s), rest') /\
                followedBy more (snd (cutToken s)) rest'.
Proof.
  induction s as [|c s IH].
  - exists more. split; [reflexivity | by right].
  - change (String c s +:+ " " +:+ more) with (String c (s +:+ " " +:+ more)).
    cbn [cutToken]. destruct (Ascii.eqb c SPACE).
    + eexists. split; [reflexivity | by left].
    + destruct IH as (rest' & -> & Hf). destruct (cutToken s) as [tok rest].
      exists rest'. by split.
Qed.

Lemma nextToken_followed (more r rs tok r1 : string) :
  followedBy more r rs -> nextToken r = Some (tok, r1) ->
  exists r1s, nextToken rs = Some (tok, r1s) /\ followedBy more r1 r1s.
Proof.
  intros [-> | [-> ->]]; [|discriminate].
  unfold nextToken. destruct (skipDelims r) as [|c s] eqn:Hskip; [discriminate|].
  rewrite skipDelims_app by (by rewrite Hskip). rewrite Hskip.
  change (String c s +:+ " " +:+ more) with (String c (s +:+ " " +:+ more)).
  intros [= Hcut]. change (cutToken (String c s) = (tok, r1)) in Hcut.
  destruct (cutToken_followed more (String c s)) as (r1s & Hcuts & Hf).
  rewrite Hcut in Hcuts, Hf. exists r1s. split; [|exact Hf].
  f_equal. exact Hcuts.
Qed.

Lemma nextToken_followed_end (more r rs : string) :
  followedBy more r rs -> nextToken r = None -> nextToken rs = nextToken more.
Proof.
  intros [-> | [-> ->]]; [|reflexivity].
  unfold nextToken. destruct (skipDelims r) as [|c s] eqn:Hskip; [|discriminate].
  intros _. rewrite (skipDelims_app_blank r _ Hskip). reflexivity.
Qed.

(** Moving the position in the line commutes with every step that does not
    read tokens. *)
Lemma retoken_id (st : State) : set_strtokSave (strtokSave st) st = st.
Proof. by destruct st. Qed.

Lemma retoken_twice (a b : string) (x : State) :
  set_strtokSave a (set_strtokSave b x) = set_strtokSave a x.
Proof. reflexivity. Qed.

Lemma emit_retoken (e : Event) (s : string) (x : State) :
  emit e (set_strtokSave s x) = set_strtokSave s (emit e x).
Proof. reflexivity. Qed.

Lemma setLed_retoken (nr onOff : Z) (s : string) (x : State) :
  setLed nr onOff (set_strtokSave s x) = set_strtokSave s (setLed nr onOff x).
Proof.
  unfold setLed. by destruct ((nr <? 0) || (nr >=? KEYCOUNT) || (onOff <? 0) || (onOff >? 1)).
Qed.

Lemma toggleLed_retoken (nr : Z) (s : string) (x : State) :
  toggleLed nr (set_strtokSave s x) = set_strtokSave s (toggleLed nr x).
Proof.
  unfold toggleLed. autorewrite with fields.
  destruct ((nr <? 0) || (nr >=? KEYCOUNT)); [reflexivity|].
  destruct (_ =? 0); apply setLed_retoken.
Qed.

Lemma fold_retoken {A : Type} (f : State -> A -> State) (l : list A) (s : string) (x : State) :
  (forall y a, f (set_strtokSave s y) a = set_strtokSave s (f y a)) ->
  fold_left f l (set_strtokSave s x) = set_strtokSave s (fold_left f l x).
Proof.
  intros Hf. revert x. induction l as [|a l IH]; intros x; [reflexivity|].
  cbn [fold_left]. by rewrite Hf, IH.
Qed.

Lemma startupLedAnimation_retoken (s : string) (x : State) :
  startupLedAnimation (set_strtokSave s x) = set_strtokSave s (startupLedAnimation x).
Proof.
  unfold startupLedAnimation. cbv zeta. autorewrite with fields.
  rewrite (fold_retoken animationFrame).
  - rewrite !setLed_retoken. apply fold_retoken. intros y i. apply setLed_retoken.
  - intros y i. unfold animationFrame, delay. cbv zeta.
    destruct (0 <? i)%nat; by rewrite !setLed_retoken.
Qed.

Lemma storeKey_retoken (i : nat) (c : ascii) (s : string) (x : State) :
  storeKey i c (set_strtokSave s x) = set_strtokSave s (storeKey i c x).
Proof. unfold storeKey. autorewrite with fields. by destruct (useAlternateKeyMap x). Qed.

Lemma storeLedConfig_retoken (i : nat) (c : ascii) (s : string) (x : State) :
  storeLedConfig i c (set_strtokSave s x) = set_strtokSave s (storeLedConfig i c x).
Proof. unfold storeLedConfig. autorewrite with fields. by destruct (useAlternateKeyMap x). Qed.

Lemma map_retoken (b : bool) (s : string) (x : State) :
  set_useAlternateKeyMap b (set_strtokSave s x) = set_strtokSave s (set_useAlternateKeyMap b x).
Proof. reflexivity. Qed.

Create Rewrite HintDb retoken.
#[global] Hint Rewrite retoken_twice emit_retoken setLed_retoken toggleLed_retoken
  startupLedAnimation_retoken storeKey_retoken storeLedConfig_retoken map_retoken : retoken.

Lemma Serial_print_retoken (m s : string) (x : State) :
  Serial_print m (set_strtokSave s x) = set_strtokSave s (Serial_print m x).
Proof. reflexivity. Qed.

Lemma Serial_println_retoken (m s : string) (x : State) :
  Serial_println m (set_strtokSave s x) = set_strtokSave s (Serial_println m x).
Proof. reflexivity. Qed.

Lemma println_P_retoken (m s : string) (x : State) :
  println_P m (set_strtokSave s x) = set_strtokSave s (println_P m x).
Proof. unfold println_P. apply Serial_println_retoken. Qed.

#[global] Hint Rewrite Serial_print_retoken Serial_println_retoken println_P_retoken : retoken.

(** The handlers without arguments. *)
Lemma handleHelp_retoken (s : string) (x : State) :
  handleHelp (set_strtokSave s x) = (0, set_strtokSave s (snd (handleHelp x))).
Proof.
  unfold handleHelp. cbv zeta. cbn [snd].
  rewrite println_P_retoken, (fold_retoken (fun st msg => println_P msg st)).
  - by rewrite println_P_retoken.
  - intros y a. apply println_P_retoken.
Qed.

Lemma handleVersion_retoken (s : string) (x : State) :
  handleVersion (set_strtokSave s x) = (0, set_strtokSave s (snd (handleVersion x))).
Proof. unfold handleVersion. cbn [snd]. by rewrite println_P_retoken. Qed.

Lemma handleAnimation_retoken (s : string) (x : State) :
  handleAnimation (set_strtokSave s x) = (0, set_strtokSave s (snd (handleAnimation x))).
Proof. unfold handleAnimation. cbn [snd]. by rewrite startupLedAnimation_retoken. Qed.

Lemma handleShowSettings_retoken (s : string) (x : State) :
  handleShowSettings (set_strtokSave s x) = (0, set_strtokSave s (snd (handleShowSettings x))).
Proof.
  unfold handleShowSettings. cbv zeta. cbn [snd]. autorewrite with fields.
  rewrite Serial_println_retoken.
  rewrite (fold_retoken (fun st i => Serial_println (settingsLine i st) st)); [reflexivity|].
  intros y a. rewrite Serial_println_retoken. reflexivity.
Qed.

Lemma handlePersist_retoken (s : string) (x : State) :
  handlePersist (set_strtokSave s x) = (0, set_strtokSave s (snd (handlePersist x))).
Proof.
  unfold handlePersist. cbv zeta. cbn [snd].
  rewrite <- Serial_println_retoken. reflexivity.
Qed.

Lemma handleLoad_retoken (s : string) (x : State) :
  handleLoad (set_strtokSave s x) = (0, set_strtokSave s (snd (handleLoad x))).
Proof.
  unfold handleLoad. cbv zeta. autorewrite with fields.
  destruct (_ =? VERSION_TAG); cbn [snd]; [|reflexivity].
  rewrite <- Serial_println_retoken. reflexivity.
Qed.

(** Reading a token or a number from a line that has more text after it. *)
Lemma strtok_NULL_followed (more r rs tok : string) (b stp : State) :
  followedBy more r rs ->
  strtok_NULL (set_strtokSave r b) = (Some tok, stp) ->
  exists r1 r1s, stp = set_strtokSave r1 b /\
                 strtok_NULL (set_strtokSave rs b) = (Some tok, set_strtokSave r1s b) /\
                 followedBy more r1 r1s.
Proof.
  intros Hf. unfold strtok_NULL. autorewrite with fields.
  destruct (nextToken r) as [[t r1]|] eqn:Hnext; [|discriminate].
  intros [= -> <-].
  destruct (nextToken_followed more r rs tok r1 Hf Hnext) as (r1s & -> & Hf1).
  exists r1, r1s. by repeat split.
Qed.

Lemma parseNumber_followed (more r rs : string) (lo hi nr : Z) (b stp : State) :
  followedBy more r rs ->
  parseNumber lo hi (set_strtokSave r b) = (nr, stp) ->
  (nr =? -1) = false ->
  exists r1 r1s, stp = set_strtokSave r1 b /\
                 parseNumber lo hi (set_strtokSave rs b) = (nr, set_strtokSave r1s b) /\
                 followedBy more r1 r1s.
Proof.
  intros Hf. unfold parseNumber.
  destruct (strtok_NULL (set_strtokSave r b)) as [[w|] st1] eqn:Htok.
  - destruct (strtok_NULL_followed more r rs w b st1 Hf Htok) as (r1 & r1s & -> & -> & Hf1).
    destruct ((atoi w <? lo) || (atoi w >? hi)).
    + intros [= <- _]. discriminate.
    + intros [= <- <-] _. exists r1, r1s. by repeat split.
  - intros [= <- _]. discriminate.
Qed.

Ltac follow_number H :=
  match type of H with
  | context [parseNumber ?lo ?hi (set_strtokSave ?r ?b)] =>
      let nr := fresh "nr" in
      let stp := fresh "stp" in
      let Ep := fresh "Ep" in
      let En := fresh "En" in
      destruct (parseNumber lo hi (set_strtokSave r b)) as [nr stp] eqn:Ep;
      destruct (nr =? -1) eqn:En; [discriminate H|];
      match goal with
      | Hf : followedBy ?more r ?rs |- _ =>
          let r1 := fresh "r" in
          let r1s := fresh "rs" in
          let El := fresh "El" in
          let Hf1 := fresh "Hf" in
          destruct (parseNumber_followed more r rs lo hi nr b stp Hf Ep En)
            as (r1 & r1s & -> & El & Hf1);
          rewrite El, En; clear Hf Ep El
      end
  end.

Ltac follow_token H :=
  match type of H with
  | context [strtok_NULL (set_strtokSave ?r ?b)] =>
      let w := fresh "w" in
      let stp := fresh "stp" in
      let Ep := fresh "Ep" in
      destruct (strtok_NULL (set_strtokSave r b)) as [[w|] stp] eqn:Ep;
      [|discriminate H];
      match goal with
      | Hf : followedBy ?more r ?rs |- _ =>
          let r1 := fresh "r" in
          let r1s := fresh "rs" in
          let El := fresh "El" in
          let Hf1 := fresh "Hf" in
          destruct (strtok_NULL_followed more r rs w b stp Hf Ep)
            as (r1 & r1s & -> & El & Hf1);
          rewrite El; clear Hf Ep El
      end
  end.

Ltac follow_done H :=
  injection H as <-;
  match goal with
  | Hf : followedBy _ _ ?rs |- _ =>
      exists rs; split;
      [autorewrite with retoken; reflexivity
      |autorewrite with retoken fields; exact Hf]
  end.

Ltac follow_plain L :=
  rewrite !L; intros [= <-];
  match goal with
  | Hf : followedBy _ _ ?rs |- _ =>
      exists rs; split;
      [by rewrite retoken_twice | by autorewrite with fields]
  end.

(** A handler that returns 0 on what is left of a line does the same when
    more text follows the line, and leaves that text. *)
Lemma handler_followed (more r rs : string) (e : HandlerEntry) (b st1 : State) :
  e ∈ handlers ->
  followedBy more r rs ->
  handler e (set_strtokSave r b) = (0, st1) ->
  exists r1s, handler e (set_strtokSave rs b) = (0, set_strtokSave r1s st1) /\
              followedBy more (strtokSave st1) r1s.
Proof.
  intros Hin Hf. handler_cases Hin.
  - follow_plain handleHelp_retoken.
  - follow_plain handleVersion_retoken.
  - intros H. unfold handleGetLed in H |- *. follow_number H. follow_done H.
  - intros H. unfold handleToggle in H |- *. follow_number H. follow_done H.
  - intros H. unfold handleOn in H |- *. follow_number H. follow_done H.
  - intros H. unfold handleOff in H |- *. follow_number H. follow_done H.
  - intros H. unfold handleFlash in H |- *. follow_number H. follow_number H.
    unfold delay in H |- *. follow_done H.
  - follow_plain handleAnimation_retoken.
  - intros H. unfold handleActivateKeyMap in H |- *. follow_number H. follow_done H.
  - intros H. unfold handleConfigToggle in H |- *. follow_number H. follow_token H.
    cbv zeta in H |- *.
    destruct (negb (strstr "tedf" w) || negb (String.length w =? 1)%nat); [discriminate H|].
    follow_done H.
  - follow_plain handleShowSettings_retoken.
  - intros H. unfold handleSetKeyCode in H |- *. follow_number H. follow_number H.
    follow_done H.
  - intros H. unfold handleSetKeyChar in H |- *. follow_number H. follow_token H.
    cbv zeta in H |- *.
    destruct (negb (String.length w =? 1)%nat); [discriminate H|].
    follow_done H.
  - follow_plain handlePersist_retoken.
  - follow_plain handleLoad_retoken.
Qed.

Lemma commandLoop_None (fuel : nat) (st : State) : commandLoop fuel None st = st.
Proof. by destruct fuel. Qed.

Lemma loop_ended (st st' : State) : loopReaches None st None st' -> st' = st.
Proof. by inversion 1. Qed.

(** The command loop on a line that has more text after it: once the
    commands of the line have all returned 0, the loop goes on with the
    text that follows. *)
Lemma commandLoop_followed (more : string) (word : option string) (st st' : State) :
  loopReaches word st None st' ->
  forall (b : State) (r rs : string) (fuel : nat),
    strtok_NULL (set_strtokSave r b) = (word, st) ->
    followedBy more r rs ->
    (String.length rs <= fuel)%nat ->
    commandLoop fuel (fst (strtok_NULL (set_strtokSave rs b)))
                     (snd (strtok_NULL (set_strtokSave rs b)))
    = runLine more st'.
Proof.
  intros Hreach. remember None as target eqn:Htarget.
  induction Hreach as [word st | w st e st1 word' st' word'' st'' Hfind Hrun Htok Hreach IH];
    intros b r rs fuel Hfirst Hf Hfuel; subst.
  - unfold strtok_NULL in Hfirst. autorewrite with fields in Hfirst.
    destruct (nextToken r) as [[t r1]|] eqn:Hnext; [discriminate|].
    injection Hfirst as <-.
    pose proof (nextToken_followed_end more r rs Hf Hnext) as Hend.
    unfold runLine, strtok_NULL. autorewrite with fields. rewrite Hend.
    destruct (nextToken more) as [[t r1]|] eqn:Hmore; cbn [fst snd];
      [|by rewrite !commandLoop_None].
    rewrite !retoken_twice.
    apply nextToken_length in Hend, Hmore.
    apply commandLoop_fuel; autorewrite with fields; lia.
  - destruct (strtok_NULL_followed more r rs w b st Hf Hfirst) as (r1 & r1s & -> & El & Hf1).
    assert (Hlt : (String.length r1s < String.length rs)%nat).
    { pose proof (proj2 (strtok_NULL_consumes (set_strtokSave rs b))) as Hlt.
      rewrite El in Hlt. cbn [fst snd] in Hlt. autorewrite with fields in Hlt.
      apply Hlt. by eexists. }
    rewrite El. cbn [fst snd].
    destruct fuel as [|fuel]; [lia|]. cbn [commandLoop]. rewrite Hfind.
    pose proof (findHandler_elem _ _ _ Hfind) as Hin.
    destruct (handler_followed more r1 r1s e b st1 Hin Hf1 Hrun) as (r2s & Hrun' & Hf2).
    pose proof (handler_line e (set_strtokSave r1s b) Hin) as Hle.
    rewrite Hrun' in *. cbn [snd] in Hle. autorewrite with fields in Hle.
    change (0 =? 0) with true. cbv iota.
    rewrite <- (IH eq_refl st1 (strtokSave st1) r2s fuel); [| |exact Hf2|lia].
    + by destruct (strtok_NULL (set_strtokSave r2s st1)).
    + by rewrite retoken_id.
Qed.

Lemma executeSerialCommands_runLine (st : State) :
  executeSerialCommands st = runLine (cstr (readBuffer st)) st.
Proof. reflexivity. Qed.

(** X20.  Two command lines sent as one, with a space between them: when
    every command of the first line succeeds (each handler returns 0 and no
    word is unknown), the command loop treats the joined line exactly as
    the first line followed by the second, run on the state the first one
    left.  [runLine] is the loop of [executeSerialCommands] on a given
    line ([executeSerialCommands_runLine]). *)
Theorem commands_on_one_line (first more : string) (st st' : State) :
  runsToEnd first st st' ->
  runLine first st = st' /\
  runLine (first +:+ " " +:+ more) st = runLine more st'.
Proof.
  unfold runsToEnd. intros Hreach. split.
  - unfold runLine.
    pose proof (proj2 (strtok_NULL_consumes (set_strtokSave first st))) as Hlt.
    destruct (strtok_NULL (set_strtokSave first st)) as [[w|] s0] eqn:Hfirst;
      cbn [fst snd] in *.
    + autorewrite with fields in Hlt.
      destruct (commandLoop_reaches _ _ _ _ Hreach (String.length first))
        as (fuel' & _ & ->); [apply Hlt; by eexists | apply commandLoop_None].
    + rewrite commandLoop_None. symmetry. by apply loop_ended.
  - pose proof (commandLoop_followed more _ _ _ Hreach st first (first +:+ " " +:+ more)
                  (String.length (first +:+ " " +:+ more))) as Hgo.
    rewrite <- Hgo.
    + unfold runLine.
      by destruct (strtok_NULL (set_strtokSave (first +:+ " " +:+ more) st)).
    + apply surjective_pairing.
    + by left.
    + lia.
Qed.

Lemma commands_on_one_line_witness :
  let st := bootState in
  let st' := snd (strtok_NULL (snd (handleOn (snd (strtok_NULL (set_strtokSave "on 1" st)))))) in
  runsToEnd "on 1" st st' /\
  runLine "on 1" st = st' /\
  runLine ("on 1" +:+ " " +:+ "off 1") st = runLine "off 1" st'.
Proof.
  intros st st'.
  assert (Hruns : runsToEnd "on 1" st st').
  { unfold runsToEnd.
    replace (fst (strtok_NULL (set_strtokSave "on 1" st))) with (Some "on"%string)
      by (vm_compute; reflexivity).
    apply (reaches_next "on" (snd (strtok_NULL (set_strtokSave "on 1" st)))
                        (mkEntry "e" "on" MSG_ON handleOn)
                        (snd (handleOn (snd (strtok_NULL (set_strtokSave "on 1" st)))))
                        None st' None st');
      [reflexivity | vm_compute; reflexivity .. | apply reaches_here]. }
  split; [exact Hruns|].
  exact (commands_on_one_line "on 1" "off 1" st st' Hruns).
Defined.
